(** * Verification of the filter-verification harness (filter_verification.py)

    A shallow embedding of the measurement and orchestration core of
    [scripts/filter_verification.py].

    Numeric conventions.  Sample values and every quantity obtained from them
    by [sqrt], [log10], [sin] or the FFT live in [R]: floating-point rounding
    is idealised to exact real arithmetic.  Numeric *parameters* (frequencies,
    durations, levels, resonances) are floats whose only structural use is in
    integer conversions ([int], [round]) and comparisons; every finite float is
    a rational, so they are modelled in [Q], which keeps bin indices, sample
    counts and file names computable.  Python [int]s are [Z]. *)

From Stdlib Require Import Reals Lra Lia ZArith QArith Qreals Bool List String Ascii.
From Stdlib Require Import Zfloor Qabs DecimalString.
Import ListNotations.

Set Implicit Arguments.

(** ** Exceptions and results *)

Inductive exn : Type :=
| ValueError
| ZeroDivisionError
| IndexError
| FileNotFoundError
| OtherError.

Inductive result (A : Type) : Type :=
| Ok (a : A)
| Raise (e : exn).

Arguments Ok {A} a.
Arguments Raise {A} e.

Definition rbind {A B : Type} (c : result A) (k : A -> result B) : result B :=
  match c with
  | Ok a => k a
  | Raise e => Raise e
  end.

Declare Scope result_scope.
Delimit Scope result_scope with result.
Notation "x <- c ;; k" := (rbind c (fun x => k))
  (at level 61, c at next level, right associativity) : result_scope.

(** ** Python built-ins *)

Module Py.

(** [len(l)] as a Python int. *)
Definition len {A : Type} (l : list A) : Z := Z.of_nat (List.length l).

(** [int.bit_length()]. *)
Definition bit_length (z : Z) : Z :=
  if (z =? 0)%Z then 0%Z else (Z.log2 (Z.abs z) + 1)%Z.

(** [int(x)] on a float: truncation toward zero. *)
Definition int_of_Q (q : Q) : Z := Z.quot (Qnum q) (Zpos (Qden q)).

(** [round(x)] on a float: nearest integer, ties to even. *)
Definition round (q : Q) : Z :=
  let n := Qnum q in
  let d := Zpos (Qden q) in
  let fl := (n / d)%Z in
  match (2 * (n mod d) ?= d)%Z with
  | Lt => fl
  | Gt => (fl + 1)%Z
  | Eq => if Z.even fl then fl else (fl + 1)%Z
  end.

(** Index normalisation of [slice.indices] for step 1. *)
Definition clamp_index (n i : Z) : Z :=
  if (i <? 0)%Z then Z.max 0 (i + n) else Z.min i n.

(** [l[start:stop]]. *)
Definition slice {A : Type} (l : list A) (start stop : Z) : list A :=
  let lo := clamp_index (len l) start in
  let hi := clamp_index (len l) stop in
  firstn (Z.to_nat (hi - lo)) (skipn (Z.to_nat lo) l).

(** [range(a, b)]. *)
Definition range (a b : Z) : list Z :=
  map (fun i => (a + Z.of_nat i)%Z) (seq 0 (Z.to_nat (b - a))).

(** [x / y] on floats, where [y] is a Python number. *)
Definition truediv (x y : Q) : result Q :=
  if Qeq_bool y 0 then Raise ZeroDivisionError else Ok (x / y)%Q.

End Py.

(** ** numpy *)

Module Np.

Local Open Scope R_scope.

Definition sum (l : list R) : R := fold_right Rplus 0 l.

(** [np.mean]; the empty mean is NaN, which is not a real number. *)
Definition mean (l : list R) : option R :=
  match l with
  | [] => None
  | _ => Some (sum l / INR (List.length l))
  end.

(** [np.max]: raises [ValueError] on an empty array. *)
Definition max (l : list R) : result R :=
  match l with
  | [] => Raise ValueError
  | x :: xs => Ok (fold_left Rmax xs x)
  end.

(** [np.argmax]: index of the first maximal element. *)
Fixpoint argmax_from (best : R) (besti i : nat) (l : list R) : nat :=
  match l with
  | [] => besti
  | x :: xs =>
      if Rlt_dec best x then argmax_from x i (S i) xs
      else argmax_from best besti (S i) xs
  end.

Definition argmax (l : list R) : result nat :=
  match l with
  | [] => Raise ValueError
  | x :: xs => Ok (argmax_from x 0%nat 1%nat xs)
  end.

(** [np.min]: raises [ValueError] on an empty array. *)
Definition min (l : list R) : result R :=
  match l with
  | [] => Raise ValueError
  | x :: xs => Ok (fold_left Rmin xs x)
  end.

(** [np.argmin]: index of the first minimal element. *)
Definition argmin (l : list R) : result nat := argmax (map Ropp l).

(** Boolean-mask selection [a[mask]], the mask being [test] on a companion
    array [keys] of the same length. *)
Definition select {A : Type} (test : R -> bool) (keys : list R) (a : list A) : list A :=
  map snd (filter (fun p => test (fst p)) (combine keys a)).

(** [x[i]] for an index computed by numpy. *)
Definition item (l : list R) (i : nat) : result R :=
  match nth_error l i with
  | Some x => Ok x
  | None => Raise IndexError
  end.

(** [np.clip(x, lo, hi)] on one element. *)
Definition clip (lo hi x : R) : R := Rmin (Rmax x lo) hi.

(** Element-wise product of two arrays of the same length. *)
Definition mul (a b : list R) : list R :=
  map (fun p => fst p * snd p) (combine a b).

(** [np.hanning(M)]. *)
Definition hanning (M : nat) : list R :=
  match M with
  | O => []
  | S O => [1]
  | _ => map (fun n => 0.5 - 0.5 * cos (2 * PI * INR n / INR (M - 1))) (seq 0 M)
  end.

(** Real and imaginary part of bin [k] of the [n]-point DFT of [x]
    (cropped or zero-padded to [n] samples). *)
Definition dft_re (x : list R) (n k : nat) : R :=
  sum (map (fun m => nth m x 0 * cos (2 * PI * INR k * INR m / INR n)) (seq 0 n)).

Definition dft_im (x : list R) (n k : nat) : R :=
  - sum (map (fun m => nth m x 0 * sin (2 * PI * INR k * INR m / INR n)) (seq 0 n)).

(** [np.abs(np.fft.rfft(x, n=n))]: magnitudes of bins [0 .. n//2]. *)
Definition rfft_abs (x : list R) (n : nat) : list R :=
  map (fun k => sqrt ((dft_re x n k) ^ 2 + (dft_im x n k) ^ 2)) (seq 0 (n / 2 + 1)).

(** [np.fft.rfftfreq(n, d)] with [d = 1.0 / sample_rate]. *)
Definition rfftfreq (n : nat) (sample_rate : Z) : list R :=
  map (fun k => INR k * IZR sample_rate / INR n) (seq 0 (n / 2 + 1)).

End Np.

(** ** Utility functions *)

Definition log10 (x : R) : R := (ln x / ln 10)%R.

(** [linear_to_dbfs]: [20 * np.log10(np.abs(x) + 1e-12)]. *)
Definition linear_to_dbfs (x : R) : R := (20 * log10 (Rabs x + 1e-12))%R.

(** [dbfs_to_linear]: [10 ** (db / 20.0)]. *)
Definition dbfs_to_linear (db : Q) : R := Rpower 10 (Q2R db / 20).

(** [next_power_of_2]: [1 << (n - 1).bit_length()]. *)
Definition next_power_of_2 (n : Z) : Z := Z.shiftl 1 (Py.bit_length (n - 1)).

(** ** Analysis functions *)

Section Analysis.

Local Open Scope result_scope.

(** The bin index [int(round(freq * n_fft / sample_rate))]. *)
Definition bin_of (freq : Q) (n_fft sample_rate : Z) : result Z :=
  q <- Py.truediv (freq * inject_Z n_fft) (inject_Z sample_rate) ;;
  Ok (Py.round q).

(** The windowed magnitude spectrum shared by [compute_thd] and [compute_imd]:
    [np.abs(np.fft.rfft(samples * np.hanning(len(samples)), n=n_fft))]. *)
Definition windowed_spectrum (samples : list R) (n_fft : Z) : list R :=
  Np.rfft_abs (Np.mul samples (Np.hanning (List.length samples))) (Z.to_nat n_fft).

(** The body of the harmonic loop of [compute_thd], over the remaining values
    of [k]; [break] returns the accumulators as they are. *)
Fixpoint thd_harmonics (spectrum : list R) (fundamental_freq : Q)
    (n_fft sample_rate : Z) (ks : list Z)
    (harmonic_power : R) (harmonics_db : list R) : result (R * list R) :=
  match ks with
  | [] => Ok (harmonic_power, harmonics_db)
  | k :: ks' =>
      harmonic_bin <- bin_of (fundamental_freq * inject_Z k) n_fft sample_rate ;;
      if (harmonic_bin >=? Py.len spectrum)%Z then Ok (harmonic_power, harmonics_db)
      else
        m <- Np.max (Py.slice spectrum (Z.max 0 (harmonic_bin - 2)) (harmonic_bin + 3)) ;;
        let h_power := (m ^ 2)%R in
        thd_harmonics spectrum fundamental_freq n_fft sample_rate ks'
          (harmonic_power + h_power)%R
          (harmonics_db ++ [linear_to_dbfs (sqrt h_power)])
  end.

(** [compute_thd]: returns [(thd_percent, harmonics_db)]. *)
Definition compute_thd (samples : list R) (sample_rate : Z)
    (fundamental_freq : Q) (num_harmonics : Z) : result (R * list R) :=
  let n_fft := next_power_of_2 (Py.len samples) in
  let spectrum := windowed_spectrum samples n_fft in
  (* freqs = np.fft.rfftfreq(n_fft, 1.0 / sample_rate) *)
  _ <- Py.truediv 1 (inject_Z sample_rate) ;;
  fundamental_bin <- bin_of fundamental_freq n_fft sample_rate ;;
  m <- Np.max (Py.slice spectrum (Z.max 0 (fundamental_bin - 2)) (fundamental_bin + 3)) ;;
  let fundamental_power := (m ^ 2)%R in
  hs <- thd_harmonics spectrum fundamental_freq n_fft sample_rate
          (Py.range 2 (num_harmonics + 1)) 0%R [] ;;
  let '(harmonic_power, harmonics_db) := hs in
  let thd_percent :=
    if Rlt_dec 0 fundamental_power
    then (sqrt (harmonic_power / fundamental_power) * 100)%R
    else 0%R in
  Ok (thd_percent, harmonics_db).

(** The local function [get_peak_power] of [compute_imd]. *)
Definition get_peak_power (spectrum : list R) (n_fft sample_rate : Z)
    (freq : Q) : result R :=
  bin_idx <- bin_of freq n_fft sample_rate ;;
  if (bin_idx >=? Py.len spectrum)%Z then Ok 0%R
  else
    m <- Np.max (Py.slice spectrum (Z.max 0 (bin_idx - 2))
                   (Z.min (Py.len spectrum) (bin_idx + 3))) ;;
    Ok (m ^ 2)%R.

(** The dict [imd_products], in insertion order. *)
Definition imd_products (f1 f2 : Q) : list (string * Q) :=
  [ ("f2-f1"%string, Qabs (f2 - f1));
    ("f1+f2"%string, f1 + f2);
    ("2f1-f2"%string, Qabs (2 * f1 - f2));
    ("2f2-f1"%string, Qabs (2 * f2 - f1));
    ("2f1+f2"%string, 2 * f1 + f2);
    ("2f2+f1"%string, 2 * f2 + f1) ]%Q.

(** The loop over [imd_products.items()]. *)
Fixpoint imd_loop (spectrum : list R) (n_fft sample_rate : Z)
    (products : list (string * Q))
    (imd_power : R) (sideband_db : list (string * R)) : result (R * list (string * R)) :=
  match products with
  | [] => Ok (imd_power, sideband_db)
  | (name, freq) :: rest =>
      if Qlt_le_dec freq (inject_Z sample_rate / 2) then
        power <- get_peak_power spectrum n_fft sample_rate freq ;;
        imd_loop spectrum n_fft sample_rate rest
          (imd_power + power)%R
          (sideband_db ++ [(name, linear_to_dbfs (sqrt power))])
      else imd_loop spectrum n_fft sample_rate rest imd_power sideband_db
  end.

(** [compute_imd]: returns [(imd_db, sideband_db)]. *)
Definition compute_imd (samples : list R) (sample_rate : Z) (f1 f2 : Q)
    : result (R * list (string * R)) :=
  let n_fft := next_power_of_2 (Py.len samples) in
  let spectrum := windowed_spectrum samples n_fft in
  _ <- Py.truediv 1 (inject_Z sample_rate) ;;
  p1 <- get_peak_power spectrum n_fft sample_rate f1 ;;
  p2 <- get_peak_power spectrum n_fft sample_rate f2 ;;
  let fundamental_power := (p1 + p2)%R in
  ps <- imd_loop spectrum n_fft sample_rate (imd_products f1 f2) 0%R [] ;;
  let '(imd_power, sideband_db) := ps in
  let imd_db :=
    if Rlt_dec 0 fundamental_power
    then linear_to_dbfs (sqrt (imd_power / fundamental_power))
    else (-120)%R in
  Ok (imd_db, sideband_db).

(** The dict returned by [compute_step_metrics]. *)
Record StepMetrics : Type := {
  overshoot_pct : R;
  settling_time_ms : R;
  step_dc_gain : R
}.

(** The backward scan of [compute_step_metrics]: [settled_rev] is the
    [settled] array from index [i] downwards; the result is [i + 1] at the
    first unsettled sample, and [dflt] when the scan runs off the front. *)
Fixpoint settling_scan (settled_rev : list bool) (i dflt : Z) : Z :=
  match settled_rev with
  | [] => dflt
  | b :: rest => if b then settling_scan rest (i - 1)%Z dflt else (i + 1)%Z
  end.

(** [compute_step_metrics].  The key ["dc_gain"] is the field [step_dc_gain].
    On an empty buffer the mean is NaN, no comparison with it holds, and
    [np.max(samples)] raises. *)
Definition compute_step_metrics (samples : list R) (sample_rate : Z)
    : result StepMetrics :=
  let steady_start := Py.int_of_Q (inject_Z (Py.len samples) * (9 # 10)) in
  match Np.mean (Py.slice samples steady_start (Py.len samples)) with
  | None => Raise ValueError
  | Some dc_gain =>
      if Rlt_dec (Rabs dc_gain) 1e-10 then
        Ok {| overshoot_pct := 0; settling_time_ms := 0; step_dc_gain := 0 |}
      else
        peak <- Np.max samples ;;
        let overshoot :=
          if Rlt_dec 0 dc_gain
          then Rmax 0 ((peak - dc_gain) / dc_gain * 100)
          else 0%R in
        let tolerance := (Rabs dc_gain * 0.02)%R in
        let settled :=
          map (fun x => if Rlt_dec (Rabs (x - dc_gain)) tolerance then true else false)
              samples in
        let settling_sample :=
          settling_scan (rev settled) (Py.len samples - 1) (Py.len samples) in
        if (sample_rate =? 0)%Z then Raise ZeroDivisionError
        else
          Ok {| overshoot_pct := overshoot;
                settling_time_ms := (IZR settling_sample / IZR sample_rate * 1000)%R;
                step_dc_gain := dc_gain |}
  end.

(** [compute_rms]: [(rms_linear, rms_dbfs)]; [None] stands for the pair of
    NaNs numpy returns for an empty buffer. *)
Definition compute_rms (samples : list R) : option (R * R) :=
  match Np.mean (map (fun x => x ^ 2)%R samples) with
  | None => None
  | Some ms =>
      let rms_linear := sqrt ms in
      Some (rms_linear, linear_to_dbfs rms_linear)
  end.

(** The dict returned by [detect_self_oscillation]; [rms_dbfs = None] is NaN. *)
Record OscInfo : Type := {
  oscillating : bool;
  dominant_freq_hz : R;
  rms_dbfs : option R
}.

(** [detect_self_oscillation]. *)
Definition detect_self_oscillation (samples : list R) (sample_rate : Z)
    (threshold_dbfs : Q) : result OscInfo :=
  match compute_rms samples with
  | None =>
      (* NaN > threshold is False *)
      Ok {| oscillating := false; dominant_freq_hz := 0; rms_dbfs := None |}
  | Some (_, db) =>
      if Rlt_dec (Q2R threshold_dbfs) db then
        let n_fft := next_power_of_2 (Py.len samples) in
        let spectrum := Np.rfft_abs samples (Z.to_nat n_fft) in
        _ <- Py.truediv 1 (inject_Z sample_rate) ;;
        let freqs := Np.rfftfreq (Z.to_nat n_fft) sample_rate in
        i <- Np.argmax spectrum ;;
        Ok {| oscillating := true;
              dominant_freq_hz := nth i freqs 0%R;
              rms_dbfs := Some db |}
      else
        Ok {| oscillating := false; dominant_freq_hz := 0; rms_dbfs := Some db |}
  end.

(** The default [threshold_dbfs = -60.0]. *)
Definition default_threshold_dbfs : Q := (-60)%Q.

End Analysis.

(** ** Strings and paths *)

Module Str.

Local Open Scope string_scope.

(** [str(n)] for an int. *)
Definition of_Z (z : Z) : string := DecimalString.NilZero.string_of_int (Z.to_int z).

(** Left-pad the digits of [z] with zeros to [d] characters. *)
Definition zero_pad (d : nat) (z : Z) : string :=
  let s := of_Z z in
  concat EmptyString (repeat "0" (d - String.length s)) ++ s.

(** [f"{x:.<d>f}"]: [d] decimals, the exact value rounded half to even. *)
Definition fixed (d : nat) (q : Q) : string :=
  let scale := (10 ^ Z.of_nat d)%Z in
  let r := Py.round (Qabs q * inject_Z scale) in
  (if Qlt_le_dec q 0 then "-" else EmptyString)
    ++ of_Z (r / scale)
    ++ (match d with O => EmptyString | _ => "." ++ zero_pad d (r mod scale) end).

(** [s.endswith(suffix)]. *)
Definition ends_with (suffix s : string) : bool :=
  let n := String.length s in
  let m := String.length suffix in
  (m <=? n)%nat && String.eqb (substring (n - m) m s) suffix.

(** [s.split(sep)[0]]: the text before the first occurrence of [sep]. *)
Definition before_first (sep s : string) : string :=
  match index 0 sep s with
  | Some i => substring 0 i s
  | None => s
  end.

(** Position of the last ["."] of [s], scanning from index [i]. *)
Fixpoint last_dot (s : string) (i : nat) (found : option nat) : option nat :=
  match s with
  | EmptyString => found
  | String c rest =>
      last_dot rest (S i) (if Ascii.eqb c "."%char then Some i else found)
  end.

(** [" ".join(l)]. *)
Definition join (sep : string) (l : list string) : string := String.concat sep l.

(** [x in l] for a list of strings. *)
Definition mem (x : string) (l : list string) : bool := existsb (String.eqb x) l.

End Str.

(** [pathlib.Path]: the list of components, outermost first. *)
Definition Path : Type := list string.

Module PathOps.

Definition div (p : Path) (name : string) : Path := p ++ [name].

Definition parent (p : Path) : Path := removelast p.

Definition name (p : Path) : string := last p EmptyString.

(** [Path.stem]: the final component without its last suffix. *)
Definition stem (p : Path) : string :=
  let n := name p in
  match Str.last_dot n 0 None with
  | Some i =>
      if ((0 <? i) && (S i <? String.length n))%nat then substring 0 i n else n
  | None => n
  end.

(** [str(p)]. *)
Definition to_string (p : Path) : string := Str.join "/" p.

Definition eqb (p q : Path) : bool :=
  if list_eq_dec string_dec p q then true else false.

(** The path and all its ancestors, outermost first. *)
Fixpoint prefixes (p : Path) : list Path :=
  match p with
  | [] => [[]]
  | c :: rest => [] :: map (cons c) (prefixes rest)
  end.

End PathOps.

Declare Scope path_scope.
Delimit Scope path_scope with path.
Notation "p // n" := (PathOps.div p n) (at level 40, left associativity) : path_scope.

(** [extract_filter_name]: [filename.split('_c')[0]]. *)
Definition extract_filter_name (filename : string) : string :=
  Str.before_first "_c" filename.

(** ** Dataclasses *)

(** A value stored in a [metrics] dict. *)
Inductive MetricValue : Type :=
| MFloat (x : R)
| MNaN
| MInt (z : Z)
| MBool (b : bool)
| MList (l : list R)
| MDict (d : list (string * R)).

Definition Metrics : Type := list (string * MetricValue).

Module TestSignal.
Record t : Type := {
  name : string;
  samples : list R;
  sample_rate : Z;
  description : string;
  path : option Path
}.
Definition set_name (s : t) (n : string) : t :=
  {| name := n; samples := samples s; sample_rate := sample_rate s;
     description := description s; path := path s |}.
Definition set_path (s : t) (p : Path) : t :=
  {| name := name s; samples := samples s; sample_rate := sample_rate s;
     description := description s; path := Some p |}.
End TestSignal.

Module AnalysisResult.
Record t : Type := {
  filter_name : string;
  test_case : string;
  cutoff_hz : Q;
  resonance : Q;
  oversample : Z;
  metrics : Metrics;
  plots_generated : list string
}.
(** [result.plots_generated.append(p)]. *)
Definition append_plot (r : t) (p : string) : t :=
  {| filter_name := filter_name r; test_case := test_case r;
     cutoff_hz := cutoff_hz r; resonance := resonance r;
     oversample := oversample r; metrics := metrics r;
     plots_generated := (plots_generated r ++ [p])%list |}.
End AnalysisResult.

(** A field value of the dict [asdict(r)] builds from an [AnalysisResult]. *)
Inductive Field : Type :=
| FStr (s : string)
| FNum (q : Q)
| FInt (z : Z)
| FMetrics (m : Metrics)
| FStrs (l : list string).

Definition ResultDict : Type := list (string * Field).

(** [dataclasses.asdict] on an [AnalysisResult]. *)
Definition asdict (r : AnalysisResult.t) : ResultDict :=
  [ ("filter_name"%string, FStr (AnalysisResult.filter_name r));
    ("test_case"%string, FStr (AnalysisResult.test_case r));
    ("cutoff_hz"%string, FNum (AnalysisResult.cutoff_hz r));
    ("resonance"%string, FNum (AnalysisResult.resonance r));
    ("oversample"%string, FInt (AnalysisResult.oversample r));
    ("metrics"%string, FMetrics (AnalysisResult.metrics r));
    ("plots_generated"%string, FStrs (AnalysisResult.plots_generated r)) ].

Module MetricsSummary.
Record t : Type := {
  run_id : string;
  timestamp : string;
  sample_rate : Z;
  filters_tested : list string;
  tests_run : list string;
  total_test_cases : Z;
  results : list ResultDict
}.
End MetricsSummary.

(** ** The file system, the console and the clock *)

(** The sample array of a WAV file, by numpy dtype. *)
Inductive WavData : Type :=
| Int16 (l : list Z)
| Int32 (l : list Z)
| Float32 (l : list R)
| OtherDtype (l : list R).

Inductive Node : Type :=
| Dir
| WavFile (rate : Z) (data : WavData)
| JsonResults (rs : list ResultDict)
| JsonSummary (s : MetricsSummary.t)
| OtherFile.

(** Directory listing order is the order of the association list. *)
Definition FS : Type := list (Path * Node).

Module Fs.

Fixpoint lookup (fs : FS) (p : Path) : option Node :=
  match fs with
  | [] => None
  | (q, n) :: rest => if PathOps.eqb q p then Some n else lookup rest p
  end.

(** [p.exists()]. *)
Definition exists_ (fs : FS) (p : Path) : bool :=
  match lookup fs p with Some _ => true | None => false end.

(** Create or overwrite the file at [p]. *)
Fixpoint write (fs : FS) (p : Path) (n : Node) : FS :=
  match fs with
  | [] => [(p, n)]
  | (q, m) :: rest =>
      if PathOps.eqb q p then (q, n) :: rest else (q, m) :: write rest p n
  end.

(** [p.mkdir(parents=True, exist_ok=True)]. *)
Definition mkdir (fs : FS) (p : Path) : FS :=
  fold_left (fun acc d => if exists_ acc d then acc else acc ++ [(d, Dir)])
            (PathOps.prefixes p) fs.

(** [d.glob("*" + suffix)]: the entries of [d] whose name ends in [suffix]. *)
Definition glob (fs : FS) (d : Path) (suffix : string) : list Path :=
  map fst
    (filter (fun e =>
               match fst e with
               | [] => false
               | _ => PathOps.eqb (PathOps.parent (fst e)) d
                      && Str.ends_with suffix (PathOps.name (fst e))
               end) fs).

End Fs.

Record World : Type := {
  fs : FS;
  stdout : list string;
  clock : nat
}.

(** Computations that read and change the world and may raise. *)
Definition M (A : Type) : Type := World -> result (A * World).

Definition ret {A : Type} (a : A) : M A := fun w => Ok (a, w).

Definition bind {A B : Type} (c : M A) (k : A -> M B) : M B :=
  fun w =>
    match c w with
    | Ok (a, w') => k a w'
    | Raise e => Raise e
    end.

Definition lift {A : Type} (r : result A) : M A :=
  fun w => match r with Ok a => Ok (a, w) | Raise e => Raise e end.

Declare Scope io_scope.
Delimit Scope io_scope with io.
Notation "x <- c ;; k" := (bind c (fun x => k))
  (at level 61, c at next level, right associativity) : io_scope.
Notation "' pat <- c ;; k" := (bind c (fun x => match x with pat => k end))
  (at level 61, pat pattern, c at next level, right associativity) : io_scope.
Notation "c ;;; k" := (bind c (fun _ => k))
  (at level 61, right associativity) : io_scope.

(** A Python [for] loop whose body updates the loop-carried state [s];
    [continue] is a body that returns [s] unchanged. *)
Fixpoint for_each {A S : Type} (l : list A) (body : A -> S -> M S) (s : S) : M S :=
  match l with
  | [] => ret s
  | x :: rest => bind (body x s) (for_each rest body)
  end.

Definition get_fs : M FS := fun w => Ok (fs w, w).

Definition put_fs (f : FS) : M unit :=
  fun w => Ok (tt, {| fs := f; stdout := stdout w; clock := clock w |}).

(** [print(line)]. *)
Definition print (line : string) : M unit :=
  fun w => Ok (tt, {| fs := fs w; stdout := stdout w ++ [line]; clock := clock w |}).

(** [datetime.now()]: reads the clock, which then moves on. *)
Definition datetime_now : M nat :=
  fun w => Ok (clock w, {| fs := fs w; stdout := stdout w; clock := S (clock w) |}).

Definition when (b : bool) (c : M unit) : M unit := if b then c else ret tt.

(** ** WAV I/O *)

(** Conversion of a float to an integer type: truncation toward zero. *)
Definition Rtrunc (x : R) : Z := if Rlt_dec x 0 then Zceil x else Zfloor x.

(** Wrap-around of [astype(np.int16)]. *)
Definition to_int16 (z : Z) : Z := ((z + 32768) mod 65536 - 32768)%Z.

(** The array [samples_int16] of [write_wav]. *)
Definition samples_int16 (samples : list R) : list Z :=
  map (fun x => to_int16 (Rtrunc (Np.clip (-1) 1 x * 32767)%R)) samples.

(** [write_wav]. *)
Definition write_wav (path : Path) (samples : list R) (sample_rate : Z) : M unit :=
  (f <- get_fs ;;
   let f := Fs.mkdir f (PathOps.parent path) in
   put_fs (Fs.write f path (WavFile sample_rate (Int16 (samples_int16 samples)))))%io.

(** [read_wav]: [(samples, sample_rate)]. *)
Definition read_wav (path : Path) : M (list R * Z) :=
  (f <- get_fs ;;
   match Fs.lookup f path with
   | Some (WavFile sample_rate data) =>
       let samples :=
         match data with
         | Int16 l => map (fun z => IZR z / 32767)%R l
         | Int32 l => map (fun z => IZR z / 2147483647)%R l
         | Float32 l => l
         | OtherDtype l => l
         end in
       ret (samples, sample_rate)
   | Some _ => lift (Raise ValueError)
   | None => lift (Raise FileNotFoundError)
   end)%io.

(** ** Constants *)

Definition DEFAULT_SAMPLE_RATE : Z := 44100.

Definition FILTER_NAMES : list string :=
  [ "Stilson"; "Simplified"; "Huovilainen"; "Improved"; "Krajeski";
    "RKSimulation"; "Microtracker"; "MusicDSP"; "OberheimVariation";
    "Hyperion" ]%string.

Definition DEFAULT_CUTOFFS : list Q := [50; 200; 800; 1000; 2500; 5000; 12000]%Q.
Definition DEFAULT_RESONANCES : list Q := [0; 0.05; 0.1; 0.5; 0.9; 0.95; 1]%Q.
Definition DEFAULT_OVERSAMPLES : list Z := [0; 2; 4; 8]%Z.

Definition TEST_NAMES : list string :=
  [ "linear"; "resonance"; "selfoscillation"; "thd"; "imd"; "aliasing";
    "step"; "noise" ]%string.

(** ** Signal generation *)

Section Generators.

Local Open Scope string_scope.

(** [repr] of a float, as an f-string prints it. *)
Variable repr_float : Q -> string.

(** [np.random.seed(seed); np.random.randn(n)]: the [n] draws of the
    generator seeded with [seed]. *)
Variable randn : Z -> nat -> list R.

(** [scipy.signal.chirp(t, f0, t1, f1, method='logarithmic')]. *)
Variable scipy_chirp : list R -> Q -> Q -> Q -> result (list R).

(** [np.arange(n) / sample_rate]. *)
Definition time_axis (num_samples sample_rate : Z) : list R :=
  map (fun i => INR i / IZR sample_rate)%R (seq 0 (Z.to_nat num_samples)).

(** [np.linspace(0, stop, num)]. *)
Definition linspace0 (stop : Q) (num : Z) : result (list R) :=
  if (num <? 0)%Z then Raise ValueError
  else Ok (map (fun i => INR i * Q2R stop / INR (Z.to_nat num - 1))%R
               (seq 0 (Z.to_nat num))).

Definition generate_impulse (sample_rate length : Z) (amplitude : Q)
    : result TestSignal.t :=
  if (length <? 0)%Z then Raise ValueError
  else
    match repeat 0%R (Z.to_nat length) with
    | [] => Raise IndexError
    | _ :: rest =>
        Ok {| TestSignal.name := "impulse_" ++ Str.of_Z sample_rate;
              TestSignal.samples := Q2R amplitude :: rest;
              TestSignal.sample_rate := sample_rate;
              TestSignal.description :=
                "Unit impulse, " ++ Str.of_Z length ++ " samples at "
                  ++ Str.of_Z sample_rate ++ " Hz";
              TestSignal.path := None |}
    end.

Definition generate_step (sample_rate length : Z) (amplitude : Q)
    : result TestSignal.t :=
  if (length <? 0)%Z then Raise ValueError
  else
    Ok {| TestSignal.name := "step_" ++ Str.of_Z sample_rate;
          TestSignal.samples :=
            map (fun x => x * Q2R amplitude)%R (repeat 1%R (Z.to_nat length));
          TestSignal.sample_rate := sample_rate;
          TestSignal.description :=
            "Unit step, " ++ Str.of_Z length ++ " samples at "
              ++ Str.of_Z sample_rate ++ " Hz";
          TestSignal.path := None |}.

Definition generate_chirp (sample_rate : Z) (duration f0 : Q) (f1 : option Q)
    (amplitude_dbfs : Q) : result TestSignal.t :=
  let f1 := match f1 with Some f => f | None => (0.45 * inject_Z sample_rate)%Q end in
  let num_samples := Py.int_of_Q (duration * inject_Z sample_rate) in
  (t <- linspace0 duration num_samples ;;
   let amplitude := dbfs_to_linear amplitude_dbfs in
   c <- scipy_chirp t f0 duration f1 ;;
   Ok {| TestSignal.name :=
           "chirp_" ++ Str.of_Z (Py.int_of_Q f0) ++ "-" ++ Str.of_Z (Py.int_of_Q f1)
             ++ "_" ++ Str.of_Z sample_rate;
         TestSignal.samples := map (fun x => amplitude * x)%R c;
         TestSignal.sample_rate := sample_rate;
         TestSignal.description :=
           "Log chirp " ++ Str.fixed 0 f0 ++ "-" ++ Str.fixed 0 f1 ++ " Hz, "
             ++ repr_float amplitude_dbfs ++ " dBFS, " ++ repr_float duration ++ "s";
         TestSignal.path := None |})%result.

Definition generate_sine (sample_rate : Z) (frequency duration amplitude_dbfs : Q)
    : TestSignal.t :=
  let num_samples := Py.int_of_Q (duration * inject_Z sample_rate) in
  let t := time_axis num_samples sample_rate in
  let amplitude := dbfs_to_linear amplitude_dbfs in
  {| TestSignal.name :=
       "sine_" ++ Str.of_Z (Py.int_of_Q frequency) ++ "hz_" ++ Str.of_Z sample_rate;
     TestSignal.samples :=
       map (fun ti => amplitude * sin (2 * PI * Q2R frequency * ti))%R t;
     TestSignal.sample_rate := sample_rate;
     TestSignal.description :=
       "Sine " ++ Str.fixed 0 frequency ++ " Hz, " ++ repr_float amplitude_dbfs
         ++ " dBFS, " ++ repr_float duration ++ "s";
     TestSignal.path := None |}.

Definition generate_two_tone (sample_rate : Z) (f1 f2 duration amplitude_dbfs : Q)
    : TestSignal.t :=
  let num_samples := Py.int_of_Q (duration * inject_Z sample_rate) in
  let t := time_axis num_samples sample_rate in
  let amplitude := dbfs_to_linear amplitude_dbfs in
  {| TestSignal.name :=
       "twotone_" ++ Str.of_Z (Py.int_of_Q f1) ++ "_" ++ Str.of_Z (Py.int_of_Q f2)
         ++ "hz_" ++ Str.of_Z sample_rate;
     TestSignal.samples :=
       map (fun ti => amplitude * (sin (2 * PI * Q2R f1 * ti)
                                   + sin (2 * PI * Q2R f2 * ti)))%R t;
     TestSignal.sample_rate := sample_rate;
     TestSignal.description :=
       "Two-tone " ++ Str.fixed 0 f1 ++ "+" ++ Str.fixed 0 f2 ++ " Hz, "
         ++ repr_float amplitude_dbfs ++ " dBFS each";
     TestSignal.path := None |}.

Definition generate_white_noise (sample_rate : Z) (duration rms_dbfs : Q) (seed : Z)
    : result TestSignal.t :=
  let num_samples := Py.int_of_Q (duration * inject_Z sample_rate) in
  if (num_samples <? 0)%Z then Raise ValueError
  else
    let samples := randn seed (Z.to_nat num_samples) in
    let rms_linear := dbfs_to_linear rms_dbfs in
    Ok {| TestSignal.name := "whitenoise_" ++ Str.of_Z sample_rate;
          TestSignal.samples := map (fun x => x * rms_linear)%R samples;
          TestSignal.sample_rate := sample_rate;
          TestSignal.description :=
            "White noise, " ++ repr_float rms_dbfs ++ " dBFS RMS, "
              ++ repr_float duration ++ "s";
          TestSignal.path := None |}.


Definition generate_silence (sample_rate length : Z) : result TestSignal.t :=
  if (length <? 0)%Z then Raise ValueError
  else
    Ok {| TestSignal.name := "silence_" ++ Str.of_Z sample_rate;
          TestSignal.samples := repeat 0%R (Z.to_nat length);
          TestSignal.sample_rate := sample_rate;
          TestSignal.description :=
            "Digital silence, " ++ Str.of_Z length ++ " samples";
          TestSignal.path := None |}.

(** [save_test_signal]: the signal object is updated in place; the updated
    object is returned next to the path. *)
Definition save_test_signal (signal : TestSignal.t) (output_dir : Path)
    : M (TestSignal.t * Path) :=
  (let output_path := PathOps.div output_dir (TestSignal.name signal ++ ".wav") in
   f <- get_fs ;;
   (if Fs.exists_ f output_path then ret tt
    else write_wav output_path (TestSignal.samples signal)
           (TestSignal.sample_rate signal)) ;;;
   ret (TestSignal.set_path signal output_path, output_path))%io.

End Generators.

(** ** RunFilters integration *)

(** [subprocess.CompletedProcess]. *)
Record CompletedProcess : Type := {
  returncode : Z;
  proc_stdout : string;
  proc_stderr : string
}.

Section Orchestration.

Local Open Scope string_scope.
Local Open Scope io_scope.

Variable repr_float : Q -> string.
Variable randn : Z -> nat -> list R.
Variable scipy_chirp : list R -> Q -> Q -> Q -> result (list R).

(** [subprocess.run(cmd, capture_output=True, text=True)]: the child process
    reads and changes the file system; its output streams are captured. *)
Variable subprocess_run : list string -> FS -> result (CompletedProcess * FS).

(** The plotting collaborators ([plot_frequency_response], [plot_spectrogram],
    ...): the function name and the output path; each returns the path it
    saved the figure to. *)
Variable plot : string -> Path -> M Path.

(** [compute_frequency_response]: [(freqs, magnitude_db, phase_rad)]. *)
Variable compute_frequency_response : list R -> Z -> result (list R * list R * list R).

(** [compute_group_delay]. *)
Variable compute_group_delay : list R -> list R -> result (list R).

(** [compute_spectrogram]: [(times, freqs, magnitude_db)], one row of
    [magnitude_db] per frequency. *)
Variable compute_spectrogram : list R -> Z -> result (list R * list R * list (list R)).

(** [compute_psd]: [(freqs, psd_db)]. *)
Variable compute_psd : list R -> Z -> result (list R * list R).

(** [generate_comparison_plots]. *)
Variable generate_comparison_plots :
  Path -> Path -> Z -> list string -> bool -> M (list string).

(** [strftime("%Y-%m-%d_%H%M%S")] and [isoformat()] of a clock reading. *)
Variable strftime : nat -> string.
Variable isoformat : nat -> string.

Definition subprocess (cmd : list string) : M CompletedProcess :=
  fun w =>
    match subprocess_run cmd (fs w) with
    | Ok (cp, f) => Ok (cp, {| fs := f; stdout := stdout w; clock := clock w |})
    | Raise e => Raise e
    end.

(** The list [cmd] of [run_filters]. *)
Definition run_filters_cmd (runfilters_path input_wav : Path)
    (cutoff resonance : Q) (oversample : Z) (output_dir : Path) : list string :=
  [ PathOps.to_string runfilters_path;
    "-f"; PathOps.to_string input_wav;
    "-c"; Str.of_Z (Py.int_of_Q cutoff);
    "-r"; Str.fixed 2 resonance;
    "-s"; Str.of_Z oversample;
    "-o"; PathOps.to_string output_dir ].

(** The glob [pattern] of [run_filters], without its leading ["*"]. *)
Definition output_pattern (cutoff resonance : Q) (oversample : Z) : string :=
  if (0 <? oversample)%Z
  then "_c" ++ Str.of_Z (Py.int_of_Q cutoff) ++ "_r" ++ Str.fixed 2 resonance
         ++ "_os" ++ Str.of_Z oversample ++ "x.wav"
  else "_c" ++ Str.of_Z (Py.int_of_Q cutoff) ++ "_r" ++ Str.fixed 2 resonance
         ++ ".wav".

(** [run_filters]. *)
Definition run_filters (runfilters_path input_wav : Path)
    (cutoff resonance : Q) (oversample : Z) (output_dir : Path) (verbose : bool)
    : M (list Path) :=
  f <- get_fs ;;
  put_fs (Fs.mkdir f output_dir) ;;;
  let cmd :=
    run_filters_cmd runfilters_path input_wav cutoff resonance oversample output_dir in
  when verbose (print ("Running: " ++ Str.join " " cmd)) ;;;
  result <- subprocess cmd ;;
  if negb (returncode result =? 0)%Z then
    print ("RunFilters error: " ++ proc_stderr result) ;;;
    ret []
  else
    when (verbose && negb (String.eqb (proc_stdout result) EmptyString))
         (print (proc_stdout result)) ;;;
    f <- get_fs ;;
    ret (Fs.glob f output_dir (output_pattern cutoff resonance oversample)).

(** The discovery block every category repeats:
    [if skip_existing and test_dir.exists() and list(test_dir.glob("*.wav")):
         output_files = list(test_dir.glob("*.wav"))
     else: output_files = run_filters(...)]. *)
Definition discover_outputs (skip_existing : bool) (test_dir : Path)
    (run : M (list Path)) : M (list Path) :=
  f <- get_fs ;;
  if skip_existing && Fs.exists_ f test_dir
     && negb (Nat.eqb (List.length (Fs.glob f test_dir ".wav")) 0)
  then ret (Fs.glob f test_dir ".wav")
  else run.

(** The loop [for wav_path in output_files] every category repeats: files of
    filters outside [filters] are skipped ([continue]); [analyze] is the rest
    of the loop body, up to the result it appends. *)
Definition analyze_outputs (filters : list string) (output_files : list Path)
    (analyze : string -> Path -> M AnalysisResult.t)
    (results : list AnalysisResult.t) : M (list AnalysisResult.t) :=
  for_each output_files
    (fun wav_path results =>
       let filter_name := extract_filter_name (PathOps.stem wav_path) in
       if negb (Str.mem filter_name filters) then ret results
       else
         result <- analyze filter_name wav_path ;;
         ret (results ++ [result])%list)
    results.

(** [if not no_plots: p = plot_fn(..., output_path, ...);
     result.plots_generated.append(str(p))]. *)
Definition add_plot (no_plots : bool) (plot_fn : string) (output_path : Path)
    (result : AnalysisResult.t) : M AnalysisResult.t :=
  if no_plots then ret result
  else
    p <- plot plot_fn output_path ;;
    ret (AnalysisResult.append_plot result (PathOps.to_string p)).

(** ** Test orchestration *)

Definition mkdir (p : Path) : M unit :=
  f <- get_fs ;; put_fs (Fs.mkdir f p).

(** [with open(path, 'w') as f: json.dump(doc, f, indent=2)]. *)
Definition json_dump (path : Path) (doc : Node) : M unit :=
  f <- get_fs ;;
  if Fs.exists_ f (PathOps.parent path) then put_fs (Fs.write f path doc)
  else lift (Raise FileNotFoundError).

Definition Rltb (x y : R) : bool := if Rlt_dec x y then true else false.

(** The [metrics] dict of the linear-response test. *)
Definition linear_metrics (freqs mag_db : list R) : result Metrics :=
  (m0 <- Np.item mag_db 0 ;;
   i <- Np.argmin (map (fun m => Rabs (m - m0 + 3))%R mag_db) ;;
   fc <- Np.item freqs i ;;
   let n10 := Py.int_of_Q (inject_Z (Py.len mag_db) * 0.1) in
   hi <- Np.max (Py.slice mag_db 0 n10) ;;
   lo <- Np.min (Py.slice mag_db 0 n10) ;;
   let n60 := Py.int_of_Q (inject_Z (Py.len mag_db) * 0.6) in
   sb <- Np.min (Py.slice mag_db n60 (Py.len mag_db)) ;;
   Ok [ ("cutoff_measured_hz", MFloat fc);
        ("passband_ripple_db", MFloat (hi - lo));
        ("stopband_atten_db", MFloat (- sb)) ])%result.

(** The body of the file loop of [run_linear_response_test]. *)
Definition analyze_linear (plots_dir : Path) (cutoff resonance : Q) (oversample : Z) (no_plots : bool)
    (filter_name : string) (wav_path : Path) : M AnalysisResult.t :=
  ' (samples, sr) <- read_wav wav_path ;;
  ' (freqs, mag_db, phase_rad) <-
      lift (compute_frequency_response samples sr) ;;
  group_delay <- lift (compute_group_delay phase_rad freqs) ;;
  m <- lift (linear_metrics freqs mag_db) ;;
  let result :=
    {| AnalysisResult.filter_name := filter_name;
       AnalysisResult.test_case := "linear_response";
       AnalysisResult.cutoff_hz := cutoff;
       AnalysisResult.resonance := resonance;
       AnalysisResult.oversample := oversample;
       AnalysisResult.metrics := m;
       AnalysisResult.plots_generated := [] |} in
  let os_suffix :=
    if (0 <? oversample)%Z then "_os" ++ Str.of_Z oversample ++ "x"
    else EmptyString in
  result <-
    add_plot no_plots "plot_frequency_response"
      (plots_dir // "linear_response"
         // (filter_name ++ "_c" ++ Str.of_Z (Py.int_of_Q cutoff)
               ++ os_suffix ++ "_magnitude.png"))%path result ;;
  add_plot no_plots "plot_phase_response"
    (plots_dir // "linear_response"
       // (filter_name ++ "_c" ++ Str.of_Z (Py.int_of_Q cutoff)
             ++ os_suffix ++ "_phase.png"))%path result.

Definition run_linear_response_test
    (runfilters_path inputs_dir wav_dir plots_dir : Path) (sample_rate : Z)
    (cutoffs : list Q) (filters : list string) (oversamples : list Z)
    (skip_existing no_plots verbose : bool) : M (list AnalysisResult.t) :=
  let resonance := 0%Q in
  impulse <- lift (generate_impulse sample_rate 32768 1) ;;
  ' (impulse, impulse_path) <- save_test_signal impulse inputs_dir ;;
  for_each cutoffs
    (fun cutoff results =>
       for_each oversamples
         (fun oversample results =>
            when verbose
              (print ("  Linear response: cutoff=" ++ repr_float cutoff
                        ++ ", os=" ++ Str.of_Z oversample ++ "x")) ;;;
            let test_dir :=
              (wav_dir // "linear_response"
                 // ("c" ++ Str.of_Z (Py.int_of_Q cutoff) ++ "_r"
                       ++ Str.fixed 2 resonance ++ "_os" ++ Str.of_Z oversample))%path in
            output_files <-
              discover_outputs skip_existing test_dir
                (run_filters runfilters_path impulse_path cutoff resonance
                   oversample test_dir verbose) ;;
            analyze_outputs filters output_files
              (analyze_linear plots_dir cutoff resonance oversample no_plots)
              results)
         results)
    [].

(** [[c for c in cutoffs if c in [200, 1000, 5000]]]. *)
Definition restricted_cutoffs (cutoffs : list Q) : list Q :=
  filter (fun c => existsb (Qeq_bool c) [200; 1000; 5000]%Q) cutoffs.

(** The spectrogram peak search of the resonance test:
    [(peak_freq, peak_amp)].  A row without time frames has a NaN mean, and
    [np.max] of the selection then raises. *)
Definition resonance_peak (cutoff : Q) (freqs : list R) (spec_db : list (list R))
    : result (R * R) :=
  let in_band f := Rltb (Q2R (cutoff * 0.5)) f && Rltb f (Q2R (cutoff * 1.5)) in
  if existsb in_band freqs then
    let rows := Np.select in_band freqs spec_db in
    (means <-
       fold_right (fun row acc =>
                     match Np.mean row with
                     | Some m => (ms <- acc ;; Ok (m :: ms))
                     | None => Raise ValueError
                     end) (Ok []) rows ;;
     peak_freq_idx <- Np.argmax means ;;
     peak_freq <- Np.item (Np.select in_band freqs freqs) peak_freq_idx ;;
     peak_amp <- Np.max (List.concat rows) ;;
     Ok (peak_freq, peak_amp))%result
  else Ok (Q2R cutoff, (-80)%R).

(** The body of the file loop of [run_resonance_test]. *)
Definition analyze_resonance (plots_dir : Path) (cutoff resonance : Q) (oversample : Z) (no_plots : bool)
    (filter_name : string) (wav_path : Path) : M AnalysisResult.t :=
  ' (samples, sr) <- read_wav wav_path ;;
  ' (times, freqs, spec_db) <- lift (compute_spectrogram samples sr) ;;
  ' (peak_freq, peak_amp) <- lift (resonance_peak cutoff freqs spec_db) ;;
  let result :=
    {| AnalysisResult.filter_name := filter_name;
       AnalysisResult.test_case := "resonance";
       AnalysisResult.cutoff_hz := cutoff;
       AnalysisResult.resonance := resonance;
       AnalysisResult.oversample := oversample;
       AnalysisResult.metrics :=
         [ ("peak_freq_hz", MFloat peak_freq);
           ("peak_amplitude_db", MFloat peak_amp);
           ("freq_error_percent",
            MFloat (Rabs (peak_freq - Q2R cutoff) / Q2R cutoff * 100)) ];
       AnalysisResult.plots_generated := [] |} in
  add_plot no_plots "plot_spectrogram"
    (plots_dir // "resonance"
       // (filter_name ++ "_c" ++ Str.of_Z (Py.int_of_Q cutoff)
             ++ "_spectrogram.png"))%path result.

Definition run_resonance_test
    (runfilters_path inputs_dir wav_dir plots_dir : Path) (sample_rate : Z)
    (cutoffs : list Q) (filters : list string)
    (skip_existing no_plots verbose : bool) : M (list AnalysisResult.t) :=
  let resonance := 0.9%Q in
  let oversample := 0%Z in
  chirp <- lift (generate_chirp repr_float scipy_chirp sample_rate 5 20 None (-12)) ;;
  ' (chirp, chirp_path) <- save_test_signal chirp inputs_dir ;;
  let test_cutoffs := restricted_cutoffs cutoffs in
  for_each test_cutoffs
    (fun cutoff results =>
       when verbose (print ("  Resonance test: cutoff=" ++ repr_float cutoff)) ;;;
       let test_dir :=
         (wav_dir // "resonance"
            // ("c" ++ Str.of_Z (Py.int_of_Q cutoff) ++ "_r"
                  ++ Str.fixed 2 resonance ++ "_os" ++ Str.of_Z oversample))%path in
       output_files <-
         discover_outputs skip_existing test_dir
           (run_filters runfilters_path chirp_path cutoff resonance
              oversample test_dir verbose) ;;
       analyze_outputs filters output_files
         (analyze_resonance plots_dir cutoff resonance oversample no_plots)
         results)
    [].

(** The dict [osc_info] as a [metrics] mapping. *)
Definition osc_metrics (o : OscInfo) : Metrics :=
  [ ("oscillating", MBool (oscillating o));
    ("dominant_freq_hz", MFloat (dominant_freq_hz o));
    ("rms_dbfs", match rms_dbfs o with Some x => MFloat x | None => MNaN end) ].

(** The body of the file loop of [run_selfoscillation_test]. *)
Definition analyze_selfoscillation (plots_dir : Path) (cutoff resonance : Q) (oversample : Z) (no_plots : bool)
    (filter_name : string) (wav_path : Path) : M AnalysisResult.t :=
  ' (samples, sr) <- read_wav wav_path ;;
  osc_info <- lift (detect_self_oscillation samples sr default_threshold_dbfs) ;;
  let result :=
    {| AnalysisResult.filter_name := filter_name;
       AnalysisResult.test_case := "selfoscillation";
       AnalysisResult.cutoff_hz := cutoff;
       AnalysisResult.resonance := resonance;
       AnalysisResult.oversample := oversample;
       AnalysisResult.metrics := osc_metrics osc_info;
       AnalysisResult.plots_generated := [] |} in
  add_plot no_plots "plot_self_oscillation"
    (plots_dir // "selfoscillation"
       // (filter_name ++ "_c" ++ Str.of_Z (Py.int_of_Q cutoff)
             ++ "_oscillation.png"))%path result.

Definition run_selfoscillation_test
    (runfilters_path inputs_dir wav_dir plots_dir : Path) (sample_rate : Z)
    (cutoffs : list Q) (filters : list string)
    (skip_existing no_plots verbose : bool) : M (list AnalysisResult.t) :=
  let resonance := 1%Q in
  let oversample := 0%Z in
  silence <- lift (generate_silence sample_rate (sample_rate * 2)) ;;
  ' (silence, silence_path) <- save_test_signal silence inputs_dir ;;
  let test_cutoffs := restricted_cutoffs cutoffs in
  for_each test_cutoffs
    (fun cutoff results =>
       when verbose (print ("  Self-oscillation test: cutoff=" ++ repr_float cutoff)) ;;;
       let test_dir :=
         (wav_dir // "selfoscillation"
            // ("c" ++ Str.of_Z (Py.int_of_Q cutoff) ++ "_r"
                  ++ Str.fixed 2 resonance ++ "_os" ++ Str.of_Z oversample))%path in
       output_files <-
         discover_outputs skip_existing test_dir
           (run_filters runfilters_path silence_path cutoff resonance
              oversample test_dir verbose) ;;
       analyze_outputs filters output_files
         (analyze_selfoscillation plots_dir cutoff resonance oversample no_plots)
         results)
    [].

(** The body of the file loop of [run_thd_test]. *)
Definition analyze_thd (plots_dir : Path) (cutoff resonance : Q) (oversample test_freq level_dbfs : Z)
    (no_plots : bool)
    (filter_name : string) (wav_path : Path) : M AnalysisResult.t :=
  ' (samples, sr) <- read_wav wav_path ;;
  ' (thd_pct, harmonics) <-
      lift (compute_thd samples sr (inject_Z test_freq) 10) ;;
  let result :=
    {| AnalysisResult.filter_name := filter_name;
       AnalysisResult.test_case := "thd";
       AnalysisResult.cutoff_hz := cutoff;
       AnalysisResult.resonance := resonance;
       AnalysisResult.oversample := oversample;
       AnalysisResult.metrics :=
         [ ("input_level_dbfs", MInt level_dbfs);
           ("thd_percent", MFloat thd_pct);
           ("harmonics_db", MList (firstn 5 harmonics)) ];
       AnalysisResult.plots_generated := [] |} in
  add_plot no_plots "plot_harmonic_spectrum"
    (plots_dir // "thd"
       // (filter_name ++ "_" ++ Str.of_Z level_dbfs
             ++ "dbfs_harmonics.png"))%path result.

Definition run_thd_test
    (runfilters_path inputs_dir wav_dir plots_dir : Path) (sample_rate : Z)
    (filters : list string)
    (skip_existing no_plots verbose : bool) : M (list AnalysisResult.t) :=
  let cutoff := 5000%Q in
  let resonance := 0%Q in
  let oversample := 0%Z in
  let test_freq := 1000%Z in
  for_each [-18; -12; -6]%Z
    (fun level_dbfs results =>
       when verbose (print ("  THD test: level=" ++ Str.of_Z level_dbfs ++ " dBFS")) ;;;
       let sine :=
         generate_sine repr_float sample_rate (inject_Z test_freq) 1
           (inject_Z level_dbfs) in
       let sine :=
         TestSignal.set_name sine
           ("sine_" ++ Str.of_Z test_freq ++ "hz_" ++ Str.of_Z level_dbfs
              ++ "dbfs_" ++ Str.of_Z sample_rate) in
       ' (sine, sine_path) <- save_test_signal sine inputs_dir ;;
       let test_dir :=
         (wav_dir // "thd" // ("level" ++ Str.of_Z level_dbfs ++ "dbfs"))%path in
       output_files <-
         discover_outputs skip_existing test_dir
           (run_filters runfilters_path sine_path cutoff resonance
              oversample test_dir verbose) ;;
       analyze_outputs filters output_files
         (analyze_thd plots_dir cutoff resonance oversample test_freq level_dbfs no_plots)
         results)
    [].

(** The body of the file loop of [run_imd_test]. *)
Definition analyze_imd (plots_dir : Path) (cutoff resonance : Q) (oversample f1 f2 : Z) (no_plots : bool)
    (filter_name : string) (wav_path : Path) : M AnalysisResult.t :=
  ' (samples, sr) <- read_wav wav_path ;;
  ' (imd_db, sidebands) <-
      lift (compute_imd samples sr (inject_Z f1) (inject_Z f2)) ;;
  let result :=
    {| AnalysisResult.filter_name := filter_name;
       AnalysisResult.test_case := "imd";
       AnalysisResult.cutoff_hz := cutoff;
       AnalysisResult.resonance := resonance;
       AnalysisResult.oversample := oversample;
       AnalysisResult.metrics :=
         [ ("imd_db", MFloat imd_db); ("sidebands", MDict sidebands) ];
       AnalysisResult.plots_generated := [] |} in
  add_plot no_plots "plot_imd_spectrum"
    (plots_dir // "imd" // (filter_name ++ "_imd.png"))%path result.

Definition run_imd_test
    (runfilters_path inputs_dir wav_dir plots_dir : Path) (sample_rate : Z)
    (filters : list string)
    (skip_existing no_plots verbose : bool) : M (list AnalysisResult.t) :=
  let cutoff := 2500%Q in
  let resonance := 0%Q in
  let oversample := 0%Z in
  let f1 := 1000%Z in
  let f2 := 1200%Z in
  when verbose
    (print ("  IMD test: " ++ Str.of_Z f1 ++ "+" ++ Str.of_Z f2 ++ " Hz")) ;;;
  let twotone :=
    generate_two_tone repr_float sample_rate (inject_Z f1) (inject_Z f2) 1 (-12) in
  ' (twotone, twotone_path) <- save_test_signal twotone inputs_dir ;;
  let test_dir := (wav_dir // "imd")%path in
  output_files <-
    discover_outputs skip_existing test_dir
      (run_filters runfilters_path twotone_path cutoff resonance
         oversample test_dir verbose) ;;
  analyze_outputs filters output_files
    (analyze_imd plots_dir cutoff resonance oversample f1 f2 no_plots)
    [].

(** The alias-band measurement of the aliasing test: [alias_ratio_db]. *)
Definition alias_ratio_db (samples : list R) (sr test_freq : Z) : result R :=
  let n_fft := next_power_of_2 (Py.len samples) in
  let spectrum := Np.rfft_abs samples (Z.to_nat n_fft) in
  (_ <- Py.truediv 1 (inject_Z sr) ;;
   let freqs := Np.rfftfreq (Z.to_nat n_fft) sr in
   let main_mask f :=
     Rltb (Q2R (inject_Z test_freq * 0.9)) f && Rltb f (Q2R (inject_Z test_freq * 1.1)) in
   let main_energy := Np.sum (map (fun x => x ^ 2)%R (Np.select main_mask freqs spectrum)) in
   let alias_mask f :=
     Rltb 100 f && Rltb f (Q2R (inject_Z test_freq * 0.5)) in
   let alias_energy := Np.sum (map (fun x => x ^ 2)%R (Np.select alias_mask freqs spectrum)) in
   Ok (if Rlt_dec 0 main_energy
       then (10 * log10 (alias_energy / main_energy + 1e-12))%R
       else (-120)%R))%result.

(** The body of the file loop of [run_aliasing_test]. *)
Definition analyze_aliasing (cutoff resonance : Q) (oversample test_freq : Z)
    (filter_name : string) (wav_path : Path) : M AnalysisResult.t :=
  ' (samples, sr) <- read_wav wav_path ;;
  ratio <- lift (alias_ratio_db samples sr test_freq) ;;
  ret {| AnalysisResult.filter_name := filter_name;
         AnalysisResult.test_case := "aliasing";
         AnalysisResult.cutoff_hz := cutoff;
         AnalysisResult.resonance := resonance;
         AnalysisResult.oversample := oversample;
         AnalysisResult.metrics :=
           [ ("test_freq_hz", MInt test_freq);
             ("alias_ratio_db", MFloat ratio) ];
         AnalysisResult.plots_generated := [] |}.

Definition run_aliasing_test
    (runfilters_path inputs_dir wav_dir plots_dir : Path) (sample_rate : Z)
    (filters : list string) (oversamples : list Z)
    (skip_existing no_plots verbose : bool) : M (list AnalysisResult.t) :=
  let cutoff := 15000%Q in
  let resonance := 0.9%Q in
  let test_freqs := [10000; 15000]%Z in
  for_each test_freqs
    (fun test_freq results =>
       when verbose (print ("  Aliasing test: " ++ Str.of_Z test_freq ++ " Hz")) ;;;
       let sine :=
         generate_sine repr_float sample_rate (inject_Z test_freq) 1 (-6) in
       let sine :=
         TestSignal.set_name sine
           ("sine_" ++ Str.of_Z test_freq ++ "hz_alias_" ++ Str.of_Z sample_rate) in
       ' (sine, sine_path) <- save_test_signal sine inputs_dir ;;
       for_each [0; 4]%Z
         (fun oversample results =>
            if negb (existsb (Z.eqb oversample) oversamples) then ret results
            else
              let test_dir :=
                (wav_dir // "aliasing"
                   // ("f" ++ Str.of_Z test_freq ++ "_os" ++ Str.of_Z oversample))%path in
              output_files <-
                discover_outputs skip_existing test_dir
                  (run_filters runfilters_path sine_path cutoff resonance
                     oversample test_dir verbose) ;;
              analyze_outputs filters output_files
                (analyze_aliasing cutoff resonance oversample test_freq)
                results)
         results)
    [].

(** The dict [step_metrics] as a [metrics] mapping. *)
Definition step_metrics_dict (s : StepMetrics) : Metrics :=
  [ ("overshoot_pct", MFloat (overshoot_pct s));
    ("settling_time_ms", MFloat (settling_time_ms s));
    ("dc_gain", MFloat (step_dc_gain s)) ].

(** The body of the file loop of [run_step_test]. *)
Definition analyze_step (plots_dir : Path) (cutoff resonance : Q) (oversample : Z) (no_plots : bool)
    (filter_name : string) (wav_path : Path) : M AnalysisResult.t :=
  ' (samples, sr) <- read_wav wav_path ;;
  step_metrics <- lift (compute_step_metrics samples sr) ;;
  let result :=
    {| AnalysisResult.filter_name := filter_name;
       AnalysisResult.test_case := "step";
       AnalysisResult.cutoff_hz := cutoff;
       AnalysisResult.resonance := resonance;
       AnalysisResult.oversample := oversample;
       AnalysisResult.metrics := step_metrics_dict step_metrics;
       AnalysisResult.plots_generated := [] |} in
  add_plot no_plots "plot_step_response"
    (plots_dir // "step"
       // (filter_name ++ "_r" ++ Str.fixed 2 resonance ++ "_step.png"))%path
    result.

Definition run_step_test
    (runfilters_path inputs_dir wav_dir plots_dir : Path) (sample_rate : Z)
    (filters : list string)
    (skip_existing no_plots verbose : bool) : M (list AnalysisResult.t) :=
  let cutoff := 1000%Q in
  let oversample := 0%Z in
  step <- lift (generate_step sample_rate 32768 1) ;;
  ' (step, step_path) <- save_test_signal step inputs_dir ;;
  for_each [0; 0.5; 0.9]%Q
    (fun resonance results =>
       when verbose
         (print ("  Step response test: resonance=" ++ repr_float resonance)) ;;;
       let test_dir := (wav_dir // "step" // ("r" ++ Str.fixed 2 resonance))%path in
       output_files <-
         discover_outputs skip_existing test_dir
           (run_filters runfilters_path step_path cutoff resonance
              oversample test_dir verbose) ;;
       analyze_outputs filters output_files
         (analyze_step plots_dir cutoff resonance oversample no_plots)
         results)
    [].

(** The [metrics] dict of the noise test. *)
Definition noise_metrics (cutoff : Q) (input_psd output_freqs output_psd : list R)
    : result Metrics :=
  (cutoff_idx <- Np.argmin (map (fun f => Rabs (f - Q2R cutoff))%R output_freqs) ;;
   stopband_idx <-
     Np.argmin (map (fun f => Rabs (f - Q2R (cutoff * 4)))%R output_freqs) ;;
   a <- Np.item output_psd cutoff_idx ;;
   b <- Np.item output_psd stopband_idx ;;
   c <- Np.item input_psd stopband_idx ;;
   d <- Np.item output_psd stopband_idx ;;
   Ok [ ("psd_at_cutoff_db", MFloat a);
        ("psd_at_4x_cutoff_db", MFloat b);
        ("stopband_atten_db", MFloat (c - d)) ])%result.

(** The body of the file loop of [run_noise_test]. *)
Definition analyze_noise (cutoff resonance : Q) (oversample : Z) (input_psd : list R)
    (filter_name : string) (wav_path : Path) : M AnalysisResult.t :=
  ' (samples, sr) <- read_wav wav_path ;;
  ' (output_freqs, output_psd) <- lift (compute_psd samples sr) ;;
  m <- lift (noise_metrics cutoff input_psd output_freqs output_psd) ;;
  ret {| AnalysisResult.filter_name := filter_name;
         AnalysisResult.test_case := "noise";
         AnalysisResult.cutoff_hz := cutoff;
         AnalysisResult.resonance := resonance;
         AnalysisResult.oversample := oversample;
         AnalysisResult.metrics := m;
         AnalysisResult.plots_generated := [] |}.

Definition run_noise_test
    (runfilters_path inputs_dir wav_dir plots_dir : Path) (sample_rate : Z)
    (filters : list string)
    (skip_existing no_plots verbose : bool) : M (list AnalysisResult.t) :=
  let cutoff := 1000%Q in
  let oversample := 0%Z in
  noise <- lift (generate_white_noise repr_float randn sample_rate 5 (-18) 42) ;;
  ' (noise, noise_path) <- save_test_signal noise inputs_dir ;;
  ' (input_freqs, input_psd) <- lift (compute_psd (TestSignal.samples noise) sample_rate) ;;
  for_each [0; 0.9]%Q
    (fun resonance results =>
       when verbose
         (print ("  Noise shaping test: resonance=" ++ repr_float resonance)) ;;;
       let test_dir := (wav_dir // "noise" // ("r" ++ Str.fixed 2 resonance))%path in
       output_files <-
         discover_outputs skip_existing test_dir
           (run_filters runfilters_path noise_path cutoff resonance
              oversample test_dir verbose) ;;
       analyze_outputs filters output_files
         (analyze_noise cutoff resonance oversample input_psd)
         results)
    [].

(** ** Main execution *)

(** One [if "<test>" in tests:] block of [run_test_suite]: run the category,
    extend [all_results], save the category's JSON document. *)
Definition category_block (tests : list string) (verbose : bool) (metrics_dir : Path)
    (test_name banner json_name : string)
    (run : M (list AnalysisResult.t))
    (all_results : list AnalysisResult.t) : M (list AnalysisResult.t) :=
  if Str.mem test_name tests then
    when verbose (print banner) ;;;
    results <- run ;;
    let all_results := (all_results ++ results)%list in
    json_dump (metrics_dir // json_name)%path (JsonResults (map asdict results)) ;;;
    ret all_results
  else ret all_results.

Definition run_test_suite (runfilters_path output_dir : Path) (sample_rate : Z)
    (tests filters : list string) (cutoffs resonances : list Q)
    (oversamples : list Z) (skip_existing no_plots verbose : bool)
    : M MetricsSummary.t :=
  now <- datetime_now ;;
  let run_id := strftime now in
  let run_dir := (output_dir // run_id)%path in
  let inputs_dir := (run_dir // "inputs")%path in
  let wav_dir := (run_dir // "wav")%path in
  let plots_dir := (run_dir // "plots")%path in
  let metrics_dir := (run_dir // "metrics")%path in
  for_each [inputs_dir; wav_dir; plots_dir; metrics_dir]
    (fun d _ => mkdir d) tt ;;;
  let all_results := [] in
  all_results <-
    category_block tests verbose metrics_dir
      "linear" "Running linear response tests..." "linear_response.json"
      (run_linear_response_test runfilters_path inputs_dir wav_dir plots_dir
         sample_rate cutoffs filters oversamples skip_existing no_plots verbose)
      all_results ;;
  all_results <-
    category_block tests verbose metrics_dir
      "resonance" "Running resonance tests..." "resonance.json"
      (run_resonance_test runfilters_path inputs_dir wav_dir plots_dir
         sample_rate cutoffs filters skip_existing no_plots verbose)
      all_results ;;
  all_results <-
    category_block tests verbose metrics_dir
      "selfoscillation" "Running self-oscillation tests..." "selfoscillation.json"
      (run_selfoscillation_test runfilters_path inputs_dir wav_dir plots_dir
         sample_rate cutoffs filters skip_existing no_plots verbose)
      all_results ;;
  all_results <-
    category_block tests verbose metrics_dir
      "thd" "Running THD tests..." "thd.json"
      (run_thd_test runfilters_path inputs_dir wav_dir plots_dir
         sample_rate filters skip_existing no_plots verbose)
      all_results ;;
  all_results <-
    category_block tests verbose metrics_dir
      "imd" "Running IMD tests..." "imd.json"
      (run_imd_test runfilters_path inputs_dir wav_dir plots_dir
         sample_rate filters skip_existing no_plots verbose)
      all_results ;;
  all_results <-
    category_block tests verbose metrics_dir
      "aliasing" "Running aliasing tests..." "aliasing.json"
      (run_aliasing_test runfilters_path inputs_dir wav_dir plots_dir
         sample_rate filters oversamples skip_existing no_plots verbose)
      all_results ;;
  all_results <-
    category_block tests verbose metrics_dir
      "step" "Running step response tests..." "step.json"
      (run_step_test runfilters_path inputs_dir wav_dir plots_dir
         sample_rate filters skip_existing no_plots verbose)
      all_results ;;
  all_results <-
    category_block tests verbose metrics_dir
      "noise" "Running noise shaping tests..." "noise.json"
      (run_noise_test runfilters_path inputs_dir wav_dir plots_dir
         sample_rate filters skip_existing no_plots verbose)
      all_results ;;
  (if negb no_plots && Str.mem "linear" tests then
     when verbose (print "Generating comparison plots...") ;;;
     _ <- generate_comparison_plots wav_dir plots_dir sample_rate filters verbose ;;
     ret tt
   else ret tt) ;;;
  now <- datetime_now ;;
  let summary :=
    {| MetricsSummary.run_id := run_id;
       MetricsSummary.timestamp := isoformat now;
       MetricsSummary.sample_rate := sample_rate;
       MetricsSummary.filters_tested := filters;
       MetricsSummary.tests_run := tests;
       MetricsSummary.total_test_cases := Py.len all_results;
       MetricsSummary.results := map asdict all_results |} in
  json_dump (metrics_dir // "summary.json")%path (JsonSummary summary) ;;;
  ret summary.

End Orchestration.

(** * Specification-side definitions *)




(** The steady-state mean [compute_step_metrics] measures: the mean of the
    last 10% of the buffer ([None] on an empty buffer). *)
Definition steady_state (samples : list R) : option R :=
  Np.mean (Py.slice samples
             (Py.int_of_Q (inject_Z (Py.len samples) * (9 # 10)))
             (Py.len samples)).


(** The RMS level of a non-empty buffer in dBFS. *)
Definition rms_level_dbfs (samples : list R) : R :=
  linear_to_dbfs
    (sqrt (Np.sum (map (fun x => x ^ 2)%R samples) / INR (List.length samples))).




(** The bin nearest a frequency: [round(freq * n_fft / sample_rate)]. *)
Definition bin_index (freq : Q) (n_fft sample_rate : Z) : Z :=
  Py.round (freq * inject_Z n_fft / inject_Z sample_rate).

(** The spectrum bins within two bins of bin [b]. *)
Definition window (spectrum : list R) (b : Z) : list R :=
  map snd
    (filter (fun p => (Z.abs (Z.of_nat (fst p) - b) <=? 2)%Z)
            (combine (seq 0 (List.length spectrum)) spectrum)).

(** The peak power around bin [b]: the largest squared magnitude within two
    bins of [b] (zero when no bin of the spectrum is that close). *)
Definition peak_power (spectrum : list R) (b : Z) : R :=
  fold_right Rmax 0%R (map (fun x => x ^ 2)%R (window spectrum b)).

(** The spectrum [compute_thd] and [compute_imd] analyse. *)
Definition analysis_n_fft (samples : list R) : Z := next_power_of_2 (Py.len samples).

Definition analysis_spectrum (samples : list R) : list R :=
  windowed_spectrum samples (analysis_n_fft samples).

(** The bins of a list up to, and without, the first one beyond the
    spectrum. *)
Fixpoint bins_in_range (len : Z) (bins : list Z) : list Z :=
  match bins with
  | [] => []
  | b :: rest => if (b >=? len)%Z then [] else b :: bins_in_range len rest
  end.

(** The bins of harmonics [2 .. num_harmonics], stopping at the first
    harmonic whose nearest bin lies beyond the last (Nyquist) bin. *)
Definition harmonic_bins (samples : list R) (sample_rate : Z) (fundamental_freq : Q)
    (num_harmonics : Z) : list Z :=
  bins_in_range (Py.len (analysis_spectrum samples))
    (map (fun k => bin_index (fundamental_freq * inject_Z k)
                     (analysis_n_fft samples) sample_rate)
         (Py.range 2 (num_harmonics + 1))).

Definition fundamental_power (samples : list R) (sample_rate : Z)
    (fundamental_freq : Q) : R :=
  peak_power (analysis_spectrum samples)
    (bin_index fundamental_freq (analysis_n_fft samples) sample_rate).

Definition harmonic_power_sum (samples : list R) (sample_rate : Z)
    (fundamental_freq : Q) (num_harmonics : Z) : R :=
  Np.sum (map (peak_power (analysis_spectrum samples))
              (harmonic_bins samples sample_rate fundamental_freq num_harmonics)).

Definition harmonic_levels_db (samples : list R) (sample_rate : Z)
    (fundamental_freq : Q) (num_harmonics : Z) : list R :=
  map (fun b => linear_to_dbfs (sqrt (peak_power (analysis_spectrum samples) b)))
      (harmonic_bins samples sample_rate fundamental_freq num_harmonics).

(** THD as the claim words it: [100 * sqrt(harmonic_power_sum /
    fundamental_power)] when the fundamental power is positive, else [0]. *)
Definition thd_percent_spec (samples : list R) (sample_rate : Z)
    (fundamental_freq : Q) (num_harmonics : Z) : R :=
  if Rlt_dec 0 (fundamental_power samples sample_rate fundamental_freq)
  then (100 * sqrt (harmonic_power_sum samples sample_rate fundamental_freq num_harmonics
                    / fundamental_power samples sample_rate fundamental_freq))%R
  else 0%R.

(** The power [compute_imd] measures at a frequency: the peak power around
    its nearest bin, and zero when that bin lies beyond the spectrum. *)
Definition imd_peak_power (samples : list R) (sample_rate : Z) (freq : Q) : R :=
  let b := bin_index freq (analysis_n_fft samples) sample_rate in
  if (b >=? Py.len (analysis_spectrum samples))%Z then 0%R
  else peak_power (analysis_spectrum samples) b.

(** The combined fundamental power [p1 + p2]. *)
Definition imd_fundamental_power (samples : list R) (sample_rate : Z) (f1 f2 : Q) : R :=
  (imd_peak_power samples sample_rate f1 + imd_peak_power samples sample_rate f2)%R.

(** The 2nd/3rd-order products that lie below Nyquist. *)
Definition products_below_nyquist (sample_rate : Z) (f1 f2 : Q) : list (string * Q) :=
  filter (fun p => if Qlt_le_dec (snd p) (inject_Z sample_rate / 2) then true else false)
         (imd_products f1 f2).

(** The sum of the peak powers at those products. *)
Definition imd_product_power (samples : list R) (sample_rate : Z) (f1 f2 : Q) : R :=
  Np.sum (map (fun p => peak_power (analysis_spectrum samples)
                          (bin_index (snd p) (analysis_n_fft samples) sample_rate))
              (products_below_nyquist sample_rate f1 f2)).

Definition imd_sidebands (samples : list R) (sample_rate : Z) (f1 f2 : Q)
    : list (string * R) :=
  map (fun p =>
         (fst p,
          linear_to_dbfs
            (sqrt (peak_power (analysis_spectrum samples)
                     (bin_index (snd p) (analysis_n_fft samples) sample_rate)))))
      (products_below_nyquist sample_rate f1 f2).

(** IMD in dB as the code computes it: the dBFS conversion, with its
    [1e-12] offset, of [sqrt(product_power / fundamental_power)], and the
    floor [-120] when the fundamental power is zero. *)
Definition imd_db_spec (samples : list R) (sample_rate : Z) (f1 f2 : Q) : R :=
  if Rlt_dec 0 (imd_fundamental_power samples sample_rate f1 f2)
  then (20 * log10 (sqrt (imd_product_power samples sample_rate f1 f2
                          / imd_fundamental_power samples sample_rate f1 f2)
                    + 1e-12))%R
  else (-120)%R.

(** A sample is within the 2% tolerance band of the DC gain [dc]. *)
Definition within_2_percent (dc x : R) : Prop :=
  (Rabs (x - dc) < Rabs dc * 0.02)%R.

(** The configuration a result was measured at. *)
Definition measured_at (test_case : string) (cutoff resonance : Q) (oversample : Z)
    (r : AnalysisResult.t) : Prop :=
  AnalysisResult.test_case r = test_case
  /\ AnalysisResult.cutoff_hz r = cutoff
  /\ AnalysisResult.resonance r = resonance
  /\ AnalysisResult.oversample r = oversample.

(** ** Group delay *)

(** [np.gradient(a)] of a one-dimensional array with unit spacing: central
    differences inside, one-sided differences at both ends; fewer than two
    points raise [ValueError]. *)
Definition np_gradient (a : list R) : result (list R) :=
  let n := List.length a in
  if (n <? 2)%nat then Raise ValueError
  else
    Ok (map (fun i =>
               if (i =? 0)%nat then (nth 1 a 0 - nth 0 a 0)%R
               else if (i =? n - 1)%nat then (nth (n - 1) a 0 - nth (n - 2) a 0)%R
               else ((nth (i + 1) a 0 - nth (i - 1) a 0) / 2)%R)
            (seq 0 n)).

(** [compute_group_delay]: [-d_phase / d_omega], the two gradients taken per
    bin; arrays of different lengths do not broadcast. *)
Definition compute_group_delay (phase_rad freqs : list R) : result (list R) :=
  let omega := map (fun f => 2 * PI * f)%R freqs in
  (d_phase <- np_gradient phase_rad ;;
   d_omega <- np_gradient omega ;;
   let d_omega :=
     map (fun d => if Rlt_dec (Rabs d) 1e-10 then 1e-10 else d)%R d_omega in
   if (List.length d_phase =? List.length d_omega)%nat
   then Ok (map (fun p => - fst p / snd p)%R (combine d_phase d_omega))
   else Raise ValueError)%result.

(** ** Frequency response *)

(** [np.blackman(M)]. *)
Definition np_blackman (M : nat) : list R :=
  match M with
  | O => []
  | S O => [1%R]
  | _ =>
      map (fun k =>
             let n := (1 - INR M + 2 * INR k)%R in
             (0.42 + 0.5 * cos (PI * n / INR (M - 1))
              + 0.08 * cos (2 * PI * n / INR (M - 1)))%R)
          (seq 0 M)
  end.

Section FrequencyResponse.

(** [np.unwrap(np.angle(spectrum))], from the real and the imaginary parts of
    the spectrum. *)
Variable unwrap_angle : list R -> list R -> list R.

(** [compute_frequency_response]: [(freqs, magnitude_db, phase_rad)]. *)
Definition compute_frequency_response (samples : list R) (sample_rate : Z)
    (window : string) : result (list R * list R * list R) :=
  let n_fft := next_power_of_2 (Py.len samples * 2) in
  let win :=
    if String.eqb window "hann" then Np.hanning (List.length samples)
    else if String.eqb window "blackman" then np_blackman (List.length samples)
    else repeat 1%R (List.length samples) in
  let windowed := Np.mul samples win in
  let n := Z.to_nat n_fft in
  let re := map (Np.dft_re windowed n) (seq 0 (n / 2 + 1)) in
  let im := map (Np.dft_im windowed n) (seq 0 (n / 2 + 1)) in
  (_ <- Py.truediv 1 (inject_Z sample_rate) ;;
   let freqs := Np.rfftfreq n sample_rate in
   let magnitude_db := map linear_to_dbfs (Np.rfft_abs windowed n) in
   let phase_rad := unwrap_angle re im in
   Ok (freqs, magnitude_db, phase_rad))%result.

End FrequencyResponse.

(** * Properties *)

(** ** Reasoning about [M] computations *)

(** [post c P]: whenever [c] returns, its value satisfies [P]. *)
Definition post {A : Type} (c : M A) (P : A -> Prop) : Prop :=
  forall w, match c w with Ok (a, _) => P a | Raise _ => True end.

Lemma post_ret {A : Type} (a : A) (P : A -> Prop) : P a -> post (ret a) P.
Proof. intros H w. exact H. Qed.

Lemma post_bind {A B : Type} (c : M A) (k : A -> M B) (Q : A -> Prop) (P : B -> Prop) :
  post c Q -> (forall a, Q a -> post (k a) P) -> post (bind c k) P.
Proof.
  intros Hc Hk w. unfold bind. specialize (Hc w).
  destruct (c w) as [[a w'] | e]; [ | exact I ].
  apply (Hk a Hc w').
Qed.

Lemma post_any {A : Type} (c : M A) : post c (fun _ => True).
Proof. intros w. destruct (c w) as [[a w'] | e]; exact I. Qed.

Lemma post_bind_any {A B : Type} (c : M A) (k : A -> M B) (P : B -> Prop) :
  (forall a, post (k a) P) -> post (bind c k) P.
Proof.
  intros Hk. apply post_bind with (Q := fun _ => True); [ apply post_any | auto ].
Qed.

Lemma post_for_each {A S : Type} (l : list A) (body : A -> S -> M S) (I : S -> Prop) :
  (forall x s, I s -> post (body x s) I) ->
  forall s, I s -> post (for_each l body s) I.
Proof.
  intros Hbody. induction l as [ | x rest IH ]; intros s Hs; simpl.
  - apply post_ret. exact Hs.
  - apply post_bind with (Q := I); [ apply Hbody; exact Hs | exact IH ].
Qed.

Lemma post_if {A : Type} (b : bool) (c1 c2 : M A) (P : A -> Prop) :
  post c1 P -> post c2 P -> post (if b then c1 else c2) P.
Proof. destruct b; auto. Qed.

(** ** The file system *)

Lemma PathOps_eqb_refl (p : Path) : PathOps.eqb p p = true.
Proof. unfold PathOps.eqb. destruct (list_eq_dec string_dec p p); congruence. Qed.

Lemma PathOps_eqb_eq (p q : Path) : PathOps.eqb p q = true <-> p = q.
Proof.
  unfold PathOps.eqb. destruct (list_eq_dec string_dec p q); split; congruence.
Qed.

Lemma parent_div (p : Path) (n : string) : PathOps.parent (PathOps.div p n) = p.
Proof. unfold PathOps.parent, PathOps.div. apply removelast_last. Qed.

Lemma exists_app_l (f g : FS) (p : Path) :
  Fs.exists_ f p = true -> Fs.exists_ (f ++ g) p = true.
Proof.
  unfold Fs.exists_. induction f as [ | [q n] rest IH ]; simpl; [ discriminate | ].
  destruct (PathOps.eqb q p); auto.
Qed.

Lemma exists_snoc (f : FS) (p : Path) (n : Node) :
  Fs.exists_ (f ++ [(p, n)]) p = true.
Proof.
  unfold Fs.exists_. induction f as [ | [q m] rest IH ]; simpl.
  - rewrite PathOps_eqb_refl. reflexivity.
  - destruct (PathOps.eqb q p); auto.
Qed.

Lemma prefixes_last (p : Path) : exists l, PathOps.prefixes p = (l ++ [p])%list.
Proof.
  induction p as [ | c rest [l Hl] ]; simpl.
  - exists []. reflexivity.
  - rewrite Hl. exists ([] :: map (cons c) l). simpl. rewrite map_app. reflexivity.
Qed.

Lemma exists_mkdir (f : FS) (p : Path) : Fs.exists_ (Fs.mkdir f p) p = true.
Proof.
  unfold Fs.mkdir. destruct (prefixes_last p) as [l ->].
  rewrite fold_left_app. simpl.
  destruct (Fs.exists_ (fold_left _ l f) p) eqn:E; [ exact E | apply exists_snoc ].
Qed.

(** ** The run summary *)

Section Suite.

Variable repr_float : Q -> string.
Variable randn : Z -> nat -> list R.
Variable scipy_chirp : list R -> Q -> Q -> Q -> result (list R).
Variable subprocess_run : list string -> FS -> result (CompletedProcess * FS).
Variable plot : string -> Path -> M Path.
Variable compute_frequency_response : list R -> Z -> result (list R * list R * list R).
Variable compute_group_delay : list R -> list R -> result (list R).
Variable compute_spectrogram : list R -> Z -> result (list R * list R * list (list R)).
Variable compute_psd : list R -> Z -> result (list R * list R).
Variable generate_comparison_plots :
  Path -> Path -> Z -> list string -> bool -> M (list string).
Variable strftime : nat -> string.
Variable isoformat : nat -> string.



End Suite.

(** ** The external filter runner *)

Section Runner.

Variable subprocess_run : list string -> FS -> result (CompletedProcess * FS).

Lemma for_each_step {A S : Type} (x : A) (rest : list A) (body : A -> S -> M S)
    (s s' : S) (w w' : World) :
  body x s w = Ok (s', w') ->
  for_each (x :: rest) body s w = for_each rest body s' w'.
Proof. intros H. simpl. unfold bind. rewrite H. reflexivity. Qed.

(** C8.  When the child process of an invocation exits with a non-zero status,
    [run_filters] prints the warning and returns the empty list; when it exits
    with status zero and no file matches the pattern, [run_filters] returns the
    empty list too.  In both cases the parameter tuple (the discovery block
    followed by the loop over the output files) returns normally with the
    result list unchanged, so a category loop goes on to its remaining tuples. *)
Theorem C8_failed_invocation_contributes_nothing
    (runfilters_path input_wav : Path) (cutoff resonance : Q) (oversample : Z)
    (output_dir : Path) (verbose : bool) (w : World)
    (cp : CompletedProcess) (f' : FS) :
  subprocess_run
    (run_filters_cmd runfilters_path input_wav cutoff resonance oversample output_dir)
    (Fs.mkdir (fs w) output_dir) = Ok (cp, f') ->
  returncode cp <> 0%Z
  \/ Fs.glob f' output_dir (output_pattern cutoff resonance oversample) = [] ->
  exists w',
    run_filters subprocess_run runfilters_path input_wav cutoff resonance
      oversample output_dir verbose w = Ok ([], w')
    /\ fs w' = f'
    /\ (returncode cp <> 0%Z ->
        exists printed,
          stdout w' = (printed ++ [("RunFilters error: " ++ proc_stderr cp)%string])%list)
    /\ (forall skip_existing test_dir filters analyze results,
          skip_existing && Fs.exists_ (fs w) test_dir
            && negb (Nat.eqb (List.length (Fs.glob (fs w) test_dir ".wav")) 0) = false ->
          bind (discover_outputs skip_existing test_dir
                  (run_filters subprocess_run runfilters_path input_wav cutoff
                     resonance oversample output_dir verbose))
               (fun output_files =>
                  analyze_outputs filters output_files analyze results) w
          = Ok (results, w'))
    /\ (forall (T : Type) (tuple : T) (rest : list T)
               (block : T -> list AnalysisResult.t -> M (list AnalysisResult.t))
               (results : list AnalysisResult.t),
          block tuple results w = Ok (results, w') ->
          for_each (tuple :: rest) block results w = for_each rest block results w').
Proof.
  intros Hrun Hfail.
  assert (Hret : exists w',
    run_filters subprocess_run runfilters_path input_wav cutoff resonance
      oversample output_dir verbose w = Ok ([], w')
    /\ fs w' = f'
    /\ (returncode cp <> 0%Z ->
        exists printed,
          stdout w' = (printed ++ [("RunFilters error: " ++ proc_stderr cp)%string])%list)).
  { unfold run_filters, bind, get_fs, put_fs, when, print, subprocess, ret.
    destruct (Z.eqb_spec (returncode cp) 0) as [Hz | Hnz].
    - destruct Hfail as [Hne | Hglob]; [ contradiction | ].
      destruct verbose; simpl; rewrite Hrun; simpl;
        apply Z.eqb_eq in Hz; rewrite Hz; simpl.
      + destruct (negb (proc_stdout cp =? EmptyString)%string); simpl;
          rewrite Hglob; eexists; (split; [ reflexivity | split; [ reflexivity | ] ]);
          intros Hc; apply Z.eqb_eq in Hz; contradiction.
      + rewrite Hglob. eexists.
        split; [ reflexivity | split; [ reflexivity | ] ].
        intros Hc. apply Z.eqb_eq in Hz. contradiction.
    - destruct verbose; simpl; rewrite Hrun; simpl;
        apply Z.eqb_neq in Hnz; rewrite Hnz; simpl;
        eexists; (split; [ reflexivity | split; [ reflexivity | ] ]);
        intros _; eexists; reflexivity. }
  destruct Hret as [w' [Hrf [Hfs Hout]]].
  exists w'. repeat split; try assumption.
  - intros skip_existing test_dir filters analyze results Hskip.
    unfold bind at 1. unfold discover_outputs, bind, get_fs.
    rewrite Hskip, Hrf. reflexivity.
  - intros T tuple rest block results Hb. apply for_each_step. exact Hb.
Qed.

End Runner.

(** ** The allow-list *)




Section Categories.

Variable repr_float : Q -> string.
Variable randn : Z -> nat -> list R.
Variable scipy_chirp : list R -> Q -> Q -> Q -> result (list R).
Variable subprocess_run : list string -> FS -> result (CompletedProcess * FS).
Variable plot : string -> Path -> M Path.
Variable compute_frequency_response : list R -> Z -> result (list R * list R * list R).
Variable compute_group_delay : list R -> list R -> result (list R).
Variable compute_spectrogram : list R -> Z -> result (list R * list R * list (list R)).
Variable compute_psd : list R -> Z -> result (list R * list R).























End Categories.

(** The file loop of the aliasing test over two discovered outputs, one of a
    filter outside the allow-list: one result, for the allowed filter. *)
Example aliasing_file_loop_run :
  exists r w',
    analyze_outputs ["Stilson"%string]
      [ ["wav"; "Stilson_c15000_r0.90.wav"]%string;
        ["wav"; "Moog_c15000_r0.90.wav"]%string ]
      (analyze_aliasing 15000 0.9 0 10000) []
      {| fs := [ (["wav"; "Stilson_c15000_r0.90.wav"]%string,
                  WavFile 44100 (Int16 [0; 0]%Z));
                 (["wav"; "Moog_c15000_r0.90.wav"]%string,
                  WavFile 44100 (Int16 [0; 0]%Z)) ];
         stdout := []; clock := 0 |}
    = Ok ([r], w')
    /\ AnalysisResult.filter_name r = "Stilson"%string.
Proof.
  eexists. eexists. split; reflexivity.
Qed.

(** ** WAV round trip *)

Section WavRoundTrip.

Local Open Scope R_scope.

Lemma lookup_write (f : FS) (p : Path) (n : Node) :
  Fs.lookup (Fs.write f p n) p = Some n.
Proof.
  induction f as [ | [q m] rest IH ]; simpl.
  - rewrite PathOps_eqb_refl. reflexivity.
  - destruct (PathOps.eqb q p) eqn:E; simpl; rewrite E; [ reflexivity | exact IH ].
Qed.





End WavRoundTrip.

(** ** Step-response metrics *)

Section StepMetricsScaling.

Local Open Scope R_scope.

Lemma len_map {A B : Type} (f : A -> B) (l : list A) : Py.len (map f l) = Py.len l.
Proof. unfold Py.len. rewrite length_map. reflexivity. Qed.









End StepMetricsScaling.

(** ** Self-oscillation detection *)

Section SelfOscillation.

Local Open Scope R_scope.

Lemma ln_10_pos : 0 < ln 10.
Proof. rewrite <- ln_1. apply ln_increasing; lra. Qed.

Lemma log10_silence_floor : log10 1e-12 = -12.
Proof.
  unfold log10. replace 1e-12 with (/ 10 ^ 12) by lra.
  rewrite ln_Rinv by (apply pow_lt; lra).
  rewrite ln_pow by lra. simpl INR.
  pose proof ln_10_pos. field. lra.
Qed.

Lemma linear_to_dbfs_0 : linear_to_dbfs 0 = -240.
Proof.
  unfold linear_to_dbfs. rewrite Rabs_R0, Rplus_0_l, log10_silence_floor. lra.
Qed.

Lemma Q2R_default_threshold : Q2R default_threshold_dbfs = -60.
Proof. unfold default_threshold_dbfs, Q2R. simpl. lra. Qed.

Lemma sum_squares_zero (samples : list R) :
  Forall (fun x => x = 0) samples -> Np.sum (map (fun x => x ^ 2) samples) = 0.
Proof.
  induction 1 as [ | x rest Hx _ IH ]; [ reflexivity | ].
  change (Np.sum (map (fun x => x ^ 2) (x :: rest)))
    with (x ^ 2 + Np.sum (map (fun x => x ^ 2) rest)).
  rewrite IH. subst x. ring.
Qed.

Lemma compute_rms_nonempty (samples : list R) :
  samples <> [] ->
  compute_rms samples
  = Some (sqrt (Np.sum (map (fun x => x ^ 2) samples) / INR (List.length samples)),
          linear_to_dbfs
            (sqrt (Np.sum (map (fun x => x ^ 2) samples) / INR (List.length samples)))).
Proof.
  intros Hne. destruct samples as [ | x rest ]; [ congruence | ].
  unfold compute_rms.
  change (Np.mean (map (fun x => x ^ 2) (x :: rest)))
    with (Some (Np.sum (map (fun x => x ^ 2) (x :: rest))
                / INR (List.length (map (fun x => x ^ 2) (x :: rest))))).
  rewrite length_map. reflexivity.
Qed.

Lemma argmax_from_spec (l : list R) :
  forall best besti i,
  exists v,
    ((Np.argmax_from best besti i l = besti /\ v = best)
     \/ exists j, (j < List.length l)%nat
                  /\ Np.argmax_from best besti i l = (i + j)%nat
                  /\ nth j l 0 = v)
    /\ best <= v
    /\ Forall (fun x => x <= v) l.
Proof.
  induction l as [ | x xs IH ]; intros best besti i; simpl.
  - exists best. split; [ left; split; reflexivity | split; [ lra | constructor ] ].
  - destruct (Rlt_dec best x) as [Hlt | Hge].
    + destruct (IH x i (S i)) as [v [Hwhere [Hxv Hall]]].
      exists v. split; [ right | split; [ lra | constructor; assumption ] ].
      destruct Hwhere as [[Hi Hv] | [j [Hj [Hi Hv]]]].
      * exists 0%nat. split; [ lia | ]. rewrite Hi, Nat.add_0_r.
        split; [ reflexivity | symmetry; exact Hv ].
      * exists (S j). split; [ lia | ]. rewrite Hi.
        split; [ lia | exact Hv ].
    + destruct (IH best besti (S i)) as [v [Hwhere [Hbv Hall]]].
      exists v. split; [ | split; [ exact Hbv | constructor; [ lra | exact Hall ] ] ].
      destruct Hwhere as [[Hi Hv] | [j [Hj [Hi Hv]]]].
      * left. split; assumption.
      * right. exists (S j). split; [ lia | ]. rewrite Hi.
        split; [ lia | exact Hv ].
Qed.

(** [np.argmax] returns the index of a maximal element. *)
Lemma argmax_spec (l : list R) :
  l <> [] ->
  exists k, Np.argmax l = Ok k
            /\ (k < List.length l)%nat
            /\ forall j, (j < List.length l)%nat -> nth j l 0 <= nth k l 0.
Proof.
  intros Hne. destruct l as [ | x xs ]; [ congruence | ].
  unfold Np.argmax.
  destruct (argmax_from_spec xs x 0%nat 1%nat) as [v [Hwhere [Hxv Hall]]].
  exists (Np.argmax_from x 0%nat 1%nat xs). split; [ reflexivity | ].
  assert (Hk : (Np.argmax_from x 0%nat 1%nat xs < List.length (x :: xs))%nat
               /\ nth (Np.argmax_from x 0%nat 1%nat xs) (x :: xs) 0 = v).
  { destruct Hwhere as [[Hi Hv] | [j [Hj [Hi Hv]]]]; rewrite Hi; simpl.
    - split; [ lia | symmetry; exact Hv ].
    - split; [ lia | exact Hv ]. }
  destruct Hk as [Hlt Hval]. split; [ exact Hlt | ].
  intros j Hj. rewrite Hval. destruct j as [ | j ]; simpl; [ exact Hxv | ].
  rewrite Forall_forall in Hall. apply Hall. apply nth_In. simpl in Hj. lia.
Qed.

Lemma nth_map_seq (f : nat -> R) (m k : nat) :
  (k < m)%nat -> nth k (map f (seq 0 m)) 0 = f k.
Proof.
  intros Hk. rewrite (nth_indep _ 0 (f 0%nat)) by (rewrite length_map, length_seq; exact Hk).
  rewrite map_nth, seq_nth by exact Hk. reflexivity.
Qed.

Lemma truediv_inject_nonzero (x : Q) (z : Z) :
  z <> 0%Z -> Py.truediv x (inject_Z z) = Ok (x / inject_Z z)%Q.
Proof.
  intros Hz. unfold Py.truediv.
  destruct (Qeq_bool (inject_Z z) 0) eqn:E; [ | reflexivity ].
  apply Qeq_bool_eq in E. unfold Qeq, inject_Z in E. simpl in E. lia.
Qed.

Lemma rfft_abs_length (x : list R) (n : nat) :
  List.length (Np.rfft_abs x n) = (n / 2 + 1)%nat.
Proof. unfold Np.rfft_abs. rewrite length_map, length_seq. reflexivity. Qed.

(** C4.  On a non-empty buffer [detect_self_oscillation] reports the RMS level
    in dBFS; it reports [oscillating = False] with dominant frequency [0.0]
    when that level is at most the default threshold of -60 dBFS, and
    [oscillating = True] with the frequency of a maximal bin of the magnitude
    spectrum when the level exceeds it.  On digital silence the level is
    -240 dBFS, which is below -120 dBFS, and the buffer is not oscillating. *)
Theorem C4_self_oscillation (samples : list R) (sample_rate : Z) :
  samples <> [] ->
  let db := rms_level_dbfs samples in
  let n_fft := Z.to_nat (next_power_of_2 (Py.len samples)) in
  let spectrum := Np.rfft_abs samples n_fft in
  (Forall (fun x => x = 0) samples ->
   db = -240 /\ db <= -120
   /\ detect_self_oscillation samples sample_rate default_threshold_dbfs
      = Ok {| oscillating := false; dominant_freq_hz := 0; rms_dbfs := Some db |})
  /\ (db <= -60 ->
      detect_self_oscillation samples sample_rate default_threshold_dbfs
      = Ok {| oscillating := false; dominant_freq_hz := 0; rms_dbfs := Some db |})
  /\ (-60 < db -> sample_rate <> 0%Z ->
      exists k,
        detect_self_oscillation samples sample_rate default_threshold_dbfs
        = Ok {| oscillating := true;
                dominant_freq_hz := INR k * IZR sample_rate / INR n_fft;
                rms_dbfs := Some db |}
        /\ (k < List.length spectrum)%nat
        /\ forall j, (j < List.length spectrum)%nat ->
                     nth j spectrum 0 <= nth k spectrum 0).
Proof.
  intros Hne db n_fft spectrum.
  assert (Hquiet : db <= -60 ->
    detect_self_oscillation samples sample_rate default_threshold_dbfs
    = Ok {| oscillating := false; dominant_freq_hz := 0; rms_dbfs := Some db |}).
  { intros Hdb. unfold detect_self_oscillation.
    rewrite compute_rms_nonempty by exact Hne. fold (rms_level_dbfs samples). fold db.
    rewrite Q2R_default_threshold.
    destruct (Rlt_dec (-60) db) as [H | H]; [ lra | reflexivity ]. }
  split; [ | split; [ exact Hquiet | ] ].
  - intros Hzero.
    assert (Hdb : db = -240).
    { unfold db, rms_level_dbfs. rewrite sum_squares_zero by exact Hzero.
      unfold Rdiv. rewrite Rmult_0_l, sqrt_0. apply linear_to_dbfs_0. }
    split; [ exact Hdb | split; [ lra | apply Hquiet; lra ] ].
  - intros Hdb Hsr. unfold detect_self_oscillation.
    rewrite compute_rms_nonempty by exact Hne. fold (rms_level_dbfs samples). fold db.
    rewrite Q2R_default_threshold.
    destruct (Rlt_dec (-60) db) as [H | H]; [ | lra ].
    rewrite truediv_inject_nonzero by exact Hsr. cbv [rbind].
    fold n_fft. fold spectrum.
    assert (Hspec : spectrum <> []).
    { intros E. pose proof (rfft_abs_length samples n_fft) as Hl.
      fold spectrum in Hl. rewrite E in Hl. simpl in Hl. lia. }
    destruct (argmax_spec Hspec) as [k [Hk [Hlt Hmax]]].
    rewrite Hk. exists k. split; [ | split; assumption ].
    f_equal. f_equal. unfold Np.rfftfreq. apply nth_map_seq.
    unfold spectrum in Hlt. rewrite rfft_abs_length in Hlt. exact Hlt.
Qed.

End SelfOscillation.

(** ** Signal generators *)

Section GeneratedSignals.

Local Open Scope R_scope.

Variable repr_float : Q -> string.
Variable randn : Z -> nat -> list R.
Variable scipy_chirp : list R -> Q -> Q -> Q -> result (list R).

Hypothesis randn_length : forall seed n, List.length (randn seed n) = n.
Hypothesis chirp_length :
  forall t f0 t1 f1 c, scipy_chirp t f0 t1 f1 = Ok c -> List.length c = List.length t.










End GeneratedSignals.


(** ** Bins and search windows *)

Section Bins.

Lemma bit_length_nonneg (z : Z) : (0 <= Py.bit_length z)%Z.
Proof.
  unfold Py.bit_length. destruct (z =? 0)%Z; [ lia | ].
  pose proof (Z.log2_nonneg (Z.abs z)). lia.
Qed.

Lemma next_power_of_2_pos (n : Z) : (0 < next_power_of_2 n)%Z.
Proof.
  unfold next_power_of_2. rewrite Z.shiftl_1_l.
  apply Z.pow_pos_nonneg; [ lia | apply bit_length_nonneg ].
Qed.

Lemma round_cases (q : Q) :
  (2 * Py.round q * Zpos (Qden q) <= 2 * Qnum q + Zpos (Qden q)
   /\ 2 * Qnum q - Zpos (Qden q) <= 2 * Py.round q * Zpos (Qden q))%Z.
Proof.
  unfold Py.round.
  pose proof (Z.div_mod (Qnum q) (Zpos (Qden q)) ltac:(lia)) as Hdm.
  pose proof (Z.mod_pos_bound (Qnum q) (Zpos (Qden q)) ltac:(lia)) as Hmod.
  set (d := Zpos (Qden q)) in *. set (fl := (Qnum q / d)%Z) in *.
  set (r := (Qnum q mod d)%Z) in *.
  destruct (Z.compare_spec (2 * r) d) as [He | Hl | Hg].
  - destruct (Z.even fl); nia.
  - nia.
  - nia.
Qed.

Lemma round_nonneg (q : Q) : (0 <= q)%Q -> (0 <= Py.round q)%Z.
Proof.
  intros Hq. assert (Hn : (0 <= Qnum q)%Z).
  { unfold Qle in Hq. simpl in Hq. lia. }
  unfold Py.round.
  pose proof (Z.div_pos (Qnum q) (Zpos (Qden q)) Hn ltac:(lia)) as Hfl.
  destruct (2 * (Qnum q mod Zpos (Qden q)) ?= Zpos (Qden q))%Z;
    [ destruct (Z.even _) | | ]; lia.
Qed.

Lemma bin_of_spec (freq : Q) (n_fft sample_rate : Z) :
  (0 < sample_rate)%Z ->
  bin_of freq n_fft sample_rate = Ok (bin_index freq n_fft sample_rate).
Proof.
  intros Hsr. unfold bin_of, bin_index.
  rewrite truediv_inject_nonzero by lia. reflexivity.
Qed.

Lemma bin_index_nonneg (freq : Q) (n_fft sample_rate : Z) :
  (0 <= freq)%Q -> (0 < n_fft)%Z -> (0 < sample_rate)%Z ->
  (0 <= bin_index freq n_fft sample_rate)%Z.
Proof.
  intros Hf Hn Hsr. unfold bin_index. apply round_nonneg.
  apply Qle_shift_div_l.
  - unfold Qlt, inject_Z. simpl. lia.
  - rewrite Qmult_0_l. apply Qmult_le_0_compat; [ exact Hf | ].
    unfold Qle, inject_Z. simpl. lia.
Qed.

Lemma select_interval (lo hi : nat) (l : list R) :
  forall s,
    map snd (filter (fun p => (lo <=? fst p)%nat && (fst p <? hi)%nat)
                    (combine (seq s (List.length l)) l))
    = firstn (hi - Nat.max lo s) (skipn (lo - s) l).
Proof.
  induction l as [ | x rest IH ]; intros s.
  - simpl. rewrite skipn_nil, firstn_nil. reflexivity.
  - simpl List.length. simpl seq. simpl combine. cbn [filter fst].
    destruct (Nat.leb_spec lo s) as [Hlo | Hlo];
      destruct (Nat.ltb_spec s hi) as [Hhi | Hhi]; cbn [andb map snd];
      rewrite (IH (S s)).
    + replace (lo - s)%nat with 0%nat by lia. simpl skipn.
      replace (hi - Nat.max lo s)%nat with (S (hi - Nat.max lo (S s)))%nat by lia.
      replace (lo - S s)%nat with 0%nat by lia. reflexivity.
    + replace (hi - Nat.max lo (S s))%nat with 0%nat by lia.
      replace (hi - Nat.max lo s)%nat with 0%nat by lia. reflexivity.
    + replace (lo - s)%nat with (S (lo - S s))%nat by lia. simpl skipn.
      replace (Nat.max lo (S s)) with (Nat.max lo s) by lia. reflexivity.
    + replace (lo - s)%nat with (S (lo - S s))%nat by lia. simpl skipn.
      replace (Nat.max lo (S s)) with (Nat.max lo s) by lia. reflexivity.
Qed.

(** The window is the stretch of the spectrum from bin [b - 2] (or bin 0) up
    to bin [b + 2]. *)
Lemma window_interval (l : list R) (b : Z) :
  window l b
  = firstn (Z.to_nat (b + 3) - Z.to_nat (Z.max 0 (b - 2)))
           (skipn (Z.to_nat (Z.max 0 (b - 2))) l).
Proof.
  unfold window.
  rewrite (filter_ext _
             (fun p => (Z.to_nat (Z.max 0 (b - 2)) <=? fst p)%nat
                       && (fst p <? Z.to_nat (b + 3))%nat)).
  - rewrite select_interval. rewrite Nat.sub_0_r, Nat.max_0_r. reflexivity.
  - intros [i x]. simpl.
    destruct (Z.leb_spec (Z.abs (Z.of_nat i - b)) 2);
      destruct (Nat.leb_spec (Z.to_nat (Z.max 0 (b - 2))) i);
      destruct (Nat.ltb_spec i (Z.to_nat (b + 3))); simpl; try reflexivity; lia.
Qed.

Lemma slice_nonneg {A : Type} (l : list A) (a c : Z) :
  (0 <= a)%Z -> (0 <= c)%Z ->
  Py.slice l a c = firstn (Z.to_nat c - Z.to_nat a) (skipn (Z.to_nat a) l).
Proof.
  intros Ha Hc. unfold Py.slice, Py.clamp_index.
  destruct (Z.ltb_spec a 0); [ lia | ]. destruct (Z.ltb_spec c 0); [ lia | ].
  unfold Py.len.
  destruct (Z.le_gt_cases (Z.of_nat (List.length l)) a) as [Hbig | Hsmall].
  - rewrite (Z.min_r a) by lia. rewrite Nat2Z.id.
    rewrite skipn_all. rewrite (skipn_all2 l) by lia.
    rewrite !firstn_nil. reflexivity.
  - rewrite (Z.min_l a) by lia.
    destruct (Z.le_gt_cases c (Z.of_nat (List.length l))) as [Hc1 | Hc2].
    + rewrite (Z.min_l c) by lia. f_equal. lia.
    + rewrite (Z.min_r c) by lia.
      rewrite !firstn_all2; [ reflexivity | | ]; rewrite length_skipn; lia.
Qed.

Lemma slice_min_stop {A : Type} (l : list A) (a c : Z) :
  (0 <= c)%Z -> Py.slice l a (Z.min (Py.len l) c) = Py.slice l a c.
Proof.
  intros Hc. unfold Py.slice, Py.clamp_index.
  assert (Hlen : (0 <= Py.len l)%Z) by (unfold Py.len; lia).
  destruct (Z.ltb_spec (Z.min (Py.len l) c) 0); [ lia | ].
  destruct (Z.ltb_spec c 0); [ lia | ].
  replace (Z.min (Z.min (Py.len l) c) (Py.len l)) with (Z.min c (Py.len l)) by lia.
  reflexivity.
Qed.

(** The slice [compute_thd] searches is the window around the bin. *)
Lemma thd_slice_window (l : list R) (b : Z) :
  (0 <= b)%Z -> Py.slice l (Z.max 0 (b - 2)) (b + 3) = window l b.
Proof.
  intros Hb. rewrite slice_nonneg by lia. symmetry. apply window_interval.
Qed.

(** So is the slice [get_peak_power] searches. *)
Lemma imd_slice_window (l : list R) (b : Z) :
  (0 <= b)%Z ->
  Py.slice l (Z.max 0 (b - 2)) (Z.min (Py.len l) (b + 3)) = window l b.
Proof.
  intros Hb. rewrite slice_min_stop by lia. apply thd_slice_window. exact Hb.
Qed.

Lemma window_nonempty (l : list R) (b : Z) :
  (0 <= b)%Z -> (b - 2 < Py.len l)%Z -> l <> [] -> window l b <> [].
Proof.
  intros Hb Hlt Hne Hw.
  assert (Hlen : List.length (window l b) = 0%nat) by (rewrite Hw; reflexivity).
  rewrite window_interval, length_firstn, length_skipn in Hlen.
  unfold Py.len in Hlt.
  assert (0 < List.length l)%nat by (destruct l; [ congruence | simpl; lia ]).
  lia.
Qed.

End Bins.

(** ** Total harmonic distortion *)

Section Thd.

Local Open Scope R_scope.

Lemma rfft_abs_nonneg (x : list R) (n : nat) :
  Forall (fun v => 0 <= v) (Np.rfft_abs x n).
Proof.
  unfold Np.rfft_abs. apply Forall_forall. intros v Hv.
  apply in_map_iff in Hv. destruct Hv as [k [<- _]]. apply sqrt_pos.
Qed.

Lemma rfft_abs_nonempty (x : list R) (n : nat) : Np.rfft_abs x n <> [].
Proof.
  intros E. pose proof (rfft_abs_length x n) as H. rewrite E in H. simpl in H. lia.
Qed.

Lemma window_incl (l : list R) (b : Z) (x : R) : In x (window l b) -> In x l.
Proof.
  unfold window. intros H. apply in_map_iff in H. destruct H as [[i y] [Hy Hin]].
  simpl in Hy. subst y. apply filter_In in Hin. destruct Hin as [Hin _].
  apply in_combine_r in Hin. exact Hin.
Qed.

Lemma fold_left_max_spec (xs : list R) :
  forall x,
    In (fold_left Rmax xs x) (x :: xs)
    /\ x <= fold_left Rmax xs x
    /\ Forall (fun y => y <= fold_left Rmax xs x) xs.
Proof.
  induction xs as [ | y ys IH ]; intros x; simpl.
  - split; [ left; reflexivity | split; [ lra | constructor ] ].
  - destruct (IH (Rmax x y)) as [Hin [Hle Hall]].
    pose proof (Rmax_l x y). pose proof (Rmax_r x y).
    split; [ | split; [ lra | constructor; [ lra | exact Hall ] ] ].
    destruct Hin as [Hm | Hin]; [ | right; right; exact Hin ].
    rewrite <- Hm. destruct (Rle_dec x y) as [Hxy | Hxy].
    + right. left. symmetry. apply Rmax_right. exact Hxy.
    + left. symmetry. apply Rmax_left. lra.
Qed.

Lemma fold_right_max_le (v : R) (l : list R) :
  0 <= v -> Forall (fun y => y <= v) l -> fold_right Rmax 0 l <= v.
Proof.
  intros Hv Hall. induction Hall as [ | y ys Hy _ IH ]; simpl.
  - exact Hv.
  - apply Rmax_lub; assumption.
Qed.

Lemma fold_right_max_char (v : R) (l : list R) :
  0 <= v -> In v l -> Forall (fun y => y <= v) l -> fold_right Rmax 0 l = v.
Proof.
  intros Hv Hin Hall. induction Hall as [ | y ys Hy Hys IH ]; simpl.
  - destruct Hin.
  - destruct Hin as [-> | Hin].
    + apply Rmax_left. apply fold_right_max_le; assumption.
    + rewrite IH by exact Hin. apply Rmax_right. exact Hy.
Qed.

(** On non-negative magnitudes, the square of the maximum is the maximum of
    the squares. *)
Lemma max_square (l : list R) :
  l <> [] -> Forall (fun v => 0 <= v) l ->
  exists m, Np.max l = Ok m
            /\ m ^ 2 = fold_right Rmax 0 (map (fun x => x ^ 2) l).
Proof.
  intros Hne Hpos. destruct l as [ | x xs ]; [ congruence | ].
  unfold Np.max. eexists. split; [ reflexivity | ].
  destruct (fold_left_max_spec xs x) as [Hin [Hle Hall]].
  set (m := fold_left Rmax xs x) in *.
  assert (Hall' : Forall (fun y => y <= m) (x :: xs)) by (constructor; assumption).
  assert (Hm : 0 <= m).
  { rewrite Forall_forall in Hpos. apply Hpos. exact Hin. }
  symmetry. apply fold_right_max_char.
  - nra.
  - apply (in_map (fun x => x ^ 2)) in Hin. exact Hin.
  - apply Forall_forall. intros y Hy. apply in_map_iff in Hy.
    destruct Hy as [z [<- Hz]].
    rewrite Forall_forall in Hpos, Hall'.
    specialize (Hpos z Hz). specialize (Hall' z Hz). nra.
Qed.

(** The peak search of [compute_thd] at an in-range bin returns the
    magnitude whose square is the peak power. *)
Lemma thd_peak_search (spectrum : list R) (b : Z) :
  spectrum <> [] -> Forall (fun v => 0 <= v) spectrum ->
  (0 <= b)%Z -> (b - 2 < Py.len spectrum)%Z ->
  exists m,
    Np.max (Py.slice spectrum (Z.max 0 (b - 2)) (b + 3)) = Ok m
    /\ m ^ 2 = peak_power spectrum b.
Proof.
  intros Hne Hpos Hb Hlt. rewrite thd_slice_window by exact Hb.
  unfold peak_power. apply max_square.
  - apply window_nonempty; assumption.
  - apply Forall_forall. intros x Hx. rewrite Forall_forall in Hpos.
    apply Hpos. apply (window_incl _ _ _ Hx).
Qed.

Lemma thd_harmonics_spec (spectrum : list R) (f : Q) (n_fft sample_rate : Z) :
  spectrum <> [] -> Forall (fun v => 0 <= v) spectrum ->
  (0 < sample_rate)%Z -> (0 < n_fft)%Z -> (0 <= f)%Q ->
  forall ks hp hdb,
    Forall (fun k => (0 <= k)%Z) ks ->
    let bins :=
      bins_in_range (Py.len spectrum)
        (map (fun k => bin_index (f * inject_Z k) n_fft sample_rate) ks) in
    thd_harmonics spectrum f n_fft sample_rate ks hp hdb
    = Ok (hp + Np.sum (map (peak_power spectrum) bins),
          (hdb ++ map (fun b => linear_to_dbfs (sqrt (peak_power spectrum b))) bins)%list).
Proof.
  intros Hne Hpos Hsr Hn Hf ks.
  induction ks as [ | k rest IH ]; intros hp hdb Hks; cbv zeta;
    cbn [thd_harmonics map bins_in_range].
  - cbn [map Np.sum fold_right]. rewrite app_nil_r. f_equal. f_equal. ring.
  - inversion Hks as [ | k' rest' Hk Hrest ]; subst.
    rewrite bin_of_spec by exact Hsr. cbv [rbind].
    set (b := bin_index (f * inject_Z k) n_fft sample_rate).
    destruct (Z.geb_spec b (Py.len spectrum)) as [Hout | Hin].
    + cbn [map Np.sum fold_right]. rewrite app_nil_r. f_equal. f_equal. ring.
    + assert (Hb : (0 <= b)%Z).
      { apply bin_index_nonneg; try assumption.
        apply Qmult_le_0_compat; [ exact Hf | ].
        unfold Qle, inject_Z. simpl. lia. }
      destruct (thd_peak_search Hne Hpos Hb ltac:(lia)) as [m [Hmax Hm]].
      rewrite Hmax. rewrite Hm. rewrite (IH _ _ Hrest).
      cbv zeta. cbn [map Np.sum fold_right].
      f_equal. f_equal.
      * unfold Np.sum. ring.
      * rewrite <- app_assoc. reflexivity.
Qed.

Lemma range_nonneg (a b : Z) : (0 <= a)%Z -> Forall (fun k => (0 <= k)%Z) (Py.range a b).
Proof.
  intros Ha. unfold Py.range. apply Forall_forall. intros k Hk.
  apply in_map_iff in Hk. destruct Hk as [i [<- _]]. lia.
Qed.

(** What [compute_thd] returns when the fundamental's search window meets the
    spectrum. *)
Lemma compute_thd_spec (samples : list R) (sample_rate : Z) (f : Q) (N : Z) :
  (0 < sample_rate)%Z -> (0 <= f)%Q ->
  (bin_index f (analysis_n_fft samples) sample_rate - 2
   < Py.len (analysis_spectrum samples))%Z ->
  compute_thd samples sample_rate f N
  = Ok (thd_percent_spec samples sample_rate f N,
        harmonic_levels_db samples sample_rate f N).
Proof.
  intros Hsr Hf Hwin. unfold compute_thd.
  fold (analysis_n_fft samples). fold (analysis_spectrum samples).
  assert (Hne : analysis_spectrum samples <> []) by apply rfft_abs_nonempty.
  assert (Hpos : Forall (fun v => 0 <= v) (analysis_spectrum samples))
    by apply rfft_abs_nonneg.
  assert (Hn : (0 < analysis_n_fft samples)%Z) by apply next_power_of_2_pos.
  rewrite truediv_inject_nonzero by lia. cbv [rbind].
  rewrite bin_of_spec by exact Hsr.
  assert (Hb : (0 <= bin_index f (analysis_n_fft samples) sample_rate)%Z)
    by (apply bin_index_nonneg; assumption).
  destruct (thd_peak_search Hne Hpos Hb Hwin) as [m [Hmax Hm]].
  rewrite Hmax, Hm.
  rewrite (thd_harmonics_spec Hne Hpos Hsr Hn Hf) by (apply range_nonneg; lia).
  unfold thd_percent_spec, harmonic_levels_db, harmonic_power_sum, fundamental_power,
    harmonic_bins.
  simpl app. f_equal. f_equal.
  destruct (Rlt_dec 0 _); [ | reflexivity ].
  rewrite Rplus_0_l. ring.
Qed.



Lemma sum_all_zero (l : list R) : Forall (fun x => x = 0) l -> Np.sum l = 0.
Proof.
  induction 1 as [ | x rest Hx _ IH ]; [ reflexivity | ].
  change (Np.sum (x :: rest)) with (x + Np.sum rest). rewrite IH, Hx. ring.
Qed.

Lemma nth_all_zero (l : list R) (m : nat) : Forall (fun x => x = 0) l -> nth m l 0 = 0.
Proof.
  intros H. destruct (Nat.lt_ge_cases m (List.length l)) as [Hlt | Hge].
  - rewrite Forall_forall in H. apply H. apply nth_In. exact Hlt.
  - apply nth_overflow. exact Hge.
Qed.

Lemma mul_all_zero (a b : list R) :
  Forall (fun x => x = 0) a -> Forall (fun x => x = 0) (Np.mul a b).
Proof.
  intros H. unfold Np.mul. apply Forall_forall. intros y Hy.
  apply in_map_iff in Hy. destruct Hy as [[u v] [<- Hin]]. simpl.
  apply in_combine_l in Hin. rewrite Forall_forall in H.
  rewrite (H u Hin). ring.
Qed.

(** The spectrum of digital silence is zero in every bin. *)
Lemma rfft_abs_all_zero (x : list R) (n : nat) :
  Forall (fun v => v = 0) x -> Forall (fun v => v = 0) (Np.rfft_abs x n).
Proof.
  intros H. unfold Np.rfft_abs. apply Forall_forall. intros v Hv.
  apply in_map_iff in Hv. destruct Hv as [k [<- _]].
  assert (Hre : Np.dft_re x n k = 0).
  { unfold Np.dft_re. apply sum_all_zero. apply Forall_forall. intros y Hy.
    apply in_map_iff in Hy. destruct Hy as [m [<- _]].
    rewrite nth_all_zero by exact H. ring. }
  assert (Him : Np.dft_im x n k = 0).
  { unfold Np.dft_im. rewrite sum_all_zero; [ ring | ].
    apply Forall_forall. intros y Hy.
    apply in_map_iff in Hy. destruct Hy as [m [<- _]].
    rewrite nth_all_zero by exact H. ring. }
  rewrite Hre, Him. replace (0 ^ 2 + 0 ^ 2) with 0 by ring. apply sqrt_0.
Qed.

Lemma peak_power_all_zero (spectrum : list R) (b : Z) :
  Forall (fun v => v = 0) spectrum -> peak_power spectrum b = 0.
Proof.
  intros H. unfold peak_power.
  assert (Hw : Forall (fun v => v = 0) (window spectrum b)).
  { apply Forall_forall. intros x Hx. rewrite Forall_forall in H.
    apply H. apply (window_incl _ _ _ Hx). }
  induction Hw as [ | x rest Hx _ IH ]; cbn [map fold_right]; [ reflexivity | ].
  rewrite IH, Hx. rewrite Rmax_left; lra.
Qed.

(** C10.  When the measured fundamental power is zero, as it is for an
    all-zero buffer, [compute_thd] returns [thd_percent = 0.0] together with
    the harmonic levels it collected; it returns the same [0.0] for a buffer
    with a positive fundamental power and no harmonic power, so the value alone
    does not tell the two apart. *)
Theorem C10_thd_zero_fundamental (samples : list R) (sample_rate : Z)
    (fundamental_freq : Q) (num_harmonics : Z) :
  (0 < sample_rate)%Z -> (0 <= fundamental_freq)%Q ->
  (bin_index fundamental_freq (analysis_n_fft samples) sample_rate - 2
   < Py.len (analysis_spectrum samples))%Z ->
  (fundamental_power samples sample_rate fundamental_freq = 0 ->
   compute_thd samples sample_rate fundamental_freq num_harmonics
   = Ok (0, harmonic_levels_db samples sample_rate fundamental_freq num_harmonics))
  /\ (Forall (fun x => x = 0) samples ->
      fundamental_power samples sample_rate fundamental_freq = 0)
  /\ (0 < fundamental_power samples sample_rate fundamental_freq ->
      harmonic_power_sum samples sample_rate fundamental_freq num_harmonics = 0 ->
      compute_thd samples sample_rate fundamental_freq num_harmonics
      = Ok (0, harmonic_levels_db samples sample_rate fundamental_freq num_harmonics)).
Proof.
  intros Hsr Hf Hwin.
  rewrite (compute_thd_spec samples num_harmonics Hsr Hf Hwin).
  unfold thd_percent_spec.
  split; [ | split ].
  - intros Hzero. rewrite Hzero.
    destruct (Rlt_dec 0 0) as [H | H]; [ lra | reflexivity ].
  - intros Hsilent. unfold fundamental_power. apply peak_power_all_zero.
    unfold analysis_spectrum, windowed_spectrum.
    apply rfft_abs_all_zero. apply mul_all_zero. exact Hsilent.
  - intros Hfp Hhp. rewrite Hhp.
    destruct (Rlt_dec 0 _) as [H | H]; [ | reflexivity ].
    unfold Rdiv. rewrite Rmult_0_l, sqrt_0, Rmult_0_r. reflexivity.
Qed.

End Thd.

(** ** Intermodulation distortion *)

Section Imd.

Local Open Scope R_scope.

Lemma round_below_half (q : Q) (m : Z) :
  (q < m # 2)%Q -> (2 * Py.round q <= m)%Z.
Proof.
  intros Hq. unfold Qlt in Hq. simpl in Hq.
  pose proof (round_cases q) as [Hup _].
  assert (Hd : (0 < Zpos (Qden q))%Z) by lia.
  nia.
Qed.

Lemma below_nyquist_scaled (freq : Q) (n_fft sample_rate : Z) :
  (0 < sample_rate)%Z -> (0 < n_fft)%Z ->
  (freq < inject_Z sample_rate / 2)%Q ->
  (freq * inject_Z n_fft / inject_Z sample_rate < n_fft # 2)%Q.
Proof.
  intros Hsr Hn Hf.
  destruct sample_rate as [ | p | p ]; try lia.
  destruct freq as [a b].
  unfold Qlt, Qdiv, Qmult, Qinv, inject_Z in *. simpl in *.
  rewrite !Pos2Z.inj_mul. rewrite Z.mul_1_r in *. nia.
Qed.

(** A frequency below Nyquist has its nearest bin inside the spectrum. *)
Lemma below_nyquist_in_range (samples : list R) (sample_rate : Z) (freq : Q) :
  (0 < sample_rate)%Z ->
  (freq < inject_Z sample_rate / 2)%Q ->
  (bin_index freq (analysis_n_fft samples) sample_rate
   < Py.len (analysis_spectrum samples))%Z.
Proof.
  intros Hsr Hf.
  pose proof (next_power_of_2_pos (Py.len samples)) as Hn.
  fold (analysis_n_fft samples) in Hn.
  pose proof (round_below_half (below_nyquist_scaled Hsr Hn Hf)) as Hr.
  fold (bin_index freq (analysis_n_fft samples) sample_rate) in Hr.
  unfold analysis_spectrum, windowed_spectrum, Py.len.
  rewrite rfft_abs_length. rewrite Nat2Z.inj_add, Nat2Z.inj_div.
  rewrite Z2Nat.id by lia. simpl Z.of_nat.
  pose proof (Z.div_mod (analysis_n_fft samples) 2 ltac:(lia)).
  pose proof (Z.mod_pos_bound (analysis_n_fft samples) 2 ltac:(lia)).
  lia.
Qed.

Lemma get_peak_power_spec (samples : list R) (sample_rate : Z) (freq : Q) :
  (0 < sample_rate)%Z -> (0 <= freq)%Q ->
  get_peak_power (analysis_spectrum samples) (analysis_n_fft samples) sample_rate freq
  = Ok (imd_peak_power samples sample_rate freq).
Proof.
  intros Hsr Hf. unfold get_peak_power, imd_peak_power.
  rewrite bin_of_spec by exact Hsr. cbv [rbind]. cbv zeta.
  set (b := bin_index freq (analysis_n_fft samples) sample_rate).
  destruct (Z.geb_spec b (Py.len (analysis_spectrum samples))) as [Hout | Hin];
    [ reflexivity | ].
  assert (Hb : (0 <= b)%Z)
    by (apply bin_index_nonneg; [ exact Hf | apply next_power_of_2_pos | exact Hsr ]).
  rewrite imd_slice_window by exact Hb.
  destruct (@max_square (window (analysis_spectrum samples) b)) as [m [Hmax Hm]].
  - apply window_nonempty; [ exact Hb | lia | apply rfft_abs_nonempty ].
  - apply Forall_forall. intros x Hx.
    pose proof (rfft_abs_nonneg
                  (Np.mul samples (Np.hanning (List.length samples)))
                  (Z.to_nat (analysis_n_fft samples))) as Hpos.
    rewrite Forall_forall in Hpos. apply Hpos. apply (window_incl _ _ _ Hx).
  - rewrite Hmax. unfold peak_power. rewrite Hm. reflexivity.
Qed.

Lemma imd_peak_power_below (samples : list R) (sample_rate : Z) (freq : Q) :
  (0 < sample_rate)%Z ->
  (freq < inject_Z sample_rate / 2)%Q ->
  imd_peak_power samples sample_rate freq
  = peak_power (analysis_spectrum samples)
      (bin_index freq (analysis_n_fft samples) sample_rate).
Proof.
  intros Hsr Hf. unfold imd_peak_power. cbv zeta.
  pose proof (below_nyquist_in_range samples Hsr Hf) as Hlt.
  destruct (Z.geb_spec (bin_index freq (analysis_n_fft samples) sample_rate)
              (Py.len (analysis_spectrum samples))); [ lia | reflexivity ].
Qed.

Lemma imd_loop_spec (samples : list R) (sample_rate : Z) :
  (0 < sample_rate)%Z ->
  forall products imd_power sideband_db,
    Forall (fun p => (0 <= snd p)%Q) products ->
    let below :=
      filter (fun p => if Qlt_le_dec (snd p) (inject_Z sample_rate / 2)
                       then true else false) products in
    imd_loop (analysis_spectrum samples) (analysis_n_fft samples) sample_rate
      products imd_power sideband_db
    = Ok (imd_power
          + Np.sum (map (fun p => peak_power (analysis_spectrum samples)
                                    (bin_index (snd p) (analysis_n_fft samples)
                                       sample_rate)) below),
          (sideband_db
           ++ map (fun p =>
                     (fst p,
                      linear_to_dbfs
                        (sqrt (peak_power (analysis_spectrum samples)
                                 (bin_index (snd p) (analysis_n_fft samples)
                                    sample_rate))))) below)%list).
Proof.
  intros Hsr products.
  induction products as [ | [name freq] rest IH ]; intros P sb Hpos; cbv zeta;
    cbn [imd_loop filter snd].
  - cbn [map Np.sum fold_right]. rewrite app_nil_r. f_equal. f_equal. ring.
  - inversion Hpos as [ | p' rest' Hf Hrest ]; subst. simpl in Hf.
    destruct (Qlt_le_dec freq (inject_Z sample_rate / 2)) as [Hlt | Hge].
    + rewrite get_peak_power_spec by assumption. cbv [rbind].
      rewrite imd_peak_power_below by assumption.
      rewrite (IH _ _ Hrest). cbv zeta. cbn [map Np.sum fold_right fst snd].
      f_equal. f_equal.
      * unfold Np.sum. ring.
      * rewrite <- app_assoc. reflexivity.
    + apply (IH _ _ Hrest).
Qed.

Lemma imd_products_nonneg (f1 f2 : Q) :
  (0 <= f1)%Q -> (0 <= f2)%Q ->
  Forall (fun p => (0 <= snd p)%Q) (imd_products f1 f2).
Proof.
  intros H1 H2. unfold imd_products.
  assert (H21 : (0 <= 2 * f1)%Q) by (apply Qmult_le_0_compat; [ discriminate | exact H1 ]).
  assert (H22 : (0 <= 2 * f2)%Q) by (apply Qmult_le_0_compat; [ discriminate | exact H2 ]).
  repeat (apply Forall_cons; [ cbn [snd] | ]); [ .. | apply Forall_nil ].
  - apply Qabs_nonneg.
  - apply (Qplus_le_compat 0 _ 0 _); assumption.
  - apply Qabs_nonneg.
  - apply Qabs_nonneg.
  - apply (Qplus_le_compat 0 _ 0 _); assumption.
  - apply (Qplus_le_compat 0 _ 0 _); assumption.
Qed.

(** What [compute_imd] returns on non-negative tones at a positive rate. *)
Lemma compute_imd_spec (samples : list R) (sample_rate : Z) (f1 f2 : Q) :
  (0 < sample_rate)%Z -> (0 <= f1)%Q -> (0 <= f2)%Q ->
  compute_imd samples sample_rate f1 f2
  = Ok (imd_db_spec samples sample_rate f1 f2,
        imd_sidebands samples sample_rate f1 f2).
Proof.
  intros Hsr H1 H2. unfold compute_imd.
  fold (analysis_n_fft samples). fold (analysis_spectrum samples).
  rewrite truediv_inject_nonzero by lia. cbv [rbind].
  rewrite !get_peak_power_spec by assumption.
  rewrite (imd_loop_spec samples Hsr) by (apply imd_products_nonneg; assumption).
  cbv zeta. unfold imd_db_spec, imd_sidebands.
  fold (products_below_nyquist sample_rate f1 f2).
  fold (imd_product_power samples sample_rate f1 f2).
  fold (imd_fundamental_power samples sample_rate f1 f2).
  simpl app. rewrite Rplus_0_l. f_equal. f_equal.
  destruct (Rlt_dec 0 _); [ | reflexivity ].
  unfold linear_to_dbfs. rewrite Rabs_right; [ reflexivity | ].
  apply Rle_ge. apply sqrt_pos.
Qed.

(** C3 (amended).  For a non-empty buffer, a positive sample rate and
    non-negative tones, [compute_imd] sums the peak powers at exactly those of
    the six 2nd/3rd-order product frequencies that lie below Nyquist, and
    returns [20 * log10(sqrt(product_power_sum / (p1 + p2)) + 1e-12)] when the
    combined fundamental power [p1 + p2] is positive, and [-120] when it is
    zero. *)
Theorem C3_compute_imd (samples : list R) (sample_rate : Z) (f1 f2 : Q) :
  samples <> [] ->
  (0 < sample_rate)%Z -> (0 <= f1)%Q -> (0 <= f2)%Q ->
  compute_imd samples sample_rate f1 f2
  = Ok (imd_db_spec samples sample_rate f1 f2,
        imd_sidebands samples sample_rate f1 f2).
Proof. intros _. apply compute_imd_spec. Qed.

End Imd.

(** ** A one-sample buffer *)

Section UnitImpulse.

Local Open Scope R_scope.

(** The spectrum of the one-sample buffer [[1.0]] is the single bin [1.0]. *)
Lemma analysis_spectrum_unit : analysis_spectrum [1] = [1].
Proof.
  unfold analysis_spectrum, analysis_n_fft, windowed_spectrum.
  change (next_power_of_2 (Py.len [1])) with 1%Z.
  change (Z.to_nat 1) with 1%nat. change (List.length [1]) with 1%nat.
  unfold Np.hanning, Np.mul. cbn [combine map fst snd].
  unfold Np.rfft_abs. change (1 / 2 + 1)%nat with 1%nat. cbn [seq map].
  f_equal. unfold Np.dft_re, Np.dft_im, Np.sum. cbn [seq map fold_right nth].
  replace (2 * PI * INR 0 * INR 0 / INR 1) with 0 by (simpl; field).
  rewrite cos_0, sin_0.
  replace ((1 * 1 * 1 + 0) ^ 2 + (- (1 * 1 * 0 + 0)) ^ 2) with 1 by ring.
  apply sqrt_1.
Qed.

Lemma peak_power_unit : peak_power [1] 0 = 1.
Proof.
  unfold peak_power. change (window [1] 0) with [1]. cbn [map fold_right].
  rewrite Rmax_left; lra.
Qed.

Ltac eval_bins :=
  repeat match goal with
         | |- context [bin_index ?q ?n ?s] =>
             let b := eval vm_compute in (bin_index q n s) in
             change (bin_index q n s) with b
         end.

Lemma imd_unit_fundamental : imd_fundamental_power [1] 44100 1000 1200 = 2.
Proof.
  unfold imd_fundamental_power, imd_peak_power. cbv zeta.
  rewrite analysis_spectrum_unit. change (analysis_n_fft [1]) with 1%Z.
  eval_bins. change (Py.len [1%R]) with 1%Z. change (0 >=? 1)%Z with false.
  cbv iota. rewrite peak_power_unit. lra.
Qed.

Lemma imd_unit_products : imd_product_power [1] 44100 1000 1200 = 6.
Proof.
  unfold imd_product_power, products_below_nyquist.
  rewrite analysis_spectrum_unit. change (analysis_n_fft [1]) with 1%Z.
  match goal with
  | |- context [filter ?g ?l] =>
      let l' := eval vm_compute in (filter g l) in change (filter g l) with l'
  end.
  cbn [map Np.sum fold_right snd]. eval_bins. rewrite !peak_power_unit. lra.
Qed.

(** C3, as stated, fails: on the one-sample buffer [[1.0]] at 44100 Hz with
    tones of 1000 and 1200 Hz the combined fundamental power is positive, and
    the value returned is not [20 * log10(sqrt(product_power_sum / (p1 + p2)))]:
    the dBFS conversion adds [1e-12] before taking the logarithm. *)
Lemma C3_counterexample :
  exists imd_db sidebands,
    compute_imd [1] 44100 1000 1200 = Ok (imd_db, sidebands)
    /\ 0 < imd_fundamental_power [1] 44100 1000 1200
    /\ imd_db
       <> 20 * log10 (sqrt (imd_product_power [1] 44100 1000 1200
                            / imd_fundamental_power [1] 44100 1000 1200)).
Proof.
  rewrite compute_imd_spec by (try lia; discriminate).
  eexists. eexists. split; [ reflexivity | ].
  unfold imd_db_spec. rewrite imd_unit_fundamental, imd_unit_products.
  split; [ lra | ].
  destruct (Rlt_dec 0 2) as [_ | H]; [ | lra ].
  assert (Hs : 0 < sqrt (6 / 2)) by (apply sqrt_lt_R0; lra).
  pose proof (ln_increasing (sqrt (6 / 2)) (sqrt (6 / 2) + 1e-12) Hs ltac:(lra)) as Hln.
  pose proof ln_10_pos as H10.
  unfold log10. intros Heq.
  assert (Hq : ln (sqrt (6 / 2) + 1e-12) / ln 10 = ln (sqrt (6 / 2)) / ln 10) by lra.
  apply (Rmult_eq_compat_r (ln 10)) in Hq.
  unfold Rdiv in Hq. rewrite !Rmult_assoc, Rinv_l, !Rmult_1_r in Hq by lra.
  lra.
Qed.

End UnitImpulse.

(** * Instances

    Each theorem above that carries hypotheses is applied here to a concrete
    input on which the hypotheses hold. *)

Section Instances.

Local Open Scope R_scope.

Ltac q_le := unfold Qle; simpl; lia.

Ltac spectrum_window :=
  unfold analysis_spectrum, windowed_spectrum, Py.len;
  rewrite rfft_abs_length; vm_compute; reflexivity.


(** [compute_imd] on the one-sample buffer [[1.0]] at 44100 Hz with the tones
    of the IMD test. *)
Lemma C3_witness :
  compute_imd [1] 44100 1000 1200
  = Ok (imd_db_spec [1] 44100 1000 1200, imd_sidebands [1] 44100 1000 1200).
Proof.
  apply C3_compute_imd; [ discriminate | lia | q_le | q_le ].
Defined.

(** One sample of digital silence is not oscillating. *)
Lemma C4_witness :
  detect_self_oscillation [0] 44100 default_threshold_dbfs
  = Ok {| oscillating := false; dominant_freq_hz := 0;
          rms_dbfs := Some (rms_level_dbfs [0]) |}.
Proof.
  pose proof (@C4_self_oscillation [0] 44100 ltac:(discriminate)) as H.
  cbv zeta in H. destruct H as [H _].
  destruct (H (Forall_cons 0 eq_refl (Forall_nil _))) as [_ [_ H3]].
  exact H3.
Defined.




(** A child process that exits with status 1. *)
Lemma C8_witness :
  exists w',
    run_filters
      (fun _ f => Ok ({| returncode := 1; proc_stdout := EmptyString; proc_stderr := "no input" |}, f))
      ["RunFilters"]%string ["in.wav"]%string 1000 0 0 ["out"]%string false
      {| fs := []; stdout := []; clock := 0 |} = Ok ([], w').
Proof.
  pose (cp := {| returncode := 1; proc_stdout := EmptyString; proc_stderr := "no input" |}).
  assert (Hne : returncode cp <> 0%Z) by (simpl; lia).
  destruct (@C8_failed_invocation_contributes_nothing
              (fun _ f => Ok (cp, f))
              ["RunFilters"]%string ["in.wav"]%string 1000 0 0 ["out"]%string false
              {| fs := []; stdout := []; clock := 0 |}
              cp (Fs.mkdir [] ["out"]%string) eq_refl (or_introl Hne)) as [w' [H _]].
  exists w'. exact H.
Defined.

(** Silence and a clean one-sample tone both measure [thd_percent = 0.0]. *)
Lemma C10_witness :
  compute_thd [0] 4 (3 # 2) 10 = Ok (0, harmonic_levels_db [0] 4 (3 # 2) 10).
Proof.
  destruct (@C10_thd_zero_fundamental [0] 4 (3 # 2) 10
              ltac:(lia) ltac:(q_le) ltac:(spectrum_window)) as [H1 [H2 _]].
  apply H1. apply H2. apply Forall_cons; [ reflexivity | apply Forall_nil ].
Defined.

End Instances.

(** * Further properties of the harness *)

(** ** Utility functions *)

Section Utilities.

Lemma next_power_of_2_bounds (n : Z) :
  (1 <= n)%Z ->
  next_power_of_2 n = (2 ^ Py.bit_length (n - 1))%Z
  /\ (n <= next_power_of_2 n)%Z /\ (next_power_of_2 n < 2 * n)%Z.
Proof.
  intros Hn. unfold next_power_of_2.
  pose proof (bit_length_nonneg (n - 1)) as Hb.
  rewrite Z.shiftl_1_l. split; [ reflexivity | ].
  unfold Py.bit_length in *.
  destruct (Z.eqb_spec (n - 1) 0) as [E | E].
  - rewrite Z.pow_0_r. lia.
  - rewrite Z.abs_eq by lia.
    destruct (Z.log2_spec (n - 1)) as [H1 H2]; [ lia | ].
    replace (Z.log2 (n - 1) + 1)%Z with (Z.succ (Z.log2 (n - 1))) by lia.
    rewrite Z.pow_succ_r in * by apply Z.log2_nonneg. lia.
Qed.

(** X1.  For every [n >= 1], [next_power_of_2 n] is a power of two, at least
    [n] and below [2 * n]: the least power of two that is not below [n]. *)
Theorem next_power_of_2_least_power (n : Z) :
  (1 <= n)%Z ->
  exists k, (0 <= k)%Z /\ next_power_of_2 n = (2 ^ k)%Z
            /\ (n <= next_power_of_2 n < 2 * n)%Z.
Proof.
  intros Hn. destruct (next_power_of_2_bounds Hn) as [H1 [H2 H3]].
  exists (Py.bit_length (n - 1)). split; [ apply bit_length_nonneg | ].
  split; [ exact H1 | lia ].
Qed.

Local Open Scope R_scope.

Lemma ln_10_gt_2 : 2 < ln 10.
Proof.
  assert (H : exp 2 < 10).
  { replace 2 with (1 + 1) by ring. rewrite exp_plus.
    pose proof exp_le_3 as H3. pose proof (exp_pos 1) as Hp. nra. }
  rewrite <- (ln_exp 2) at 1. apply ln_increasing; [ apply exp_pos | exact H ].
Qed.

Lemma ln_1_plus_lt (t : R) : 0 < t -> 0 < ln (1 + t) < t.
Proof.
  intros Ht. split.
  - rewrite <- ln_1. apply ln_increasing; lra.
  - rewrite <- (ln_exp t) at 2. apply ln_increasing; [ lra | ].
    apply exp_ineq1. lra.
Qed.

Lemma dbfs_to_linear_ln (db : Q) : ln (dbfs_to_linear db) = Q2R db / 20 * ln 10.
Proof. unfold dbfs_to_linear, Rpower. rewrite ln_exp. reflexivity. Qed.

Lemma dbfs_to_linear_floor (db : Q) : -120 <= Q2R db -> 1e-6 <= dbfs_to_linear db.
Proof.
  intros H. unfold dbfs_to_linear.
  replace 1e-6 with (Rpower 10 (-6)).
  - destruct (Req_dec (Q2R db / 20) (-6)) as [E | E].
    + rewrite E. lra.
    + apply Rlt_le. apply Rpower_lt; lra.
  - replace (-6) with (- INR 6) by (simpl; lra).
    rewrite Rpower_Ropp, Rpower_pow by lra. lra.
Qed.

(** X2.  Converting a level of at least -120 dBFS to a linear amplitude with
    [dbfs_to_linear] and back with [linear_to_dbfs] gives a level above the
    original by less than [1e-5] dB: the [1e-12] offset of [linear_to_dbfs]
    keeps the round trip from being exact. *)
Theorem dbfs_round_trip (db : Q) :
  -120 <= Q2R db ->
  Q2R db < linear_to_dbfs (dbfs_to_linear db) < Q2R db + 1e-5.
Proof.
  intros Hdb.
  pose proof (dbfs_to_linear_floor Hdb) as Hfl.
  pose proof ln_10_gt_2 as H10.
  set (a := dbfs_to_linear db) in *.
  assert (Ha : 0 < a) by lra.
  unfold linear_to_dbfs, log10. rewrite Rabs_right by lra.
  replace (a + 1e-12) with (a * (1 + 1e-12 / a)) by (field; lra).
  assert (Ht : 0 < 1e-12 / a).
  { apply Rdiv_lt_0_compat; lra. }
  assert (Ht' : 1e-12 / a <= 1e-6).
  { apply Rmult_le_reg_r with (r := a); [ exact Ha | ].
    unfold Rdiv. rewrite Rmult_assoc, Rinv_l by lra. nra. }
  rewrite ln_mult by lra.
  destruct (ln_1_plus_lt Ht) as [L1 L2].
  unfold a at 1 3. rewrite dbfs_to_linear_ln.
  set (u := ln (1 + 1e-12 / a)) in *.
  replace (20 * ((Q2R db / 20 * ln 10 + u) / ln 10))
    with (Q2R db + 20 * (u / ln 10)) by (field; lra).
  assert (Hq : 0 < u / ln 10 < 1e-6 / 2).
  { split.
    - apply Rdiv_lt_0_compat; lra.
    - apply Rmult_lt_reg_r with (r := ln 10); [ lra | ].
      unfold Rdiv at 1. rewrite Rmult_assoc, Rinv_l by lra. nra. }
  lra.
Qed.

(** X3.  [linear_to_dbfs] never goes below -240 dB (its value at zero), does
    not depend on the sign of its argument, and grows with the magnitude of
    its argument. *)
Theorem linear_to_dbfs_floor_and_order (x y : R) :
  Rabs x <= Rabs y ->
  -240 <= linear_to_dbfs x
  /\ linear_to_dbfs x <= linear_to_dbfs y
  /\ linear_to_dbfs (- x) = linear_to_dbfs x.
Proof.
  intros Hxy. pose proof ln_10_pos as H10.
  pose proof (Rabs_pos x) as Hx.
  assert (Hmono : forall a b, 0 < a -> a <= b -> 20 * log10 a <= 20 * log10 b).
  { intros a b Ha Hab. unfold log10.
    assert (ln a <= ln b).
    { destruct (Req_dec a b) as [-> | Hne]; [ lra | ].
      apply Rlt_le. apply ln_increasing; lra. }
    assert (ln a / ln 10 <= ln b / ln 10).
    { apply Rmult_le_compat_r; [ | assumption ].
      apply Rlt_le. apply Rinv_0_lt_compat. exact H10. }
    lra. }
  split; [ | split ].
  - rewrite <- linear_to_dbfs_0. unfold linear_to_dbfs. rewrite Rabs_R0.
    apply Hmono; lra.
  - unfold linear_to_dbfs. apply Hmono; lra.
  - unfold linear_to_dbfs. rewrite Rabs_Ropp. reflexivity.
Qed.

End Utilities.

(** ** WAV files and cached test signals *)

Section WavClipping.

Local Open Scope R_scope.





End WavClipping.

Section SaveTestSignal.


End SaveTestSignal.

(** ** Instances of the further properties *)

Section FurtherInstances.

Local Open Scope R_scope.

(** A one-second buffer at 44100 Hz is analysed with a 65536-point FFT. *)
Lemma next_power_of_2_least_power_witness :
  exists k, (0 <= k)%Z /\ next_power_of_2 44100 = (2 ^ k)%Z
            /\ (44100 <= next_power_of_2 44100 < 2 * 44100)%Z.
Proof. apply (@next_power_of_2_least_power 44100). lia. Defined.

(** The level of the THD test tone, -12 dBFS. *)
Lemma dbfs_round_trip_witness :
  Q2R (-12) < linear_to_dbfs (dbfs_to_linear (-12)) < Q2R (-12) + 1e-5.
Proof. apply dbfs_round_trip. unfold Q2R. simpl. lra. Defined.

(** Silence against full scale. *)
Lemma linear_to_dbfs_floor_and_order_witness :
  -240 <= linear_to_dbfs 0
  /\ linear_to_dbfs 0 <= linear_to_dbfs 1
  /\ linear_to_dbfs (- 0) = linear_to_dbfs 0.
Proof.
  apply linear_to_dbfs_floor_and_order. rewrite Rabs_R0, Rabs_R1. lra.
Defined.


End FurtherInstances.

(** ** Step-response metrics: ranges and the settling sample *)

Section StepMetrics.

Local Open Scope R_scope.

(** The backward scan on the reversed [settled] array. *)
Lemma settling_scan_spec (l : list bool) :
  forall i d : Z,
    i = (Z.of_nat (List.length l) - 1)%Z ->
    (settling_scan l i d = d /\ Forall (fun b => b = true) l)
    \/ (exists t : nat,
          (t < List.length l)%nat
          /\ settling_scan l i d = (i - Z.of_nat t + 1)%Z
          /\ nth t l true = false
          /\ forall m, (m < t)%nat -> nth m l true = true).
Proof.
  induction l as [ | b rest IH ]; intros i d Hi.
  - left. split; [ reflexivity | constructor ].
  - cbn [settling_scan]. destruct b.
    + assert (Hi' : (i - 1)%Z = (Z.of_nat (List.length rest) - 1)%Z).
      { cbn [List.length] in Hi. lia. }
      destruct (IH (i - 1)%Z d Hi') as [[Hk Hall] | [t [Ht [Hk [Hn Hm]]]]].
      * left. split; [ exact Hk | constructor; [ reflexivity | exact Hall ] ].
      * right. exists (S t). cbn [List.length nth]. split; [ lia | ].
        split; [ rewrite Hk; lia | ]. split; [ exact Hn | ].
        intros m Hlt. destruct m as [ | m ]; [ reflexivity | ]. apply Hm. lia.
    + right. exists 0%nat. cbn [List.length nth]. split; [ lia | ].
      split; [ lia | ]. split; [ reflexivity | ]. intros m Hlt. lia.
Qed.

(** The same on the array itself: [k] is the settling sample. *)
Lemma settling_sample_spec (settled : list bool) :
  let n := List.length settled in
  exists k : nat,
    settling_scan (rev settled) (Py.len settled - 1) (Py.len settled) = Z.of_nat k
    /\ (k <= n)%nat
    /\ (settled <> [] -> 1 <= k)%nat
    /\ (forall i, (k <= i < n)%nat -> nth i settled true = true)
    /\ (k < n -> nth (k - 1) settled true = false)%nat
    /\ (Forall (fun b => b = true) settled -> k = n).
Proof.
  intros n. unfold Py.len. fold n.
  assert (Hidx : (Z.of_nat n - 1)%Z = (Z.of_nat (List.length (rev settled)) - 1)%Z).
  { rewrite length_rev. reflexivity. }
  destruct (@settling_scan_spec (rev settled) (Z.of_nat n - 1) (Z.of_nat n) Hidx)
    as [[Hk Hall] | [t [Ht [Hk [Hn Hm]]]]].
  - exists n. split; [ exact Hk | ]. split; [ lia | ].
    assert (Hall' : Forall (fun b => b = true) settled).
    { apply Forall_forall. intros b Hb. rewrite Forall_forall in Hall.
      apply Hall. apply in_rev in Hb. exact Hb. }
    split; [ | split; [ | split ] ].
    + intros Hne. destruct settled; [ congruence | ]. unfold n. simpl. lia.
    + intros i Hi. lia.
    + lia.
    + reflexivity.
  - rewrite length_rev in Ht. fold n in Ht.
    exists (n - t)%nat. split; [ rewrite Hk; lia | ]. split; [ lia | ].
    assert (Hrev : forall m, (m < n)%nat ->
                     nth m (rev settled) true = nth (n - S m) settled true).
    { intros m Hlt. apply rev_nth. exact Hlt. }
    split; [ | split; [ | split ] ].
    + intros _. lia.
    + intros i Hi.
      replace i with (n - S (n - S i))%nat by lia.
      rewrite <- Hrev by lia. apply Hm. lia.
    + intros _. replace (n - t - 1)%nat with (n - S t)%nat by lia.
      rewrite <- Hrev by lia. exact Hn.
    + intros Hall. exfalso.
      rewrite Hrev in Hn by lia.
      rewrite Forall_forall in Hall.
      assert (nth (n - S t) settled true = true).
      { apply Hall. apply nth_In. fold n. lia. }
      congruence.
Qed.

Lemma steady_start_lt (n : Z) :
  (1 <= n)%Z -> (0 <= Py.int_of_Q (inject_Z n * (9 # 10)) < n)%Z.
Proof.
  intros Hn. unfold Py.int_of_Q. simpl Qnum. simpl Qden.
  split.
  - apply Z.quot_pos; lia.
  - apply Z.quot_lt_upper_bound; lia.
Qed.

Lemma steady_state_nonempty (samples : list R) :
  samples <> [] -> exists dc, steady_state samples = Some dc.
Proof.
  intros Hne. unfold steady_state.
  assert (Hlen : (1 <= Py.len samples)%Z).
  { unfold Py.len. destruct samples; [ congruence | simpl List.length; lia ]. }
  destruct (steady_start_lt Hlen) as [H0 H1].
  rewrite slice_nonneg by lia.
  set (s := firstn _ _).
  assert (Hs : (0 < List.length s)%nat).
  { unfold s. rewrite length_firstn, length_skipn. unfold Py.len in *. lia. }
  destruct s as [ | x rest ]; [ simpl in Hs; lia | ].
  eexists. reflexivity.
Qed.


(** What [compute_step_metrics] returns outside its guard. *)
Lemma compute_step_metrics_inv (samples : list R) (sample_rate : Z) (m : StepMetrics) :
  compute_step_metrics samples sample_rate = Ok m ->
  (m = {| overshoot_pct := 0; settling_time_ms := 0; step_dc_gain := 0 |}
   /\ exists dc, steady_state samples = Some dc /\ Rabs dc < 1e-10)
  \/ (exists dc peak (k : nat),
        steady_state samples = Some dc /\ 1e-10 <= Rabs dc
        /\ Np.max samples = Ok peak
        /\ sample_rate <> 0%Z
        /\ m = {| overshoot_pct :=
                    if Rlt_dec 0 dc then Rmax 0 ((peak - dc) / dc * 100) else 0;
                  settling_time_ms := IZR (Z.of_nat k) / IZR sample_rate * 1000;
                  step_dc_gain := dc |}
        /\ (1 <= k <= List.length samples)%nat
        /\ (forall i, (k <= i < List.length samples)%nat ->
                      within_2_percent dc (nth i samples 0))
        /\ ((k < List.length samples)%nat ->
            ~ within_2_percent dc (nth (k - 1) samples 0))
        /\ (Forall (within_2_percent dc) samples -> k = List.length samples)).
Proof.
  unfold compute_step_metrics, steady_state.
  destruct (Np.mean _) as [dc | ]; [ | discriminate ].
  destruct (Rlt_dec (Rabs dc) 1e-10) as [Hg | Hg].
  - intros H. injection H as <-. left. split; [ reflexivity | ].
    exists dc. split; [ reflexivity | exact Hg ].
  - destruct (Np.max samples) as [peak | e] eqn:Hmax; [ | discriminate ].
    cbn [rbind].
    set (settled := map _ samples).
    destruct (settling_sample_spec settled) as [k (Hk & Hle & Hone & Hafter & Hbefore & Hall)].
    assert (Hlen : Py.len settled = Py.len samples).
    { unfold settled. apply len_map. }
    rewrite Hlen in Hk. rewrite Hk.
    assert (Hn : List.length settled = List.length samples).
    { unfold settled. apply length_map. }
    rewrite Hn in *.
    assert (Hnth : forall i, (i < List.length samples)%nat ->
                     (nth i settled true = true <-> within_2_percent dc (nth i samples 0))).
    { intros i Hi. unfold settled.
      set (f := fun x : R => if Rlt_dec (Rabs (x - dc)) (Rabs dc * 0.02)
                             then true else false).
      rewrite (nth_indep (map f samples) true (f 0))
        by (rewrite length_map; exact Hi).
      rewrite (map_nth f). unfold f, within_2_percent.
      destruct (Rlt_dec _ _); split; intros; try assumption; try reflexivity;
        try discriminate; try contradiction. }
    destruct (Z.eqb_spec sample_rate 0) as [E | E]; [ discriminate | ].
    intros H. injection H as <-. right.
    exists dc, peak, k.
    split; [ reflexivity | ]. split; [ lra | ]. split; [ reflexivity | ].
    split; [ exact E | ]. split; [ reflexivity | ].
    assert (Hne : samples <> []).
    { destruct samples; [ discriminate | discriminate ]. }
    split.
    { split; [ | exact Hle ]. apply Hone. unfold settled.
      destruct samples; [ congruence | discriminate ]. }
    split.
    { intros i Hi. apply Hnth; [ lia | ]. apply Hafter. exact Hi. }
    split.
    { intros Hlt Hw. apply Hnth in Hw; [ | lia ].
      rewrite Hbefore in Hw by exact Hlt. discriminate. }
    intros Hall'. apply Hall. unfold settled.
    apply Forall_forall. intros b Hb. apply in_map_iff in Hb.
    destruct Hb as [x [<- Hx]]. rewrite Forall_forall in Hall'.
    specialize (Hall' x Hx). unfold within_2_percent in Hall'.
    destruct (Rlt_dec _ _); [ reflexivity | contradiction ].
Qed.


Lemma compute_step_metrics_total (samples : list R) (sample_rate : Z) :
  samples <> [] -> sample_rate <> 0%Z ->
  exists m, compute_step_metrics samples sample_rate = Ok m.
Proof.
  intros Hne Hsr. destruct (steady_state_nonempty Hne) as [dc Hdc].
  unfold compute_step_metrics. unfold steady_state in Hdc. rewrite Hdc.
  destruct (Rlt_dec (Rabs dc) 1e-10); [ eexists; reflexivity | ].
  destruct samples as [ | x rest ]; [ congruence | ].
  cbn [Np.max rbind].
  destruct (Z.eqb_spec sample_rate 0) as [E | E]; [ contradiction | ].
  eexists. reflexivity.
Qed.

(** X6.  On a non-empty buffer at a positive sample rate
    [compute_step_metrics] returns; the overshoot is never negative, the
    settling time lies between zero and the duration of the buffer, the DC
    gain is either reported as [0] (steady state under the [1e-10] guard) or
    at least [1e-10] in magnitude, and a settling time of [0] is reported
    exactly in the guarded case. *)
Theorem step_metrics_ranges (samples : list R) (sample_rate : Z) :
  samples <> [] -> (0 < sample_rate)%Z ->
  exists m,
    compute_step_metrics samples sample_rate = Ok m
    /\ 0 <= overshoot_pct m
    /\ 0 <= settling_time_ms m <= IZR (Py.len samples) / IZR sample_rate * 1000
    /\ (step_dc_gain m = 0 \/ 1e-10 <= Rabs (step_dc_gain m))
    /\ (settling_time_ms m = 0 <-> step_dc_gain m = 0).
Proof.
  intros Hne Hsr.
  destruct (@compute_step_metrics_total samples sample_rate Hne ltac:(lia)) as [m Hm].
  exists m. split; [ exact Hm | ].
  assert (Hr : 0 < IZR sample_rate) by (apply IZR_lt; exact Hsr).
  assert (Hlen : 0 <= IZR (Py.len samples)).
  { apply IZR_le. unfold Py.len. lia. }
  assert (Hdur : 0 <= IZR (Py.len samples) / IZR sample_rate * 1000).
  { apply Rmult_le_pos; [ | lra ]. apply Rmult_le_pos; [ exact Hlen | ].
    apply Rlt_le. apply Rinv_0_lt_compat. exact Hr. }
  destruct (@compute_step_metrics_inv _ _ _ Hm)
    as [[-> _] | (dc & peak & k & Hdc & Hbig & _ & _ & -> & Hk & _)].
  - cbn [overshoot_pct settling_time_ms step_dc_gain].
    repeat split; try lra.
  - cbn [overshoot_pct settling_time_ms step_dc_gain].
    assert (Hk1 : 1 <= IZR (Z.of_nat k)) by (apply IZR_le; lia).
    assert (Hk2 : IZR (Z.of_nat k) <= IZR (Py.len samples)).
    { apply IZR_le. unfold Py.len. lia. }
    assert (Hinv : 0 < / IZR sample_rate) by (apply Rinv_0_lt_compat; exact Hr).
    assert (Hpos : 0 < IZR (Z.of_nat k) / IZR sample_rate * 1000).
    { apply Rmult_lt_0_compat; [ | lra ]. apply Rmult_lt_0_compat; lra. }
    assert (Hdc0 : dc <> 0).
    { intros ->. rewrite Rabs_R0 in Hbig. lra. }
    split; [ | split; [ | split; [ | split ] ] ].
    + destruct (Rlt_dec 0 dc); [ apply Rmax_l | lra ].
    + split; [ lra | ].
      apply Rmult_le_compat_r; [ lra | ].
      apply Rmult_le_compat_r; [ lra | exact Hk2 ].
    + right. exact Hbig.
    + intros E. lra.
    + intros E. contradiction.
Qed.

(** X7.  Outside the guard, the settling time is [k / sample_rate * 1000] for
    a sample index [1 <= k <= len(samples)] such that every sample from [k]
    on is within 2% of the DC gain and, when [k < len(samples)], sample
    [k - 1] is not.  A buffer that is within 2% throughout gets
    [k = len(samples)]: its settling time is the whole duration of the
    buffer, not zero. *)
Theorem step_settling_sample (samples : list R) (sample_rate : Z) (dc : R) :
  sample_rate <> 0%Z -> steady_state samples = Some dc -> 1e-10 <= Rabs dc ->
  exists m (k : nat),
    compute_step_metrics samples sample_rate = Ok m
    /\ step_dc_gain m = dc
    /\ settling_time_ms m = INR k / IZR sample_rate * 1000
    /\ (1 <= k <= List.length samples)%nat
    /\ (forall i, (k <= i < List.length samples)%nat ->
                  within_2_percent dc (nth i samples 0))
    /\ ((k < List.length samples)%nat ->
        ~ within_2_percent dc (nth (k - 1) samples 0))
    /\ (Forall (within_2_percent dc) samples -> k = List.length samples).
Proof.
  intros Hsr Hdc Hbig.
  assert (Hne : samples <> []).
  { intros ->. discriminate. }
  destruct (compute_step_metrics_total Hne Hsr) as [m Hm].
  destruct (@compute_step_metrics_inv _ _ _ Hm)
    as [[_ (dc' & Hdc' & Hsmall)]
       | (dc' & peak & k & Hdc' & _ & _ & _ & -> & Hk & Hafter & Hbefore & Hall)];
    rewrite Hdc in Hdc'; injection Hdc' as <-.
  - lra.
  - eexists. exists k. split; [ exact Hm | ].
    cbn [step_dc_gain settling_time_ms]. rewrite <- INR_IZR_INZ.
    repeat split; try assumption; try lia.
Qed.

End StepMetrics.

Section StepMetricsInstances.

Local Open Scope R_scope.

Lemma steady_state_unit : steady_state [1] = Some 1.
Proof.
  unfold steady_state.
  change (Py.slice [1] (Py.int_of_Q (inject_Z (Py.len [1]) * (9 # 10))) (Py.len [1]))
    with [1].
  unfold Np.mean. f_equal. simpl. field.
Qed.

(** A one-sample step response at 44100 Hz. *)
Lemma step_metrics_ranges_witness :
  exists m,
    compute_step_metrics [1] 44100 = Ok m
    /\ 0 <= overshoot_pct m
    /\ 0 <= settling_time_ms m <= IZR (Py.len [1]) / IZR 44100 * 1000
    /\ (step_dc_gain m = 0 \/ 1e-10 <= Rabs (step_dc_gain m))
    /\ (settling_time_ms m = 0 <-> step_dc_gain m = 0).
Proof.
  apply step_metrics_ranges; [ discriminate | lia ].
Defined.

(** The same buffer: its only sample is its steady state. *)
Lemma step_settling_sample_witness :
  exists m (k : nat),
    compute_step_metrics [1] 44100 = Ok m
    /\ step_dc_gain m = 1
    /\ settling_time_ms m = INR k / IZR 44100 * 1000
    /\ (1 <= k <= List.length [1])%nat
    /\ (forall i, (k <= i < List.length [1])%nat ->
                  within_2_percent 1 (nth i [1] 0))
    /\ ((k < List.length [1])%nat ->
        ~ within_2_percent 1 (nth (k - 1) [1] 0))
    /\ (Forall (within_2_percent 1) [1] -> k = List.length [1]).
Proof.
  apply step_settling_sample; [ lia | exact steady_state_unit | ].
  rewrite Rabs_R1. lra.
Defined.
End StepMetricsInstances.

(** ** Levels: RMS, THD and the alias ratio *)

Section Levels.

Local Open Scope R_scope.

Lemma linear_to_dbfs_ge_floor (x : R) : -240 <= linear_to_dbfs x.
Proof.
  rewrite <- linear_to_dbfs_0. unfold linear_to_dbfs, log10.
  rewrite Rabs_R0, Rplus_0_l.
  pose proof ln_10_pos as H10. pose proof (Rabs_pos x) as Hx.
  assert (ln 1e-12 <= ln (Rabs x + 1e-12)).
  { destruct (Req_dec (Rabs x) 0) as [-> | Hne]; [ rewrite Rplus_0_l; lra | ].
    apply Rlt_le. apply ln_increasing; lra. }
  assert (ln 1e-12 / ln 10 <= ln (Rabs x + 1e-12) / ln 10).
  { apply Rmult_le_compat_r; [ | assumption ].
    apply Rlt_le. apply Rinv_0_lt_compat. exact H10. }
  lra.
Qed.

Lemma sum_squares_nonneg (l : list R) : 0 <= Np.sum (map (fun x => x ^ 2) l).
Proof.
  induction l as [ | x rest IH ]; [ simpl; lra | ].
  change (Np.sum (map (fun x => x ^ 2) (x :: rest)))
    with (x ^ 2 + Np.sum (map (fun x => x ^ 2) rest)).
  pose proof (pow2_ge_0 x). lra.
Qed.

Lemma sum_squares_bound (l : list R) (b : R) :
  Forall (fun x => Rabs x <= b) l ->
  Np.sum (map (fun x => x ^ 2) l) <= INR (List.length l) * b ^ 2.
Proof.
  induction 1 as [ | x rest Hx _ IH ].
  - simpl. lra.
  - change (Np.sum (map (fun x => x ^ 2) (x :: rest)))
      with (x ^ 2 + Np.sum (map (fun x => x ^ 2) rest)).
    change (List.length (x :: rest)) with (S (List.length rest)).
    rewrite S_INR.
    assert (x ^ 2 <= b ^ 2).
    { pose proof (Rabs_pos x). rewrite <- (pow2_abs x).
      apply pow_incr. lra. }
    lra.
Qed.

Lemma sum_squares_zero_inv (l : list R) :
  Np.sum (map (fun x => x ^ 2) l) = 0 -> Forall (fun x => x = 0) l.
Proof.
  induction l as [ | x rest IH ]; intros H; [ constructor | ].
  change (Np.sum (map (fun x => x ^ 2) (x :: rest)))
    with (x ^ 2 + Np.sum (map (fun x => x ^ 2) rest)) in H.
  pose proof (pow2_ge_0 x). pose proof (sum_squares_nonneg rest).
  constructor.
  - assert (x ^ 2 = 0) by lra. nra.
  - apply IH. lra.
Qed.

Lemma sum_squares_scale (k : R) (l : list R) :
  Np.sum (map (fun x => x ^ 2) (map (Rmult k) l))
  = k ^ 2 * Np.sum (map (fun x => x ^ 2) l).
Proof.
  induction l as [ | x rest IH ]; [ simpl; ring | ].
  change (Np.sum (map (fun x => x ^ 2) (map (Rmult k) (x :: rest))))
    with ((k * x) ^ 2 + Np.sum (map (fun x => x ^ 2) (map (Rmult k) rest))).
  change (Np.sum (map (fun x => x ^ 2) (x :: rest)))
    with (x ^ 2 + Np.sum (map (fun x => x ^ 2) rest)).
  rewrite IH. ring.
Qed.

(** X8.  On a non-empty buffer [compute_rms] returns an RMS level that is
    non-negative, at most any bound on the magnitudes of the samples, and
    zero exactly on digital silence, with its dBFS conversion next to it;
    scaling the buffer by [k] scales the RMS level by [|k|]. *)
Theorem compute_rms_bounds (samples : list R) (b k : R) :
  samples <> [] -> Forall (fun x => Rabs x <= b) samples ->
  exists rms,
    compute_rms samples = Some (rms, linear_to_dbfs rms)
    /\ 0 <= rms <= b
    /\ (rms = 0 <-> Forall (fun x => x = 0) samples)
    /\ compute_rms (map (Rmult k) samples)
       = Some (Rabs k * rms, linear_to_dbfs (Rabs k * rms)).
Proof.
  intros Hne Hb.
  assert (Hn : 0 < INR (List.length samples)).
  { apply lt_0_INR. destruct samples; [ congruence | simpl; lia ]. }
  assert (Hb0 : 0 <= b).
  { destruct Hb as [ | x rest Hx _ ]; [ congruence | ].
    pose proof (Rabs_pos x). lra. }
  pose proof (sum_squares_nonneg samples) as Hs0.
  pose proof (sum_squares_bound Hb) as Hs1.
  set (S := Np.sum (map (fun x => x ^ 2) samples)) in *.
  set (n := INR (List.length samples)) in *.
  assert (Hms : 0 <= S / n <= b ^ 2).
  { split.
    - apply Rmult_le_pos; [ exact Hs0 | ]. apply Rlt_le. apply Rinv_0_lt_compat. exact Hn.
    - apply Rmult_le_reg_r with (r := n); [ exact Hn | ].
      unfold Rdiv. rewrite Rmult_assoc, Rinv_l by lra. lra. }
  exists (sqrt (S / n)).
  split; [ apply compute_rms_nonempty; exact Hne | ].
  split; [ | split ].
  - split; [ apply sqrt_pos | ].
    rewrite <- (sqrt_pow2 b) by exact Hb0. apply sqrt_le_1; lra.
  - split.
    + intros H0. apply sum_squares_zero_inv. fold S.
      apply sqrt_eq_0 in H0; [ | lra ].
      apply Rmult_eq_reg_r with (r := / n).
      * rewrite Rmult_0_l. exact H0.
      * apply Rinv_neq_0_compat. lra.
    + intros H0. unfold S. rewrite sum_squares_zero by exact H0.
      unfold Rdiv. rewrite Rmult_0_l. apply sqrt_0.
  - rewrite compute_rms_nonempty.
    + rewrite sum_squares_scale, length_map. fold S. fold n.
      replace (k ^ 2 * S / n) with (k ^ 2 * (S / n)) by (unfold Rdiv; ring).
      rewrite sqrt_mult by (try apply pow2_ge_0; lra).
      replace (k ^ 2) with (Rsqr k) by (unfold Rsqr; ring).
      rewrite sqrt_Rsqr_abs. reflexivity.
    + destruct samples; [ congruence | discriminate ].
Qed.

End Levels.

Section ThdInvariants.

Local Open Scope R_scope.

Lemma thd_harmonics_inv (spectrum : list R) (f : Q) (n_fft sample_rate : Z) :
  forall ks hp hdb hp' hdb',
    thd_harmonics spectrum f n_fft sample_rate ks hp hdb = Ok (hp', hdb') ->
    hp <= hp'
    /\ (ks = [] -> hp' = hp)
    /\ exists new,
         hdb' = (hdb ++ new)%list
         /\ (List.length new <= List.length ks)%nat
         /\ Forall (fun h => -240 <= h) new.
Proof.
  induction ks as [ | k rest IH ]; intros hp hdb hp' hdb' H; cbn [thd_harmonics] in H.
  - injection H as <- <-. split; [ lra | ]. split; [ reflexivity | ].
    exists []. rewrite app_nil_r. repeat split; [ simpl; lia | constructor ].
  - destruct (bin_of _ _ _) as [b | e]; [ | discriminate ]. cbn [rbind] in H.
    destruct (b >=? Py.len spectrum)%Z.
    + injection H as <- <-. split; [ lra | ]. split; [ reflexivity | ].
      exists []. rewrite app_nil_r. repeat split; [ simpl; lia | constructor ].
    + destruct (Np.max _) as [m | e]; [ | discriminate ]. cbn [rbind] in H.
      apply IH in H. destruct H as [Hle [_ [new [-> [Hlen Hall]]]]].
      split; [ | split; [ discriminate | ] ].
      * pose proof (pow2_ge_0 m). lra.
      * exists (linear_to_dbfs (sqrt (m ^ 2)) :: new).
        rewrite <- app_assoc. split; [ reflexivity | ].
        split; [ simpl; lia | ].
        constructor; [ apply linear_to_dbfs_ge_floor | exact Hall ].
Qed.

(** X9.  Whenever [compute_thd] returns, the THD percentage is not negative,
    there are at most [num_harmonics - 1] harmonic levels, none below the
    floor of -240 dB, and with [num_harmonics <= 1] no harmonic is measured
    and the THD is [0]. *)
Theorem compute_thd_invariants (samples : list R) (sample_rate : Z)
    (fundamental_freq : Q) (num_harmonics : Z) (thd : R) (harmonics_db : list R) :
  compute_thd samples sample_rate fundamental_freq num_harmonics
  = Ok (thd, harmonics_db) ->
  0 <= thd
  /\ (Py.len harmonics_db <= Z.max 0 (num_harmonics - 1))%Z
  /\ Forall (fun h => -240 <= h) harmonics_db
  /\ ((num_harmonics <= 1)%Z -> thd = 0 /\ harmonics_db = []).
Proof.
  unfold compute_thd. intros H.
  destruct (Py.truediv 1 _) as [q | e]; [ | discriminate ]. cbn [rbind] in H.
  destruct (bin_of _ _ _) as [b | e]; [ | discriminate ]. cbn [rbind] in H.
  destruct (Np.max _) as [m | e]; [ | discriminate ]. cbn [rbind] in H.
  destruct (thd_harmonics _ _ _ _ _ _ _) as [[hp hdb] | e] eqn:Hth; [ | discriminate ].
  cbn [rbind] in H. injection H as <- <-.
  apply thd_harmonics_inv in Hth.
  destruct Hth as [Hhp [Hsame [new [-> [Hlen Hall]]]]].
  cbn [app].
  assert (Hhp0 : (num_harmonics <= 1)%Z -> hp = 0).
  { intros Hn. apply Hsame. unfold Py.range.
    replace (Z.to_nat (num_harmonics + 1 - 2)) with 0%nat by lia. reflexivity. }
  assert (Hrange : List.length (Py.range 2 (num_harmonics + 1))
                   = Z.to_nat (num_harmonics - 1)).
  { unfold Py.range. rewrite length_map, length_seq. f_equal. lia. }
  rewrite Hrange in Hlen.
  split; [ | split; [ | split ] ].
  - destruct (Rlt_dec 0 _); [ | lra ].
    apply Rmult_le_pos; [ apply sqrt_pos | lra ].
  - unfold Py.len. lia.
  - exact Hall.
  - intros Hn. assert (Hnil : new = []).
    { destruct new; [ reflexivity | simpl in Hlen; lia ]. }
    subst new. split; [ | reflexivity ].
    destruct (Rlt_dec 0 _); [ | reflexivity ].
    rewrite Hhp0 by exact Hn. unfold Rdiv. rewrite Rmult_0_l, sqrt_0. ring.
Qed.

End ThdInvariants.

Section AliasRatio.

Local Open Scope R_scope.


End AliasRatio.

Section LevelInstances.

Local Open Scope R_scope.

(** A square wave of one period at full scale, and doubled. *)
Lemma compute_rms_bounds_witness :
  exists rms,
    compute_rms [1; -1] = Some (rms, linear_to_dbfs rms)
    /\ 0 <= rms <= 1
    /\ (rms = 0 <-> Forall (fun x => x = 0) [1; -1])
    /\ compute_rms (map (Rmult 2) [1; -1])
       = Some (Rabs 2 * rms, linear_to_dbfs (Rabs 2 * rms)).
Proof.
  apply compute_rms_bounds; [ discriminate | ].
  apply Forall_cons; [ rewrite Rabs_R1; lra | ].
  apply Forall_cons; [ rewrite Rabs_left; lra | apply Forall_nil ].
Defined.

(** [compute_thd] on the one-sample buffer [[1.0]] at 4 Hz, expecting 1.5 Hz. *)
Lemma compute_thd_invariants_witness :
  0 <= thd_percent_spec [1] 4 (3 # 2) 10
  /\ (Py.len (harmonic_levels_db [1%R] 4 (3 # 2) 10) <= Z.max 0 (10 - 1))%Z
  /\ Forall (fun h => -240 <= h) (harmonic_levels_db [1] 4 (3 # 2) 10)
  /\ ((10 <= 1)%Z ->
      thd_percent_spec [1] 4 (3 # 2) 10 = 0
      /\ harmonic_levels_db [1] 4 (3 # 2) 10 = []).
Proof.
  apply (@compute_thd_invariants [1] 4 (3 # 2) 10).
  apply compute_thd_spec.
  - lia.
  - unfold Qle. simpl. lia.
  - unfold analysis_spectrum, windowed_spectrum, Py.len.
    rewrite rfft_abs_length. vm_compute. reflexivity.
Defined.


End LevelInstances.

(** * The peak search of the resonance test *)

Section Resonance.

Local Open Scope R_scope.

Lemma combine_diag (l : list R) (a b : R) : In (a, b) (combine l l) -> a = b /\ In a l.
Proof.
  induction l as [ | x rest IH ]; simpl; [ tauto | ].
  intros [E | H].
  - injection E as <- <-. split; [ reflexivity | left; reflexivity ].
  - destruct (IH H) as [E Hin]. split; [ exact E | right; exact Hin ].
Qed.

Lemma select_diag (test : R -> bool) (l : list R) (x : R) :
  In x (Np.select test l l) -> In x l /\ test x = true.
Proof.
  unfold Np.select. intros H. apply in_map_iff in H.
  destruct H as [[a b] [E Hin]]. simpl in E. subst b.
  apply filter_In in Hin. destruct Hin as [Hin Ht]. simpl in Ht.
  apply combine_diag in Hin. destruct Hin as [<- Hin]. split; assumption.
Qed.

Lemma Rltb_true (x y : R) : Rltb x y = true <-> x < y.
Proof.
  unfold Rltb.
  destruct (Rlt_dec x y); split; intros;
    try assumption; try reflexivity; try discriminate; contradiction.
Qed.

(** X11.  For a positive cutoff and a spectrogram with one row per frequency
    bin, whenever the peak search of the resonance test returns, the peak
    frequency is either one of the spectrogram's frequencies strictly between
    0.5 and 1.5 times the cutoff, or, when no frequency lies in that band,
    the cutoff itself with the peak amplitude -80 dB; so the reported
    [freq_error_percent] is always below 50. *)
Theorem resonance_peak_in_band (cutoff : Q) (freqs : list R) (spec_db : list (list R))
    (peak_freq peak_amp : R) :
  (0 < cutoff)%Q ->
  List.length spec_db = List.length freqs ->
  resonance_peak cutoff freqs spec_db = Ok (peak_freq, peak_amp) ->
  ((peak_freq = Q2R cutoff /\ peak_amp = -80
    /\ Forall (fun f => ~ (0.5 * Q2R cutoff < f < 1.5 * Q2R cutoff)) freqs)
   \/ (In peak_freq freqs /\ 0.5 * Q2R cutoff < peak_freq < 1.5 * Q2R cutoff))
  /\ Rabs (peak_freq - Q2R cutoff) / Q2R cutoff * 100 < 50.
Proof.
  intros Hc _ H.
  assert (Hc' : 0 < Q2R cutoff).
  { replace 0 with (Q2R 0) by (unfold Q2R; simpl; lra). apply Qlt_Rlt. exact Hc. }
  assert (H05 : Q2R (cutoff * 0.5) = 0.5 * Q2R cutoff).
  { rewrite Q2R_mult. unfold Q2R at 2. simpl. lra. }
  assert (H15 : Q2R (cutoff * 1.5) = 1.5 * Q2R cutoff).
  { rewrite Q2R_mult. unfold Q2R at 2. simpl. lra. }
  assert (Hband : forall f,
            (Rltb (Q2R (cutoff * 0.5)) f && Rltb f (Q2R (cutoff * 1.5)))%bool = true
            <-> 0.5 * Q2R cutoff < f < 1.5 * Q2R cutoff).
  { intros f. rewrite andb_true_iff, !Rltb_true, H05, H15. tauto. }
  assert (Herr : forall f, 0.5 * Q2R cutoff < f < 1.5 * Q2R cutoff ->
                  Rabs (f - Q2R cutoff) / Q2R cutoff * 100 < 50).
  { intros f Hf.
    assert (Rabs (f - Q2R cutoff) < 0.5 * Q2R cutoff) by (apply Rabs_def1; lra).
    assert (Rabs (f - Q2R cutoff) / Q2R cutoff < 0.5).
    { apply Rmult_lt_reg_r with (r := Q2R cutoff); [ exact Hc' | ].
      unfold Rdiv. rewrite Rmult_assoc, Rinv_l by lra. lra. }
    lra. }
  unfold resonance_peak in H.
  destruct (existsb _ freqs) eqn:Hany.
  - destruct (fold_right _ _ _) as [means | e]; [ | discriminate ]. cbn [rbind] in H.
    destruct (Np.argmax means) as [idx | e]; [ | discriminate ]. cbn [rbind] in H.
    destruct (Np.item _ idx) as [pf | e] eqn:Hitem; [ | discriminate ]. cbn [rbind] in H.
    destruct (Np.max _) as [pa | e]; [ | discriminate ]. cbn [rbind] in H.
    injection H as <- <-.
    unfold Np.item in Hitem.
    destruct (nth_error _ idx) as [v | ] eqn:Hnth; [ | discriminate ].
    injection Hitem as <-.
    apply nth_error_In in Hnth. apply select_diag in Hnth.
    destruct Hnth as [Hin Ht]. apply Hband in Ht.
    split; [ right; split; assumption | apply Herr; exact Ht ].
  - injection H as <- <-. split.
    + left. split; [ reflexivity | split; [ lra | ] ].
      apply Forall_forall. intros f Hf Hb. apply Hband in Hb.
      assert (existsb (fun f => (Rltb (Q2R (cutoff * 0.5)) f
                                 && Rltb f (Q2R (cutoff * 1.5)))%bool) freqs = true).
      { apply existsb_exists. exists f. split; assumption. }
      congruence.
    + replace (Q2R cutoff - Q2R cutoff) with 0 by ring.
      rewrite Rabs_R0. unfold Rdiv. rewrite !Rmult_0_l. lra.
Qed.

End Resonance.

Section ResonanceInstances.

Local Open Scope R_scope.

(** A one-bin spectrogram whose only frequency is the 1 kHz cutoff. *)
Lemma resonance_peak_single_row :
  resonance_peak 1000 [1000] [[0]] = Ok (1000, 0).
Proof.
  assert (H1 : Rltb (Q2R (1000 * 0.5)) 1000 = true).
  { apply Rltb_true. rewrite Q2R_mult. unfold Q2R. simpl. lra. }
  assert (H2 : Rltb 1000 (Q2R (1000 * 1.5)) = true).
  { apply Rltb_true. rewrite Q2R_mult. unfold Q2R. simpl. lra. }
  unfold resonance_peak, Np.select. cbn [existsb combine filter fst snd map].
  rewrite H1, H2. cbn [andb orb filter fst snd map fold_right Np.mean rbind
                       Np.argmax Np.argmax_from Np.item nth_error List.concat app
                       Np.max fold_left].
  reflexivity.
Qed.

Lemma resonance_peak_in_band_witness :
  ((1000 = Q2R 1000 /\ 0 = -80
    /\ Forall (fun f => ~ (0.5 * Q2R 1000 < f < 1.5 * Q2R 1000)) [1000])
   \/ (In 1000 [1000] /\ 0.5 * Q2R 1000 < 1000 < 1.5 * Q2R 1000))
  /\ Rabs (1000 - Q2R 1000) / Q2R 1000 * 100 < 50.
Proof.
  apply (@resonance_peak_in_band 1000 [1000] [[0]] 1000 0).
  - reflexivity.
  - reflexivity.
  - exact resonance_peak_single_row.
Defined.

End ResonanceInstances.

(** * The metrics of the linear-response test *)

Section LinearMetrics.

Local Open Scope string_scope.
Local Open Scope R_scope.

Lemma fold_left_min_spec (xs : list R) :
  forall x,
    In (fold_left Rmin xs x) (x :: xs)
    /\ fold_left Rmin xs x <= x
    /\ Forall (fun y => fold_left Rmin xs x <= y) xs.
Proof.
  induction xs as [ | y ys IH ]; intros x; simpl.
  - split; [ left; reflexivity | split; [ lra | apply Forall_nil ] ].
  - destruct (IH (Rmin x y)) as [Hin [Hle Hall]].
    pose proof (Rmin_l x y) as Hl. pose proof (Rmin_r x y) as Hr.
    split.
    + destruct Hin as [E | Hin].
      * destruct (Rle_dec x y) as [Hxy | Hxy].
        -- left. rewrite <- E. symmetry. apply Rmin_left. exact Hxy.
        -- right. left. rewrite <- E. symmetry. apply Rmin_right. lra.
      * right. right. exact Hin.
    + split; [ lra | ].
      apply Forall_cons; [ lra | exact Hall ].
Qed.

Lemma slice_incl {A : Type} (l : list A) (a b : Z) (x : A) :
  In x (Py.slice l a b) -> In x l.
Proof.
  unfold Py.slice. intros H.
  set (lo := Z.to_nat (Py.clamp_index (Py.len l) a)) in *.
  set (n := Z.to_nat _) in H.
  rewrite <- (firstn_skipn lo l). apply in_or_app. right.
  rewrite <- (firstn_skipn n (skipn lo l)). apply in_or_app. left. exact H.
Qed.

Lemma argmin_spec (l : list R) :
  l <> [] ->
  exists k, Np.argmin l = Ok k
            /\ (k < List.length l)%nat
            /\ forall j, (j < List.length l)%nat -> nth k l 0 <= nth j l 0.
Proof.
  intros Hl. unfold Np.argmin.
  destruct (@argmax_spec (map Ropp l)) as [k [Hk [Hlt Hmax]]].
  { destruct l; [ contradiction | discriminate ]. }
  rewrite length_map in Hlt, Hmax.
  exists k. split; [ exact Hk | split; [ exact Hlt | ] ].
  intros j Hj. specialize (Hmax j Hj).
  rewrite <- Ropp_0 in Hmax. rewrite !(map_nth Ropp) in Hmax. lra.
Qed.

Lemma slice_length {A : Type} (l : list A) (a c : Z) :
  (0 <= a)%Z -> (0 <= c)%Z ->
  List.length (Py.slice l a c)
  = Nat.min (Z.to_nat c - Z.to_nat a) (List.length l - Z.to_nat a).
Proof.
  intros Ha Hc. rewrite slice_nonneg by assumption.
  rewrite length_firstn, length_skipn. reflexivity.
Qed.

Lemma min_spec (l : list R) :
  l <> [] -> exists m, Np.min l = Ok m /\ In m l /\ Forall (fun y => m <= y) l.
Proof.
  destruct l as [ | x xs ]; [ contradiction | intros _ ].
  destruct (fold_left_min_spec xs x) as [Hin [Hle Hall]].
  exists (fold_left Rmin xs x). split; [ reflexivity | split; [ exact Hin | ] ].
  apply Forall_cons; assumption.
Qed.

Lemma max_spec (l : list R) :
  l <> [] -> exists m, Np.max l = Ok m /\ In m l /\ Forall (fun y => y <= m) l.
Proof.
  destruct l as [ | x xs ]; [ contradiction | intros _ ].
  destruct (fold_left_max_spec xs x) as [Hin [Hle Hall]].
  exists (fold_left Rmax xs x). split; [ reflexivity | split; [ exact Hin | ] ].
  apply Forall_cons; assumption.
Qed.

Lemma int_tenth (n : Z) :
  (0 <= n)%Z -> Py.int_of_Q (inject_Z n * 0.1) = (n / 10)%Z.
Proof.
  intros Hn. unfold Py.int_of_Q. simpl Qnum. simpl Qden.
  rewrite Z.mul_1_r. apply Z.quot_div_nonneg; lia.
Qed.

Lemma int_six_tenths (n : Z) :
  (0 <= n)%Z -> Py.int_of_Q (inject_Z n * 0.6) = (n * 6 / 10)%Z.
Proof.
  intros Hn. unfold Py.int_of_Q. simpl Qnum. simpl Qden.
  apply Z.quot_div_nonneg; lia.
Qed.

(** X12.  On a frequency response of at least ten bins, with one frequency
    per bin, the metrics of the linear-response test are always produced:
    [cutoff_measured_hz] is the frequency of a bin whose magnitude is
    nearest to 3 dB below the magnitude of bin 0, [passband_ripple_db] is
    not negative, and [stopband_atten_db] is the negated magnitude of some
    bin and bounds from below every bin from 60% of the response on. *)
Theorem linear_metrics_total (freqs mag_db : list R) :
  (10 <= Py.len mag_db)%Z ->
  List.length freqs = List.length mag_db ->
  exists (i : nat) (fc ripple atten : R),
    linear_metrics freqs mag_db
    = Ok [ ("cutoff_measured_hz", MFloat fc);
           ("passband_ripple_db", MFloat ripple);
           ("stopband_atten_db", MFloat atten) ]
    /\ nth_error freqs i = Some fc
    /\ (forall j, (j < List.length mag_db)%nat ->
          Rabs (nth i mag_db 0 - nth 0 mag_db 0 + 3)
          <= Rabs (nth j mag_db 0 - nth 0 mag_db 0 + 3))
    /\ 0 <= ripple
    /\ In (- atten) mag_db
    /\ (forall j, (6 * Py.len mag_db <= 10 * Z.of_nat j)%Z ->
          (j < List.length mag_db)%nat -> - atten <= nth j mag_db 0).
Proof.
  intros Hlen Hfreqs.
  assert (Hn : (10 <= List.length mag_db)%nat) by (unfold Py.len in Hlen; lia).
  unfold linear_metrics.
  destruct mag_db as [ | m0 rest ] eqn:Emag; [ simpl in Hn; lia | ].
  rewrite <- Emag in *.
  assert (Hm0 : Np.item mag_db 0 = Ok m0) by (rewrite Emag; reflexivity).
  assert (Hnth0 : nth 0 mag_db 0 = m0) by (rewrite Emag; reflexivity).
  rewrite Hm0. cbn [rbind].
  set (dev := fun m : R => Rabs (m - m0 + 3)).
  destruct (@argmin_spec (map dev mag_db)) as [i [Hi [Hilt Himin]]].
  { rewrite Emag. discriminate. }
  rewrite length_map in Hilt, Himin.
  rewrite Hi. cbn [rbind].
  destruct (nth_error freqs i) as [fc | ] eqn:Hfc.
  2:{ apply nth_error_None in Hfc. lia. }
  unfold Np.item at 1. rewrite Hfc. cbn [rbind].
  rewrite int_tenth, int_six_tenths by (unfold Py.len; lia).
  set (n := Py.len mag_db) in *.
  destruct (@max_spec (Py.slice mag_db 0 (n / 10))) as [hi [Hhi [Hhin Hhiall]]].
  { intros E. pose proof (@slice_length R mag_db 0 (n / 10)) as L.
    rewrite E in L. simpl in L.
    assert (1 <= n / 10)%Z by (apply Z.div_le_lower_bound; lia).
    lia. }
  destruct (@min_spec (Py.slice mag_db 0 (n / 10))) as [lo [Hlo [Hloin Hloall]]].
  { intros E. rewrite E in Hhin. contradiction. }
  assert (H60 : (0 <= n * 6 / 10 < n)%Z).
  { split; [ apply Z.div_pos; lia | apply Z.div_lt_upper_bound; lia ]. }
  assert (Hsb : Py.slice mag_db (n * 6 / 10) n = skipn (Z.to_nat (n * 6 / 10)) mag_db).
  { rewrite slice_nonneg by lia. apply firstn_all2.
    rewrite length_skipn. unfold n, Py.len. lia. }
  destruct (@min_spec (Py.slice mag_db (n * 6 / 10) n)) as [sb [Hsbm [Hsbin Hsball]]].
  { rewrite Hsb. intros E. apply skipn_all_iff in E. unfold n, Py.len in *. lia. }
  rewrite Hhi, Hlo, Hsbm. cbn [rbind].
  exists i, fc, (hi - lo), (- sb).
  split; [ reflexivity | ].
  split; [ exact Hfc | ].
  split.
  { intros j Hj. specialize (Himin j Hj).
    replace 0 with (dev (-3 + m0)) in Himin at 1 2.
    2:{ unfold dev. replace (-3 + m0 - m0 + 3) with 0 by ring. apply Rabs_R0. }
    rewrite !(map_nth dev) in Himin.
    assert (Hd : dev (-3 + m0) = 0).
    { unfold dev. replace (-3 + m0 - m0 + 3) with 0 by ring. apply Rabs_R0. }
    rewrite Hnth0. unfold dev in Himin.
    rewrite !(nth_indep mag_db 0 (-3 + m0)) by assumption. exact Himin. }
  split.
  { rewrite Forall_forall in Hhiall. specialize (Hhiall lo Hloin). lra. }
  rewrite Ropp_involutive.
  split.
  { eapply slice_incl. exact Hsbin. }
  intros j H6 Hj.
  rewrite Forall_forall in Hsball. apply Hsball.
  rewrite Hsb.
  assert (Hk : (n * 6 / 10 <= Z.of_nat j)%Z) by (apply Z.div_le_upper_bound; lia).
  replace j with (Z.to_nat (n * 6 / 10) + (j - Z.to_nat (n * 6 / 10)))%nat at 1 by lia.
  rewrite <- nth_skipn. apply nth_In. rewrite length_skipn. lia.
Qed.

(** X13.  A frequency response of fewer than ten bins makes the metrics of
    the linear-response test fail: an empty response raises [IndexError] at
    [mag_db[0]], a non-empty one [ValueError] at the [np.max] of the empty
    passband slice [mag_db[:0]]. *)
Theorem linear_metrics_short_response (freqs mag_db : list R) :
  List.length freqs = List.length mag_db ->
  (Py.len mag_db < 10)%Z ->
  linear_metrics freqs mag_db
  = Raise (match mag_db with [] => IndexError | _ :: _ => ValueError end).
Proof.
  intros Hfreqs Hlen. unfold linear_metrics.
  destruct mag_db as [ | m0 rest ] eqn:Emag; [ reflexivity | ].
  rewrite <- Emag in *.
  assert (Hm0 : Np.item mag_db 0 = Ok m0) by (rewrite Emag; reflexivity).
  rewrite Hm0. cbn [rbind].
  set (dev := fun m : R => Rabs (m - m0 + 3)).
  destruct (@argmin_spec (map dev mag_db)) as [i [Hi [Hilt _]]].
  { rewrite Emag. discriminate. }
  rewrite length_map in Hilt.
  rewrite Hi. cbn [rbind].
  destruct (nth_error freqs i) as [fc | ] eqn:Hfc.
  2:{ apply nth_error_None in Hfc. lia. }
  unfold Np.item at 1. rewrite Hfc. cbn [rbind].
  rewrite int_tenth by (unfold Py.len; lia).
  assert (H0 : (Py.len mag_db / 10 = 0)%Z).
  { apply Z.div_small. unfold Py.len in *. lia. }
  rewrite H0.
  assert (E : Py.slice mag_db 0 0 = []).
  { rewrite slice_nonneg by lia. reflexivity. }
  rewrite E. reflexivity.
Qed.

End LinearMetrics.

Section LinearInstances.

Local Open Scope string_scope.
Local Open Scope R_scope.

(** A flat ten-bin response. *)
Lemma linear_metrics_total_witness :
  exists (i : nat) (fc ripple atten : R),
    linear_metrics (map INR (seq 0 10)) (repeat 0 10)
    = Ok [ ("cutoff_measured_hz", MFloat fc);
           ("passband_ripple_db", MFloat ripple);
           ("stopband_atten_db", MFloat atten) ]
    /\ nth_error (map INR (seq 0 10)) i = Some fc
    /\ (forall j, (j < List.length (repeat 0 10))%nat ->
          Rabs (nth i (repeat 0 10) 0 - nth 0 (repeat 0 10) 0 + 3)
          <= Rabs (nth j (repeat 0 10) 0 - nth 0 (repeat 0 10) 0 + 3))
    /\ 0 <= ripple
    /\ In (- atten) (repeat 0 10)
    /\ (forall j, (6 * Py.len (repeat 0 10) <= 10 * Z.of_nat j)%Z ->
          (j < List.length (repeat 0 10))%nat -> - atten <= nth j (repeat 0 10) 0).
Proof.
  apply linear_metrics_total.
  - unfold Py.len. simpl. lia.
  - reflexivity.
Defined.

(** A two-bin response. *)
Lemma linear_metrics_short_response_witness :
  linear_metrics [0; 1] [0; -3] = Raise ValueError.
Proof.
  apply (@linear_metrics_short_response [0; 1] [0; -3]).
  - reflexivity.
  - unfold Py.len. simpl. lia.
Defined.

End LinearInstances.

(** * File names of the filter outputs *)

Section FilterNames.

Local Open Scope string_scope.

Lemma string_length_app (s t : string) :
  String.length (s ++ t) = (String.length s + String.length t)%nat.
Proof. induction s as [ | c s IH ]; simpl; [ reflexivity | rewrite IH; reflexivity ]. Qed.

Lemma string_app_assoc (s t u : string) : (s ++ t) ++ u = s ++ t ++ u.
Proof. induction s as [ | c s IH ]; simpl; [ reflexivity | rewrite IH; reflexivity ]. Qed.

Lemma substring_app_l (s t : string) : substring 0 (String.length s) (s ++ t) = s.
Proof.
  induction s as [ | c s IH ]; simpl.
  - destruct t; reflexivity.
  - rewrite IH. reflexivity.
Qed.

Lemma prefix_marker_cons (a : ascii) (s : string) :
  prefix "_c" (String a s) = true <-> a = "_"%char /\ exists s', s = String "c" s'.
Proof.
  split.
  - intros H. cbn [prefix] in H.
    destruct (ascii_dec "_" a) as [<- | Ha]; [ | discriminate ].
    split; [ reflexivity | ].
    destruct s as [ | b s' ]; [ discriminate | ]. cbn [prefix] in H.
    destruct (ascii_dec "c" b) as [<- | Hb]; [ | discriminate ].
    exists s'. reflexivity.
  - intros [-> [s' ->]]. cbn [prefix].
    destruct (ascii_dec "_" "_"); [ | congruence ].
    destruct (ascii_dec "c" "c"); [ | congruence ].
    destruct s'; reflexivity.
Qed.

Lemma index_marker_app (name rest : string) :
  index 0 "_c" name = None ->
  index 0 "_c" (name ++ "_c" ++ rest) = Some (String.length name).
Proof.
  induction name as [ | a name IH ]; intros H.
  - simpl. destruct rest; reflexivity.
  - cbn [index] in H.
    destruct (prefix "_c" (String a name)) eqn:Hp; [ discriminate | ].
    destruct (index 0 "_c" name) as [ j | ] eqn:Hi; [ discriminate | ].
    specialize (IH eq_refl).
    change (String a name ++ "_c" ++ rest) with (String a (name ++ "_c" ++ rest)).
    cbn [index]. rewrite IH.
    destruct (prefix "_c" (String a (name ++ "_c" ++ rest))) eqn:Hq; [ | reflexivity ].
    exfalso.
    apply prefix_marker_cons in Hq. destruct Hq as [-> [s' E]].
    destruct name as [ | b name' ].
    + simpl in E. discriminate.
    + simpl in E. injection E as -> _.
      assert (prefix "_c" (String "_" (String "c" name')) = true).
      { apply prefix_marker_cons. split; [ reflexivity | exists name'; reflexivity ]. }
      congruence.
Qed.

Lemma last_dot_wav (s : string) :
  forall i found, Str.last_dot (s ++ ".wav") i found = Some (i + String.length s)%nat.
Proof.
  induction s as [ | c s IH ]; intros i found.
  - simpl. rewrite Nat.add_0_r. reflexivity.
  - simpl. rewrite IH. f_equal. lia.
Qed.

Lemma stem_wav (p : Path) (s : string) :
  s <> EmptyString -> PathOps.name p = s ++ ".wav" -> PathOps.stem p = s.
Proof.
  intros Hs Hname. unfold PathOps.stem. rewrite Hname.
  rewrite last_dot_wav. rewrite Nat.add_0_l.
  rewrite string_length_app.
  assert (Hlen : (0 < String.length s)%nat).
  { destruct s; [ contradiction | simpl; lia ]. }
  replace ((0 <? String.length s)%nat) with true by (symmetry; apply Nat.ltb_lt; lia).
  replace ((S (String.length s) <? String.length s + String.length ".wav")%nat) with true
    by (symmetry; apply Nat.ltb_lt; simpl; lia).
  cbn [andb]. apply substring_app_l.
Qed.

(** X14.  Naming round trip: for a filter name that does not contain ["_c"],
    every path whose file name is
    [<name>_c<cutoff>_r<resonance>[_os<n>x].wav], the pattern [run_filters]
    globs for, is attributed to that filter, whatever the directory, cutoff,
    resonance and oversampling factor: [extract_filter_name] of the stem of
    the path gives the name back. *)
Theorem extract_filter_name_of_output (p : Path) (name : string)
    (cutoff resonance : Q) (oversample : Z) :
  index 0 "_c" name = None ->
  PathOps.name p = name ++ output_pattern cutoff resonance oversample ->
  extract_filter_name (PathOps.stem p) = name.
Proof.
  intros Hname Hp.
  assert (Hpat : exists mid,
             output_pattern cutoff resonance oversample = "_c" ++ mid ++ ".wav").
  { unfold output_pattern. destruct (0 <? oversample)%Z.
    - exists (Str.of_Z (Py.int_of_Q cutoff) ++ "_r" ++ Str.fixed 2 resonance
              ++ "_os" ++ Str.of_Z oversample ++ "x").
      rewrite !string_app_assoc. reflexivity.
    - exists (Str.of_Z (Py.int_of_Q cutoff) ++ "_r" ++ Str.fixed 2 resonance).
      rewrite !string_app_assoc. reflexivity. }
  destruct Hpat as [mid Hpat]. rewrite Hpat in Hp.
  rewrite (@stem_wav p (name ++ "_c" ++ mid)).
  - unfold extract_filter_name, Str.before_first.
    rewrite index_marker_app by exact Hname.
    apply substring_app_l.
  - destruct name; discriminate.
  - rewrite Hp, !string_app_assoc. reflexivity.
Qed.

Lemma prefix_refl (s : string) : prefix s s = true.
Proof.
  induction s as [ | c s IH ]; simpl; [ reflexivity | ].
  destruct (ascii_dec c c); [ exact IH | congruence ].
Qed.

Lemma prefix_substring (i : nat) : forall s, prefix (substring 0 i s) s = true.
Proof.
  induction i as [ | i IH ]; intros s.
  - destruct s; reflexivity.
  - destruct s as [ | c s ]; [ reflexivity | ]. simpl.
    destruct (ascii_dec c c); [ apply IH | congruence ].
Qed.

Lemma index_marker_before (s : string) :
  forall i, index 0 "_c" s = Some i -> index 0 "_c" (substring 0 i s) = None.
Proof.
  induction s as [ | a s IH ]; intros i H.
  - discriminate.
  - cbn [index] in H.
    destruct (prefix "_c" (String a s)) eqn:Hp.
    + injection H as <-. reflexivity.
    + destruct (index 0 "_c" s) as [ j | ] eqn:Hi; [ | discriminate ].
      injection H as <-. specialize (IH j eq_refl).
      change (substring 0 (S j) (String a s)) with (String a (substring 0 j s)).
      cbn [index]. rewrite IH.
      destruct (prefix "_c" (String a (substring 0 j s))) eqn:Hq; [ | reflexivity ].
      exfalso. apply prefix_marker_cons in Hq. destruct Hq as [-> [s' E]].
      destruct j as [ | j ]; [ destruct s; discriminate | ].
      destruct s as [ | b s'' ]; [ discriminate | ].
      simpl in E. injection E as -> _.
      assert (prefix "_c" (String "_" (String "c" s'')) = true).
      { apply prefix_marker_cons. split; [ reflexivity | exists s''; reflexivity ]. }
      congruence.
Qed.

(** X15.  The name [extract_filter_name] returns is a prefix of the file
    name and never contains ["_c"]: a filter whose name contains ["_c"] is
    never the name extracted from any file. *)
Theorem extract_filter_name_no_marker (filename : string) :
  index 0 "_c" (extract_filter_name filename) = None
  /\ prefix (extract_filter_name filename) filename = true.
Proof.
  unfold extract_filter_name, Str.before_first.
  destruct (index 0 "_c" filename) as [ i | ] eqn:Hi.
  - split; [ apply index_marker_before; exact Hi | apply prefix_substring ].
  - split; [ exact Hi | apply prefix_refl ].
Qed.

End FilterNames.

Section FilterNameInstances.

Local Open Scope string_scope.

(** The 4x oversampled 1 kHz output of the Stilson filter. *)
Lemma extract_filter_name_of_output_witness :
  extract_filter_name (PathOps.stem ["wav"; "thd"; "Stilson_c1000_r0.50_os4x.wav"])
  = "Stilson".
Proof.
  apply (@extract_filter_name_of_output
           ["wav"; "thd"; "Stilson_c1000_r0.50_os4x.wav"] "Stilson" 1000 0.5 4).
  - reflexivity.
  - vm_compute. reflexivity.
Defined.

End FilterNameInstances.

(** * The configurations the categories measure at *)

Section Configurations.

Local Open Scope string_scope.

Variable repr_float : Q -> string.
Variable scipy_chirp : list R -> Q -> Q -> Q -> result (list R).
Variable subprocess_run : list string -> FS -> result (CompletedProcess * FS).
Variable plot : string -> Path -> M Path.
Variable compute_frequency_response : list R -> Z -> result (list R * list R * list R).
Variable compute_group_delay : list R -> list R -> result (list R).
Variable compute_spectrogram : list R -> Z -> result (list R * list R * list (list R)).

Lemma post_for_each_in {A S : Type} (l : list A) (body : A -> S -> M S) (I : S -> Prop) :
  (forall x s, In x l -> I s -> post (body x s) I) ->
  forall s, I s -> post (for_each l body s) I.
Proof.
  induction l as [ | x rest IH ]; intros Hbody s Hs; simpl.
  - apply post_ret. exact Hs.
  - apply post_bind with (Q := I).
    + apply Hbody; [ left; reflexivity | exact Hs ].
    + intros s' Hs'. apply IH; [ | exact Hs' ].
      intros y t Hy Ht. apply Hbody; [ right; exact Hy | exact Ht ].
Qed.

Lemma analyze_outputs_forall (P : AnalysisResult.t -> Prop) (filters : list string)
    (analyze : string -> Path -> M AnalysisResult.t) :
  (forall fname p, post (analyze fname p) P) ->
  forall files results,
    Forall P results ->
    post (analyze_outputs filters files analyze results) (Forall P).
Proof.
  intros Han files results Hres. unfold analyze_outputs.
  apply post_for_each; [ | exact Hres ].
  intros p s Hs. apply post_if.
  - apply post_ret. exact Hs.
  - apply post_bind with (Q := P); [ apply Han | ].
    intros r Hr. apply post_ret. apply Forall_app. split; [ exact Hs | ].
    apply Forall_cons; [ exact Hr | apply Forall_nil ].
Qed.

Lemma post_add_plot_measured (no_plots : bool) (plot_fn : string) (output_path : Path)
    (r : AnalysisResult.t) (t : string) (c q : Q) (o : Z) :
  measured_at t c q o r ->
  post (add_plot plot no_plots plot_fn output_path r) (measured_at t c q o).
Proof.
  intros H. unfold add_plot. destruct no_plots.
  - apply post_ret. exact H.
  - apply post_bind_any. intros p. apply post_ret. exact H.
Qed.

Ltac measured_step :=
  match goal with
  | |- post (add_plot _ _ _ _ _) _ =>
      apply post_add_plot_measured; first [ assumption | repeat split ]
  | |- post (bind (add_plot _ _ _ _ _) _) _ =>
      eapply post_bind;
      [ apply post_add_plot_measured; first [ eassumption | repeat split ]
      | intros ? ? ]
  | |- post (bind _ _) _ => apply post_bind_any; intros ?
  | |- post (ret _) _ => apply post_ret; repeat split
  | |- post (match ?x with _ => _ end) _ => destruct x
  end.

Lemma analyze_resonance_measured plots_dir cutoff resonance oversample no_plots fname p :
  post (analyze_resonance plot compute_spectrogram
          plots_dir cutoff resonance oversample no_plots fname p)
    (measured_at "resonance" cutoff resonance oversample).
Proof. unfold analyze_resonance. repeat measured_step. Qed.

Lemma analyze_selfoscillation_measured plots_dir cutoff resonance oversample no_plots
    fname p :
  post (analyze_selfoscillation plot plots_dir cutoff resonance oversample no_plots fname p)
    (measured_at "selfoscillation" cutoff resonance oversample).
Proof. unfold analyze_selfoscillation. repeat measured_step. Qed.

Lemma analyze_linear_measured plots_dir cutoff resonance oversample no_plots fname p :
  post (analyze_linear plot compute_frequency_response compute_group_delay
          plots_dir cutoff resonance oversample no_plots fname p)
    (measured_at "linear_response" cutoff resonance oversample).
Proof. unfold analyze_linear. repeat measured_step. Qed.

Lemma analyze_aliasing_measured cutoff resonance oversample test_freq fname p :
  post (analyze_aliasing cutoff resonance oversample test_freq fname p)
    (measured_at "aliasing" cutoff resonance oversample).
Proof. unfold analyze_aliasing. repeat measured_step. Qed.

Lemma restricted_cutoffs_In (cutoffs : list Q) (c : Q) :
  In c (restricted_cutoffs cutoffs) ->
  In c cutoffs /\ (c == 200 \/ c == 1000 \/ c == 5000)%Q.
Proof.
  unfold restricted_cutoffs. intros H. apply filter_In in H.
  destruct H as [Hin Hex]. split; [ exact Hin | ].
  cbn [existsb] in Hex. rewrite !orb_true_iff in Hex.
  destruct Hex as [H | [H | [H | H]]]; try discriminate;
    apply Qeq_bool_iff in H; tauto.
Qed.

(** X16.  Whatever cutoffs are requested, the resonance and self-oscillation
    tests measure only at requested cutoffs equal to 200, 1000 or 5000 Hz:
    every result they return is a ["resonance"] result at resonance 0.9, or
    a ["selfoscillation"] result at resonance 1.0, without oversampling, at
    such a cutoff. *)
Theorem resonance_tests_at_restricted_cutoffs
    (runfilters_path inputs_dir wav_dir plots_dir : Path) (sample_rate : Z)
    (cutoffs : list Q) (filters : list string)
    (skip_existing no_plots verbose : bool) :
  post (run_resonance_test repr_float scipy_chirp subprocess_run plot
          compute_spectrogram
          runfilters_path inputs_dir wav_dir plots_dir sample_rate cutoffs filters
          skip_existing no_plots verbose)
    (Forall (fun r => exists c,
                 In c cutoffs /\ (c == 200 \/ c == 1000 \/ c == 5000)%Q
                 /\ measured_at "resonance" c 0.9 0 r))
  /\ post (run_selfoscillation_test repr_float subprocess_run plot
             runfilters_path inputs_dir wav_dir plots_dir sample_rate cutoffs filters
             skip_existing no_plots verbose)
       (Forall (fun r => exists c,
                    In c cutoffs /\ (c == 200 \/ c == 1000 \/ c == 5000)%Q
                    /\ measured_at "selfoscillation" c 1 0 r)).
Proof.
  split.
  - unfold run_resonance_test.
    apply post_bind_any. intros chirp. apply post_bind_any. intros [chirp' chirp_path].
    apply post_for_each_in; [ | apply Forall_nil ].
    intros c results Hc Hres. apply restricted_cutoffs_In in Hc.
    apply post_bind_any. intros _. apply post_bind_any. intros files.
    apply analyze_outputs_forall; [ | exact Hres ].
    intros fname p w.
    pose proof (analyze_resonance_measured plots_dir c 0.9 0 no_plots fname p w) as H.
    destruct (analyze_resonance _ _ _ _ _ _ _ _ _ w) as [[r w'] | e]; [ | exact I ].
    exists c. tauto.
  - unfold run_selfoscillation_test.
    apply post_bind_any. intros silence. apply post_bind_any. intros [silence' silence_path].
    apply post_for_each_in; [ | apply Forall_nil ].
    intros c results Hc Hres. apply restricted_cutoffs_In in Hc.
    apply post_bind_any. intros _. apply post_bind_any. intros files.
    apply analyze_outputs_forall; [ | exact Hres ].
    intros fname p w.
    pose proof (analyze_selfoscillation_measured plots_dir c 1 0 no_plots fname p w) as H.
    destruct (analyze_selfoscillation _ _ _ _ _ _ _ _ w) as [[r w'] | e]; [ | exact I ].
    exists c. tauto.
Qed.

Lemma existsb_Zeqb_In (x : Z) (l : list Z) : existsb (Z.eqb x) l = true <-> In x l.
Proof.
  rewrite existsb_exists. split.
  - intros [y [Hy He]]. apply Z.eqb_eq in He. subst. exact Hy.
  - intros H. exists x. split; [ exact H | apply Z.eqb_refl ].
Qed.

(** X17.  Every result of the linear-response test is measured at resonance
    0, at a requested cutoff and a requested oversampling factor; every
    result of the aliasing test is measured at cutoff 15000 Hz and resonance
    0.9, at a requested oversampling factor that is 0 or 4. *)
Theorem results_at_requested_oversampling
    (runfilters_path inputs_dir wav_dir plots_dir : Path) (sample_rate : Z)
    (cutoffs : list Q) (filters : list string) (oversamples : list Z)
    (skip_existing no_plots verbose : bool) :
  post (run_linear_response_test repr_float subprocess_run plot
          compute_frequency_response compute_group_delay
          runfilters_path inputs_dir wav_dir plots_dir sample_rate cutoffs filters
          oversamples skip_existing no_plots verbose)
    (Forall (fun r => exists c o,
                 In c cutoffs /\ In o oversamples
                 /\ measured_at "linear_response" c 0 o r))
  /\ post (run_aliasing_test repr_float subprocess_run
             runfilters_path inputs_dir wav_dir plots_dir sample_rate filters
             oversamples skip_existing no_plots verbose)
       (Forall (fun r => exists o,
                    In o oversamples /\ (o = 0 \/ o = 4)%Z
                    /\ measured_at "aliasing" 15000 0.9 o r)).
Proof.
  split.
  - unfold run_linear_response_test.
    apply post_bind_any. intros impulse. apply post_bind_any. intros [impulse' impulse_path].
    apply post_for_each_in; [ | apply Forall_nil ].
    intros c results Hc Hres.
    apply post_for_each_in; [ | exact Hres ].
    intros o results' Ho Hres'.
    apply post_bind_any. intros _. apply post_bind_any. intros files.
    apply analyze_outputs_forall; [ | exact Hres' ].
    intros fname p w.
    pose proof (analyze_linear_measured plots_dir c 0 o no_plots fname p w) as H.
    destruct (analyze_linear _ _ _ _ _ _ _ _ _ _ w) as [[r w'] | e]; [ | exact I ].
    exists c, o. tauto.
  - unfold run_aliasing_test.
    apply post_for_each_in; [ | apply Forall_nil ].
    intros f results _ Hres.
    apply post_bind_any. intros _. apply post_bind_any. intros [sine sine_path].
    apply post_for_each_in; [ | exact Hres ].
    intros o results' Ho Hres'.
    destruct (existsb (Z.eqb o) oversamples) eqn:Hin; cbn [negb].
    + apply existsb_Zeqb_In in Hin.
      apply post_bind_any. intros files.
      apply analyze_outputs_forall; [ | exact Hres' ].
      intros fname p w.
      pose proof (analyze_aliasing_measured 15000 0.9 o f fname p w) as H.
      destruct (analyze_aliasing _ _ _ _ _ _ w) as [[r w'] | e]; [ | exact I ].
      exists o. split; [ exact Hin | ]. split; [ | exact H ].
      simpl in Ho. lia.
    + apply post_ret. exact Hres'.
Qed.

End Configurations.

Section AliasingSkip.

Local Open Scope string_scope.

Variable repr_float : Q -> string.






End AliasingSkip.

Section ConfigurationInstances.

Local Open Scope string_scope.


End ConfigurationInstances.

(** * The summary file *)

Section SummaryFile.

Local Open Scope string_scope.

Variable repr_float : Q -> string.
Variable randn : Z -> nat -> list R.
Variable scipy_chirp : list R -> Q -> Q -> Q -> result (list R).
Variable subprocess_run : list string -> FS -> result (CompletedProcess * FS).
Variable plot : string -> Path -> M Path.
Variable compute_frequency_response : list R -> Z -> result (list R * list R * list R).
Variable compute_group_delay : list R -> list R -> result (list R).
Variable compute_spectrogram : list R -> Z -> result (list R * list R * list (list R)).
Variable compute_psd : list R -> Z -> result (list R * list R).
Variable generate_comparison_plots :
  Path -> Path -> Z -> list string -> bool -> M (list string).
Variable strftime : nat -> string.
Variable isoformat : nat -> string.

Lemma bind_inv {A B : Type} (c : M A) (k : A -> M B) (w w' : World) (b : B) :
  bind c k w = Ok (b, w') ->
  exists a w1, c w = Ok (a, w1) /\ k a w1 = Ok (b, w').
Proof.
  unfold bind. intros H. destruct (c w) as [[a w1] | e]; [ | discriminate ].
  exists a, w1. split; [ reflexivity | exact H ].
Qed.

Lemma json_dump_inv (path : Path) (doc : Node) (w w' : World) (u : unit) :
  json_dump path doc w = Ok (u, w') ->
  Fs.exists_ (fs w) (PathOps.parent path) = true
  /\ Fs.lookup (fs w') path = Some doc.
Proof.
  unfold json_dump, bind, get_fs. 
  destruct (Fs.exists_ (fs w) (PathOps.parent path)); [ | discriminate ].
  unfold put_fs. intros H. injection H as _ <-. simpl.
  split; [ reflexivity | apply lookup_write ].
Qed.

(** X19.  Whenever [run_test_suite] returns, the run directory is named
    after the clock reading taken at the start ([run_id]), the file
    [<output_dir>/<run_id>/metrics/summary.json] holds exactly the summary
    that is returned, and the summary records the requested sample rate,
    filters and tests. *)
Theorem run_test_suite_writes_summary
    (runfilters_path output_dir : Path) (sample_rate : Z)
    (tests filters : list string) (cutoffs resonances : list Q)
    (oversamples : list Z) (skip_existing no_plots verbose : bool)
    (w w' : World) (summary : MetricsSummary.t) :
  run_test_suite repr_float randn scipy_chirp subprocess_run plot
    compute_frequency_response compute_group_delay compute_spectrogram
    compute_psd generate_comparison_plots strftime isoformat
    runfilters_path output_dir sample_rate tests filters cutoffs resonances
    oversamples skip_existing no_plots verbose w
  = Ok (summary, w') ->
  MetricsSummary.run_id summary = strftime (clock w)
  /\ Fs.lookup (fs w')
       (output_dir // MetricsSummary.run_id summary // "metrics" // "summary.json")%path
     = Some (JsonSummary summary)
  /\ MetricsSummary.sample_rate summary = sample_rate
  /\ MetricsSummary.filters_tested summary = filters
  /\ MetricsSummary.tests_run summary = tests.
Proof.
  intros H. unfold run_test_suite in H.
  apply bind_inv in H. destruct H as [now [w1 [Hnow H]]].
  unfold datetime_now in Hnow. injection Hnow as <- _.
  repeat match type of H with
         | bind (json_dump _ _) _ _ = _ => fail 1
         | bind _ _ _ = _ =>
             apply bind_inv in H; destruct H as [? [? [_ H]]]
         end.
  apply bind_inv in H. destruct H as [u [w2 [Hdump H]]].
  unfold ret in H. injection H as <- <-.
  apply json_dump_inv in Hdump. destruct Hdump as [_ Hfile].
  cbn [MetricsSummary.run_id MetricsSummary.sample_rate
       MetricsSummary.filters_tested MetricsSummary.tests_run].
  repeat split; try reflexivity. exact Hfile.
Qed.

Lemma run_test_suite_no_tests_returns
    (runfilters_path output_dir : Path) (sample_rate : Z)
    (filters : list string) (cutoffs resonances : list Q)
    (oversamples : list Z) (skip_existing no_plots verbose : bool) (w : World) :
  exists summary w',
    run_test_suite repr_float randn scipy_chirp subprocess_run plot
      compute_frequency_response compute_group_delay compute_spectrogram
      compute_psd generate_comparison_plots strftime isoformat
      runfilters_path output_dir sample_rate [] filters cutoffs resonances
      oversamples skip_existing no_plots verbose w
    = Ok (summary, w').
Proof.
  unfold run_test_suite.
  unfold category_block, Str.mem, existsb.
  unfold bind, datetime_now, for_each, mkdir, bind, get_fs, put_fs, ret. simpl.
  replace (negb no_plots && false) with false by (destruct no_plots; reflexivity).
  unfold json_dump, bind, get_fs. simpl.
  rewrite parent_div, exists_mkdir. simpl.
  eexists. eexists. reflexivity.
Qed.

End SummaryFile.

Section SummaryInstances.

Local Open Scope string_scope.

(** A run with no test requested, on an empty disk; no collaborator is
    reached. *)
Lemma run_test_suite_writes_summary_witness :
  exists summary w',
    run_test_suite (fun _ => EmptyString) (fun _ _ => [])
      (fun _ _ _ _ => Raise ValueError) (fun _ _ => Raise ValueError)
      (fun _ p => ret p) (fun _ _ => Raise ValueError) (fun _ _ => Raise ValueError)
      (fun _ _ => Raise ValueError) (fun _ _ => Raise ValueError)
      (fun _ _ _ _ _ => ret []) (fun _ => "20260101_000000") (fun _ => "2026-01-01T00:00:00")
      ["RunFilters"] ["verification_results"] 44100 [] FILTER_NAMES DEFAULT_CUTOFFS
      DEFAULT_RESONANCES DEFAULT_OVERSAMPLES false true false
      {| fs := []; stdout := []; clock := 0 |}
    = Ok (summary, w')
    /\ MetricsSummary.run_id summary = "20260101_000000"
    /\ Fs.lookup (fs w')
         (["verification_results"] // MetricsSummary.run_id summary // "metrics"
            // "summary.json")%path
       = Some (JsonSummary summary)
    /\ MetricsSummary.sample_rate summary = 44100%Z
    /\ MetricsSummary.filters_tested summary = FILTER_NAMES
    /\ MetricsSummary.tests_run summary = [].
Proof.
  destruct (run_test_suite_no_tests_returns (fun _ => EmptyString) (fun _ _ => [])
      (fun _ _ _ _ => Raise ValueError) (fun _ _ => Raise ValueError)
      (fun _ p => ret p) (fun _ _ => Raise ValueError) (fun _ _ => Raise ValueError)
      (fun _ _ => Raise ValueError) (fun _ _ => Raise ValueError)
      (fun _ _ _ _ _ => ret []) (fun _ => "20260101_000000") (fun _ => "2026-01-01T00:00:00")
      ["RunFilters"] ["verification_results"] 44100 FILTER_NAMES DEFAULT_CUTOFFS
      DEFAULT_RESONANCES DEFAULT_OVERSAMPLES false true false
      {| fs := []; stdout := []; clock := 0 |}) as [summary [w' H]].
  exists summary, w'. split; [ exact H | ].
  exact (@run_test_suite_writes_summary _ _ _ _ _ _ _ _ _ _ _ _ _ _ _ _ _ _ _ _ _ _ _ _ _ _ H).
Defined.

End SummaryInstances.

(** * The files [run_filters] returns *)

Section RunnerOutputs.

Local Open Scope string_scope.

Variable subprocess_run : list string -> FS -> result (CompletedProcess * FS).

Lemma exists_In (f : FS) (p : Path) (n : Node) : In (p, n) f -> Fs.exists_ f p = true.
Proof.
  unfold Fs.exists_. induction f as [ | [q m] rest IH ]; simpl; [ tauto | ].
  intros [E | H].
  - injection E as -> ->. rewrite PathOps_eqb_refl. reflexivity.
  - destruct (PathOps.eqb q p); [ reflexivity | apply IH; exact H ].
Qed.

Lemma glob_spec (f : FS) (d : Path) (suffix : string) (p : Path) :
  In p (Fs.glob f d suffix) ->
  p <> [] /\ PathOps.parent p = d
  /\ Str.ends_with suffix (PathOps.name p) = true
  /\ Fs.exists_ f p = true.
Proof.
  unfold Fs.glob. intros H. apply in_map_iff in H.
  destruct H as [[q n] [E Hin]]. simpl in E. subst q.
  apply filter_In in Hin. destruct Hin as [Hin Ht]. simpl in Ht.
  destruct p as [ | c rest ]; [ discriminate | ].
  apply andb_true_iff in Ht. destruct Ht as [Hpar Hend].
  apply PathOps_eqb_eq in Hpar.
  split; [ discriminate | ].
  split; [ exact Hpar | split; [ exact Hend | eapply exists_In; exact Hin ] ].
Qed.

(** X20.  Whenever [run_filters] returns, the child process was started on
    the caller's file system with the output directory created, the file
    system afterwards is the one the child left, a non-empty result means
    exit status 0, and every returned path is an existing entry directly in
    the output directory whose name ends with the pattern
    [_c<cutoff>_r<resonance>[_os<n>x].wav]. *)
Theorem run_filters_outputs
    (runfilters_path input_wav : Path) (cutoff resonance : Q) (oversample : Z)
    (output_dir : Path) (verbose : bool) (w w' : World) (files : list Path) :
  run_filters subprocess_run runfilters_path input_wav cutoff resonance
    oversample output_dir verbose w = Ok (files, w') ->
  Fs.exists_ (Fs.mkdir (fs w) output_dir) output_dir = true
  /\ (exists cp,
        subprocess_run
          (run_filters_cmd runfilters_path input_wav cutoff resonance oversample
             output_dir)
          (Fs.mkdir (fs w) output_dir) = Ok (cp, fs w')
        /\ (files <> [] -> returncode cp = 0%Z))
  /\ Forall (fun p => PathOps.parent p = output_dir
                      /\ Str.ends_with (output_pattern cutoff resonance oversample)
                           (PathOps.name p) = true
                      /\ Fs.exists_ (fs w') p = true) files.
Proof.
  intros H. split; [ apply exists_mkdir | ].
  unfold run_filters, bind, get_fs, put_fs, subprocess in H.
  destruct verbose; cbn [when print ret fs stdout clock] in H.
  all: destruct (subprocess_run _ _) as [[cp f'] | e] eqn:Hrun; [ | discriminate ].
  all: cbn [fs stdout clock] in H.
  all: destruct (returncode cp =? 0)%Z eqn:Hrc; cbn [negb] in H.
  all: try (injection H as <- <-; cbn [fs];
            split; [ exists cp; split; [ reflexivity | intros C; contradiction ]
                   | apply Forall_nil ]).
  all: try destruct (negb (proc_stdout cp =? EmptyString)%string);
       cbn [andb when print ret fs stdout clock] in H;
       injection H as <- <-; cbn [fs];
       (split; [ exists cp; split; [ reflexivity | intros _; apply Z.eqb_eq; exact Hrc ] | ]);
       apply Forall_forall; intros p Hp; apply glob_spec in Hp; tauto.
Qed.

End RunnerOutputs.

Section RunnerInstances.

Local Open Scope string_scope.

(** A child process that writes the Stilson output and exits with status 0,
    started on an empty disk. *)
Lemma run_filters_outputs_witness :
  Fs.exists_ (Fs.mkdir [] ["out"]) ["out"] = true
  /\ (exists cp,
        (fun (_ : list string) (f : FS) =>
           Ok ({| returncode := 0; proc_stdout := EmptyString;
                  proc_stderr := EmptyString |},
               Fs.write f ["out"; "Stilson_c1000_r0.50.wav"]
                 (WavFile 44100 (Int16 []))))
          (run_filters_cmd ["RunFilters"] ["in.wav"] 1000 0.5 0 ["out"])
          (Fs.mkdir [] ["out"])
        = Ok (cp, [ ([], Dir); (["out"], Dir);
                    (["out"; "Stilson_c1000_r0.50.wav"], WavFile 44100 (Int16 [])) ])
        /\ ([["out"; "Stilson_c1000_r0.50.wav"]] <> [] -> returncode cp = 0%Z))
  /\ Forall (fun p => PathOps.parent p = ["out"]
                      /\ Str.ends_with (output_pattern 1000 0.5 0) (PathOps.name p) = true
                      /\ Fs.exists_
                           [ ([], Dir); (["out"], Dir);
                             (["out"; "Stilson_c1000_r0.50.wav"],
                              WavFile 44100 (Int16 [])) ] p = true)
       [["out"; "Stilson_c1000_r0.50.wav"]].
Proof.
  apply (@run_filters_outputs
           (fun (_ : list string) (f : FS) =>
           Ok ({| returncode := 0; proc_stdout := EmptyString;
                  proc_stderr := EmptyString |},
               Fs.write f ["out"; "Stilson_c1000_r0.50.wav"]
                 (WavFile 44100 (Int16 []))))
           ["RunFilters"] ["in.wav"] 1000 0.5 0 ["out"] false
           {| fs := []; stdout := []; clock := 0 |}
           {| fs := [ ([], Dir); (["out"], Dir);
                 (["out"; "Stilson_c1000_r0.50.wav"], WavFile 44100 (Int16 [])) ];
         stdout := []; clock := 0 |}
           [["out"; "Stilson_c1000_r0.50.wav"]]).
  vm_compute. reflexivity.
Defined.

End RunnerInstances.

(** * Group delay *)

Section GroupDelay.

Local Open Scope R_scope.

Lemma nth_map_lt (f : R -> R) (l : list R) (i : nat) :
  (i < List.length l)%nat -> nth i (map f l) 0 = f (nth i l 0).
Proof.
  intros Hi. rewrite (nth_indep (map f l) 0 (f 0)) by (rewrite length_map; exact Hi).
  apply map_nth.
Qed.

Lemma combine_map_seq {A B : Type} (f : nat -> A) (g : nat -> B) (l : list nat) :
  combine (map f l) (map g l) = map (fun i => (f i, g i)) l.
Proof. induction l as [ | x rest IH ]; simpl; [ reflexivity | rewrite IH; reflexivity ]. Qed.

Lemma gradient_returns (a : list R) :
  (2 <= List.length a)%nat ->
  exists g, np_gradient a = Ok g /\ List.length g = List.length a.
Proof.
  intros Ha. unfold np_gradient.
  replace (List.length a <? 2)%nat with false by (symmetry; apply Nat.ltb_ge; exact Ha).
  eexists. split; [ reflexivity | ]. rewrite length_map, length_seq. reflexivity.
Qed.

(** X21.  The group delay of a pure delay is exact: for at least two
    frequencies that increase by at least [1e-10 / (2 pi)] from bin to bin
    (evenly spaced or not) and the phase [p0 - tau * omega] of a delay of
    [tau], [compute_group_delay] returns [tau] at every bin, the two end
    bins included. *)
Theorem group_delay_of_linear_phase (tau p0 : R) (freqs : list R) :
  (2 <= List.length freqs)%nat ->
  (forall i, (S i < List.length freqs)%nat ->
             1e-10 <= 2 * PI * (nth (S i) freqs 0 - nth i freqs 0)) ->
  compute_group_delay (map (fun f => p0 - tau * (2 * PI * f)) freqs) freqs
  = Ok (repeat tau (List.length freqs)).
Proof.
  intros Hlen Hinc. unfold compute_group_delay, np_gradient.
  rewrite !length_map.
  replace (List.length freqs <? 2)%nat with false by (symmetry; apply Nat.ltb_ge; exact Hlen).
  cbn [rbind]. rewrite !length_map, !length_seq, Nat.eqb_refl.
  set (n := List.length freqs) in *.
  rewrite map_map, combine_map_seq, map_map.
  replace (repeat tau n) with (map (fun _ : nat => tau) (seq 0 n))
    by (rewrite map_const, length_seq; reflexivity).
  f_equal. apply map_ext_in. intros i Hi. apply in_seq in Hi.
  cbn [fst snd].
  set (phase := fun f : R => p0 - tau * (2 * PI * f)).
  set (om := fun f : R => 2 * PI * f).
  assert (Hph : forall j, (j < n)%nat -> nth j (map phase freqs) 0 = phase (nth j freqs 0)).
  { intros j Hj. apply nth_map_lt. exact Hj. }
  assert (Hom : forall j, (j < n)%nat -> nth j (map om freqs) 0 = om (nth j freqs 0)).
  { intros j Hj. apply nth_map_lt. exact Hj. }
  assert (Hstep : forall j, (S j < n)%nat ->
                    1e-10 <= om (nth (S j) freqs 0) - om (nth j freqs 0)).
  { intros j Hj. unfold om. specialize (Hinc j Hj). lra. }
  destruct (Nat.eqb_spec i 0) as [-> | Hi0].
  - rewrite !Hph, !Hom by lia.
    specialize (Hstep 0%nat ltac:(lia)).
    destruct (Rlt_dec _ _) as [Hsmall | _].
    + rewrite Rabs_right in Hsmall by lra. lra.
    + unfold phase, om in *. field. lra.
  - destruct (Nat.eqb_spec i (n - 1)) as [-> | Hilast].
    + rewrite !Hph, !Hom by lia.
      pose proof (Hstep (n - 2)%nat ltac:(lia)) as Hs.
      replace (S (n - 2)) with (n - 1)%nat in Hs by lia.
      destruct (Rlt_dec _ _) as [Hsmall | _].
      * rewrite Rabs_right in Hsmall by lra. lra.
      * unfold phase, om in *. field. lra.
    + rewrite !Hph, !Hom by lia.
      pose proof (Hstep (i - 1)%nat ltac:(lia)) as Hs1.
      pose proof (Hstep i ltac:(lia)) as Hs2.
      replace (S (i - 1)) with i in Hs1 by lia.
      replace (S i) with (i + 1)%nat in Hs2 by lia.
      destruct (Rlt_dec _ _) as [Hsmall | _].
      * rewrite Rabs_right in Hsmall by lra. lra.
      * unfold phase, om in *. field. lra.
Qed.

(** X22.  [compute_group_delay] returns exactly when the phase has at least
    two points and there are as many frequencies as phase points; it then
    returns one delay per point.  In every other case it raises
    [ValueError]. *)
Theorem compute_group_delay_returns_iff (phase_rad freqs : list R) :
  if ((2 <=? List.length phase_rad)%nat
      && (List.length freqs =? List.length phase_rad)%nat)%bool
  then exists group_delay,
         compute_group_delay phase_rad freqs = Ok group_delay
         /\ List.length group_delay = List.length phase_rad
  else compute_group_delay phase_rad freqs = Raise ValueError.
Proof.
  unfold compute_group_delay.
  destruct (Nat.leb_spec 2 (List.length phase_rad)) as [Hp | Hp]; cbn [andb].
  - destruct (gradient_returns phase_rad Hp) as [dp [-> Hdp]]. cbn [rbind].
    destruct (Nat.eqb_spec (List.length freqs) (List.length phase_rad)) as [Hf | Hf].
    + destruct (@gradient_returns (map (fun f => 2 * PI * f) freqs)) as [dw [-> Hdw]].
      { rewrite length_map. lia. }
      cbn [rbind]. rewrite length_map in *.
      replace (List.length dp =? List.length dw)%nat with true
        by (symmetry; apply Nat.eqb_eq; lia).
      eexists. split; [ reflexivity | ].
      rewrite length_map, length_combine, length_map. lia.
    + destruct (Nat.leb_spec 2 (List.length freqs)) as [Hf2 | Hf2].
      * destruct (@gradient_returns (map (fun f => 2 * PI * f) freqs)) as [dw [-> Hdw]].
        { rewrite length_map. lia. }
        cbn [rbind]. rewrite length_map in *.
        replace (List.length dp =? List.length dw)%nat with false
          by (symmetry; apply Nat.eqb_neq; lia).
        reflexivity.
      * unfold np_gradient at 1. rewrite length_map.
        replace (List.length freqs <? 2)%nat with true
          by (symmetry; apply Nat.ltb_lt; lia).
        reflexivity.
  - unfold np_gradient at 1.
    replace (List.length phase_rad <? 2)%nat with true
      by (symmetry; apply Nat.ltb_lt; lia).
    reflexivity.
Qed.

End GroupDelay.

Section GroupDelayInstances.

Local Open Scope R_scope.

(** Two bins, 0 Hz and 1 Hz, and the phase of a delay of one second. *)
Lemma group_delay_of_linear_phase_witness :
  compute_group_delay (map (fun f => 0 - 1 * (2 * PI * f)) [0; 1]) [0; 1]
  = Ok (repeat 1 (List.length [0; 1])).
Proof.
  apply (@group_delay_of_linear_phase 1 0 [0; 1]).
  - simpl. lia.
  - intros i Hi. simpl in Hi. assert (i = 0%nat) by lia. subst i. simpl.
    pose proof PI2_3_2. lra.
Defined.

End GroupDelayInstances.

(** * The metrics of the noise test *)

Section NoiseMetrics.

Local Open Scope string_scope.
Local Open Scope R_scope.

Lemma nearest_bin (target : R) (freqs : list R) :
  freqs <> [] ->
  exists i, Np.argmin (map (fun f => Rabs (f - target)) freqs) = Ok i
            /\ (i < List.length freqs)%nat
            /\ forall k, (k < List.length freqs)%nat ->
                 Rabs (nth i freqs 0 - target) <= Rabs (nth k freqs 0 - target).
Proof.
  intros Hne. set (dev := fun f : R => Rabs (f - target)).
  destruct (@argmin_spec (map dev freqs)) as [i [Hi [Hlt Hmin]]].
  { destruct freqs; [ contradiction | discriminate ]. }
  rewrite length_map in Hlt, Hmin.
  exists i. split; [ exact Hi | split; [ exact Hlt | ] ].
  intros k Hk. specialize (Hmin k Hk).
  rewrite !(nth_indep (map dev freqs) 0 (dev 0)) in Hmin by (rewrite length_map; assumption).
  rewrite !(map_nth dev) in Hmin. exact Hmin.
Qed.

(** X23.  For a non-empty output PSD with one value per frequency and an
    input PSD of at least as many bins, the metrics of the noise test are
    always produced: [psd_at_cutoff_db] is the output PSD at a bin whose
    frequency is nearest to the cutoff, [psd_at_4x_cutoff_db] the output PSD
    at a bin nearest to four times the cutoff, and [stopband_atten_db] the
    input PSD minus the output PSD at that same bin index. *)
Theorem noise_metrics_nearest_bins (cutoff : Q) (input_psd output_freqs output_psd : list R) :
  output_freqs <> [] ->
  List.length output_psd = List.length output_freqs ->
  (List.length output_freqs <= List.length input_psd)%nat ->
  exists (i j : nat) (a b c : R),
    noise_metrics cutoff input_psd output_freqs output_psd
    = Ok [ ("psd_at_cutoff_db", MFloat a);
           ("psd_at_4x_cutoff_db", MFloat b);
           ("stopband_atten_db", MFloat (c - b)) ]
    /\ nth_error output_psd i = Some a
    /\ nth_error output_psd j = Some b
    /\ nth_error input_psd j = Some c
    /\ (forall k, (k < List.length output_freqs)%nat ->
          Rabs (nth i output_freqs 0 - Q2R cutoff)
          <= Rabs (nth k output_freqs 0 - Q2R cutoff))
    /\ (forall k, (k < List.length output_freqs)%nat ->
          Rabs (nth j output_freqs 0 - 4 * Q2R cutoff)
          <= Rabs (nth k output_freqs 0 - 4 * Q2R cutoff)).
Proof.
  intros Hne Hpsd Hin. unfold noise_metrics.
  destruct (nearest_bin (Q2R cutoff) Hne) as [i [Hi [Hilt Himin]]].
  destruct (nearest_bin (Q2R (cutoff * 4)) Hne) as [j [Hj [Hjlt Hjmin]]].
  rewrite Hi, Hj. cbn [rbind]. unfold Np.item.
  destruct (nth_error output_psd i) as [a | ] eqn:Ha.
  2:{ apply nth_error_None in Ha. lia. }
  destruct (nth_error output_psd j) as [b | ] eqn:Hb.
  2:{ apply nth_error_None in Hb. lia. }
  destruct (nth_error input_psd j) as [c | ] eqn:Hc.
  2:{ apply nth_error_None in Hc. lia. }
  cbn [rbind].
  exists i, j, a, b, c.
  split; [ reflexivity | ].
  repeat (split; [ assumption | ]).
  assert (E4 : Q2R (cutoff * 4) = 4 * Q2R cutoff).
  { rewrite Q2R_mult. unfold Q2R at 2. simpl. lra. }
  rewrite E4 in Hjmin. exact Hjmin.
Qed.

End NoiseMetrics.

Section NoiseInstances.

Local Open Scope string_scope.
Local Open Scope R_scope.

(** Three PSD bins at 0, 1000 and 4000 Hz. *)
Lemma noise_metrics_nearest_bins_witness :
  exists (i j : nat) (a b c : R),
    noise_metrics 1000 [-20; -20; -20] [0; 1000; 4000] [-20; -23; -60]
    = Ok [ ("psd_at_cutoff_db", MFloat a);
           ("psd_at_4x_cutoff_db", MFloat b);
           ("stopband_atten_db", MFloat (c - b)) ]
    /\ nth_error [-20; -23; -60] i = Some a
    /\ nth_error [-20; -23; -60] j = Some b
    /\ nth_error [-20; -20; -20] j = Some c
    /\ (forall k, (k < List.length [0; 1000; 4000])%nat ->
          Rabs (nth i [0; 1000; 4000] 0 - Q2R 1000)
          <= Rabs (nth k [0; 1000; 4000] 0 - Q2R 1000))
    /\ (forall k, (k < List.length [0; 1000; 4000])%nat ->
          Rabs (nth j [0; 1000; 4000] 0 - 4 * Q2R 1000)
          <= Rabs (nth k [0; 1000; 4000] 0 - 4 * Q2R 1000)).
Proof.
  apply noise_metrics_nearest_bins.
  - discriminate.
  - reflexivity.
  - simpl. lia.
Defined.

End NoiseInstances.

(** * Frequency response *)

Section FrequencyResponseBins.

Local Open Scope R_scope.

Variable unwrap_angle : list R -> list R -> list R.

Lemma short_response_bins (k : nat) :
  (1 <= k < 9)%nat ->
  (Z.to_nat (next_power_of_2 (Z.of_nat k * 2)) / 2 + 1 < 10)%nat.
Proof.
  intros Hk.
  do 9 (destruct k as [ | k ]; [ try lia; vm_compute; lia | ]).
  lia.
Qed.

(** X24.  At a non-zero sample rate [compute_frequency_response] always
    returns, with one magnitude per frequency and more bins than samples;
    bin [k] lies at [k * sample_rate / n_fft] for
    [n_fft = next_power_of_2 (2 * len samples)]; no magnitude is below
    -240 dB; and a non-empty impulse response yields at least ten bins (what
    the metrics of the linear-response test need) exactly when it has at
    least nine samples. *)
Theorem frequency_response_bins (samples : list R) (sample_rate : Z) (window : string) :
  sample_rate <> 0%Z ->
  exists freqs magnitude_db phase_rad,
    compute_frequency_response unwrap_angle samples sample_rate window
    = Ok (freqs, magnitude_db, phase_rad)
    /\ List.length freqs = List.length magnitude_db
    /\ (List.length samples < List.length magnitude_db)%nat
    /\ (forall k, (k < List.length freqs)%nat ->
          nth k freqs 0
          = INR k * IZR sample_rate / IZR (next_power_of_2 (Py.len samples * 2)))
    /\ Forall (fun m => -240 <= m) magnitude_db
    /\ (samples <> [] ->
        ((10 <= List.length magnitude_db)%nat <-> (9 <= List.length samples)%nat)).
Proof.
  intros Hsr. unfold compute_frequency_response.
  rewrite truediv_inject_nonzero by exact Hsr. cbn [rbind].
  set (N := next_power_of_2 (Py.len samples * 2)).
  set (windowed := Np.mul samples _).
  assert (HN : (0 < N)%Z) by apply next_power_of_2_pos.
  assert (Hbig : samples <> [] -> (Py.len samples * 2 <= N)%Z).
  { intros Hne. unfold N.
    destruct (@next_power_of_2_bounds (Py.len samples * 2)) as [_ [H _]]; [ | exact H ].
    unfold Py.len. destruct samples; [ contradiction | simpl List.length; lia ]. }
  assert (Hhalf : samples <> [] -> (List.length samples <= Z.to_nat N / 2)%nat).
  { intros Hne. specialize (Hbig Hne). unfold Py.len in Hbig.
    apply Nat.div_le_lower_bound; lia. }
  eexists. eexists. eexists. split; [ reflexivity | ].
  rewrite length_map, rfft_abs_length.
  split.
  { unfold Np.rfftfreq. rewrite length_map, length_seq. reflexivity. }
  split.
  { destruct samples as [ | s rest ] eqn:E; [ simpl List.length; lia | ].
    rewrite <- E in *. assert (Hne : samples <> []) by (rewrite E; discriminate).
    specialize (Hhalf Hne). lia. }
  split.
  { intros k Hk. unfold Np.rfftfreq in *. rewrite length_map, length_seq in Hk.
    rewrite nth_map_seq by exact Hk.
    rewrite (INR_IZR_INZ (Z.to_nat N)), Z2Nat.id by lia. reflexivity. }
  split.
  { apply Forall_forall. intros m Hm. apply in_map_iff in Hm.
    destruct Hm as [x [<- _]]. apply linear_to_dbfs_ge_floor. }
  intros Hne. split.
  - intros Hbins.
    destruct (Nat.le_gt_cases 9 (List.length samples)) as [H9 | H9]; [ exact H9 | ].
    exfalso.
    assert (Hk : (1 <= List.length samples < 9)%nat).
    { destruct samples; [ contradiction | simpl List.length in *; lia ]. }
    pose proof (short_response_bins Hk) as Hshort.
    unfold N, Py.len in Hbins. lia.
  - intros H9. specialize (Hbig Hne). unfold Py.len in Hbig.
    assert (9 <= Z.to_nat N / 2)%nat by (apply Nat.div_le_lower_bound; lia).
    lia.
Qed.

End FrequencyResponseBins.

Section FrequencyResponseInstances.

Local Open Scope R_scope.

(** A one-sample impulse response at 44.1 kHz. *)
Lemma frequency_response_bins_witness :
  exists freqs magnitude_db phase_rad,
    compute_frequency_response (fun re _ => re) [1] 44100 "hann"
    = Ok (freqs, magnitude_db, phase_rad)
    /\ List.length freqs = List.length magnitude_db
    /\ (List.length [1] < List.length magnitude_db)%nat
    /\ (forall k, (k < List.length freqs)%nat ->
          nth k freqs 0
          = INR k * IZR 44100 / IZR (next_power_of_2 (Py.len [1] * 2)))
    /\ Forall (fun m => -240 <= m) magnitude_db
    /\ ([1] <> [] ->
        ((10 <= List.length magnitude_db)%nat <-> (9 <= List.length [1])%nat)).
Proof.
  apply (@frequency_response_bins (fun re _ => re) [1] 44100 "hann").
  lia.
Defined.

End FrequencyResponseInstances.
